(** * s4cmb: scan-trajectory synthesis and systematics injection

    A shallow embedding of [s4cmb/scanning_strategy.py] and
    [s4cmb/systematics.py].

    Conventions of the embedding.
    - numpy/Python floats are idealised as exact rationals ([Q]); rounding is
      not modelled.  Equalities between floating quantities are stated with
      [Qeq] ([==]).
    - Python exceptions are modelled by the [result] type below.
    - External libraries (ephem, healpy, numpy's random generator and
      trigonometry, the Fortran kernels) are section variables; pyslalib's
      calendar routines are transcribed from the published SLALIB Fortran.
    - numpy arrays are lists; in-place updates return the updated list. *)

From Stdlib Require Import ZArith QArith Qabs Qround List String Ascii Bool Lia Lqa.
From Stdlib Require Import Permutation DecimalString Wf_nat Inverse_Image.
From Stdlib Require Import DecimalZ DecimalPos.
From Stdlib Require FinFun Floats.
Import ListNotations.

Set Implicit Arguments.

(* ================================================================== *)
(** ** Python exceptions and results *)

Module Py.

Inductive PyError : Type :=
| ValueError (msg : string)
| NameError (name : string)
| IndexError
| AssertionError (msg : string)
| ZeroDivisionError.

Inductive result (A : Type) : Type :=
| Ok (a : A)
| Raise (e : PyError).

Arguments Ok {A} a.
Arguments Raise {A} e.

Definition bind {A B} (r : result A) (k : A -> result B) : result B :=
  match r with
  | Ok a => k a
  | Raise e => Raise e
  end.

Definition is_ok {A} (r : result A) : bool :=
  match r with Ok _ => true | Raise _ => false end.

Definition raises {A} (r : result A) : bool := negb (is_ok r).

(** [int(x)] on a float: truncation toward zero. *)
Definition int_of_float (x : Q) : Z := Z.quot (Qnum x) (Zpos (Qden x)).

(** Python's whitespace, as stripped by [int(str)]. *)
Definition is_space (c : ascii) : bool :=
  let n := nat_of_ascii c in
  ((9 <=? n) && (n <=? 13))%nat || (n =? 32)%nat.

Definition is_digit (c : ascii) : bool :=
  let n := nat_of_ascii c in ((48 <=? n) && (n <=? 57))%nat.

Definition digit_value (c : ascii) : Z := Z.of_nat (nat_of_ascii c - 48).

Fixpoint lstrip (s : string) : string :=
  match s with
  | String c s' => if is_space c then lstrip s' else s
  | EmptyString => EmptyString
  end.

Fixpoint rstrip (s : string) : string :=
  match s with
  | EmptyString => EmptyString
  | String c s' =>
      match rstrip s' with
      | EmptyString => if is_space c then EmptyString else String c EmptyString
      | t => String c t
      end
  end.

Fixpoint digits_value (acc : Z) (s : string) : option Z :=
  match s with
  | EmptyString => Some acc
  | String c s' =>
      if is_digit c then digits_value (10 * acc + digit_value c) s' else None
  end.

(** [int(s)] on a string: surrounding whitespace is dropped, one sign is
    allowed, then at least one decimal digit; anything else is a
    [ValueError]. *)
Definition int_of_string (s : string) : result Z :=
  let bad := Raise (ValueError "invalid literal for int() with base 10") in
  let unsigned (t : string) (k : Z -> Z) :=
    match t with
    | EmptyString => bad
    | _ => match digits_value 0 t with Some n => Ok (k n) | None => bad end
    end in
  match rstrip (lstrip s) with
  | String "-"%char t => unsigned t Z.opp
  | String "+"%char t => unsigned t (fun n => n)
  | t => unsigned t (fun n => n)
  end.

(** [str(n)] for an integer. *)
Definition str_of_int (n : Z) : string := NilZero.string_of_int (Z.to_int n).

Fixpoint spaces (n : nat) : string :=
  match n with O => EmptyString | S k => String " "%char (spaces k) end.

(** ['{:wd}'.format(n)]: right-aligned in [w] columns, padded with blanks. *)
Definition format_d (w : nat) (n : Z) : string :=
  let s := str_of_int n in
  (spaces (w - String.length s) ++ s)%string.

(** [s.replace(a, b)] for one-character [a]. *)
Fixpoint replace_char (a : ascii) (b : string) (s : string) : string :=
  match s with
  | EmptyString => EmptyString
  | String c s' =>
      if Ascii.eqb c a then (b ++ replace_char a b s')%string
      else String c (replace_char a b s')
  end.

(** [s.split(sep)[0]] for one-character [sep]. *)
Fixpoint before_char (sep : ascii) (s : string) : string :=
  match s with
  | EmptyString => EmptyString
  | String c s' =>
      if Ascii.eqb c sep then EmptyString else String c (before_char sep s')
  end.

(** [s[i:j]] for [0 <= i <= j]. *)
Definition slice (i j : nat) (s : string) : string := substring i (j - i) s.

End Py.

Export Py.

Notation "x <- r ;; k" := (Py.bind r (fun x => k))
  (at level 61, r at next level, right associativity).

(* ================================================================== *)
(** ** pyslalib: the four SLALIB routines the time conversions call *)

Module Slalib.

#[local] Open Scope Z_scope.

(** Length of month [im] in year [iy] (the table MTAB of sla_CLDJ, February
    adjusted for leap years). *)
Definition mtab (iy im : Z) : Z :=
  let feb :=
    if (Z.rem iy 100 =? 0) && negb (Z.rem iy 400 =? 0) then 28
    else if Z.rem iy 4 =? 0 then 29 else 28 in
  match im with
  | 1 => 31 | 2 => feb | 3 => 31 | 4 => 30 | 5 => 31 | 6 => 30
  | 7 => 31 | 8 => 31 | 9 => 30 | 10 => 31 | 11 => 30 | 12 => 31
  | _ => 0
  end.

(** The day count of sla_CLDJ (Fortran integer arithmetic: [/] truncates,
    MOD takes the sign of the dividend). *)
Definition cldj_days (iy im id : Z) : Z :=
  let a := iy - Z.quot (12 - im) 10 in
  Z.quot (1461 * (a + 4712)) 4
  + Z.quot (306 * Z.rem (im + 9) 12 + 5) 10
  - Z.quot (3 * Z.quot (a + 4900) 100) 4
  + id - 2399904.

(** sla_CLDJ: Gregorian calendar date to MJD.  Status 0 = OK, 1 = bad year
    (MJD not computed), 2 = bad month (MJD not computed), 3 = bad day (MJD
    computed).  Where the routine leaves DJM unset, the wrapper hands back its
    zero-initialised output. *)
Definition sla_cldj (iy im id : Z) : Q * Z :=
  if iy <? -4699 then (0%Q, 1)
  else if (1 <=? im) && (im <=? 12) then
    let j := if (id <? 1) || (mtab iy im <? id) then 3 else 0 in
    (inject_Z (cldj_days iy im id), j)
  else (0%Q, 2).

(** sla_DTF2D: hours, minutes, seconds to days.  Status 0 = OK, 1 = hour
    outside 0-23, 2 = minute outside 0-59, 3 = second outside 0-59.999...;
    the interval is computed whatever the status. *)
Definition sla_dtf2d (ihour imin : Z) (sec : Q) : Q * Z :=
  let j0 := if Qle_bool 0 sec && negb (Qle_bool 60 sec) then 0 else 3 in
  let j1 := if (imin <? 0) || (59 <? imin) then 2 else j0 in
  let j2 := if (ihour <? 0) || (23 <? ihour) then 1 else j1 in
  ((60 * (60 * inject_Z ihour + inject_Z imin) + sec) / 86400, j2)%Q.

(** ANINT / NINT: nearest whole number, halves away from zero. *)
Definition anint (x : Q) : Z :=
  if Qle_bool 0 x then Qfloor (x + (1 # 2)) else Qceiling (x - (1 # 2)).

(** The calendar fields of sla_DJCL for the Julian day number [jd]. *)
Definition djcl_fields (jd : Z) : Z * Z * Z :=
  let n4 :=
    4 * (jd + Z.quot (Z.quot (6 * Z.quot (4 * jd - 17918) 146097) 4 + 1) 2
         - 37) in
  let nd10 := 10 * Z.quot (Z.rem (n4 - 237) 1461) 4 + 5 in
  (Z.quot n4 1461 - 4712,
   Z.rem (Z.quot nd10 306 + 2) 12 + 1,
   Z.quot (Z.rem nd10 306) 10 + 1).

(** sla_DJCL: MJD to Gregorian year, month, day and fraction of day.
    Status -1 = unacceptable date (before 4701BC March 1 or MJD >= 1e9; the
    outputs are then unset), 0 = OK. *)
Definition sla_djcl (djm : Q) : Z * Z * Z * Q * Z :=
  if Qle_bool djm (-2395520) || Qle_bool 1000000000 djm
  then (0, 0, 0, 0%Q, -1)
  else
    (* F = MOD(DJM,1D0); IF (F.LT.0D0) F = F+1D0 *)
    let f0 := (djm - inject_Z (int_of_float djm))%Q in
    let f := if Qle_bool 0 f0 then f0 else (f0 + 1)%Q in
    let d := anint (djm - f) in
    let '(iy, im, id) := djcl_fields (d + 2400001) in
    (iy, im, id, f, 0).

(** sla_DD2TF: days to sign, hours, minutes, seconds and a fraction with
    [ndp] decimals. *)
Definition sla_dd2tf (ndp : nat) (days : Q) : ascii * (Z * Z * Z * Z) :=
  let sign := if Qle_bool 0 days then "+"%char else "-"%char in
  let rs := 10 ^ Z.of_nat ndp in
  let rm := rs * 60 in
  let rh := rm * 60 in
  let a := anint (inject_Z rs * 86400 * Qabs days) in
  let ah := Z.quot a rh in
  let a1 := a - ah * rh in
  let am := Z.quot a1 rm in
  let a2 := a1 - am * rm in
  let as_ := Z.quot a2 rs in
  let af := a2 - as_ * rs in
  (sign,
   (Z.max ah 0,
    Z.max (Z.min am 59) 0,
    Z.max (Z.min as_ 59) 0,
    Z.max (Z.min af (rs - 1)) 0)).

End Slalib.

(* ================================================================== *)
(** ** Astronomical time conversion ([greg_to_mjd], [mjd_to_greg]) *)

Module TimeConv.

Import Slalib.

(** [greg_to_mjd]: both status flags are bound and never looked at. *)
Definition greg_to_mjd (greg : string) : result Q :=
  year <- int_of_string (slice 0 4 greg) ;;
  month <- int_of_string (slice 4 6 greg) ;;
  day <- int_of_string (slice 6 8 greg) ;;
  hour <- int_of_string (slice 9 11 greg) ;;
  minute <- int_of_string (slice 11 13 greg) ;;
  second <- int_of_string (slice 13 15 greg) ;;
  let '(fracday, status) := sla_dtf2d hour minute (inject_Z second) in
  let '(mjd, status) := sla_cldj year month day in
  Ok (mjd + fracday)%Q.

(** [mjd_to_greg]: on a bad date the [raise] statement evaluates the unbound
    name [BadMJD], so what propagates is a [NameError]. *)
Definition mjd_to_greg (mjd : Q) : result string :=
  let '(year, month, day, fracday, baddate) := sla_djcl mjd in
  if negb (baddate =? 0)%Z then Raise (NameError "BadMJD")
  else
    let '(sign, (hour, minute, second, frac)) := sla_dd2tf 2 fracday in
    let s := (format_d 4 year ++ format_d 2 month ++ format_d 2 day ++ "_"
              ++ format_d 2 hour ++ format_d 2 minute ++ format_d 2 second)%string in
    Ok (replace_char " " "0" s).

(** The status flags [greg_to_mjd] receives for its input, had it looked. *)
Definition greg_status (greg : string) : result (Z * Z) :=
  year <- int_of_string (slice 0 4 greg) ;;
  month <- int_of_string (slice 4 6 greg) ;;
  day <- int_of_string (slice 6 8 greg) ;;
  hour <- int_of_string (slice 9 11 greg) ;;
  minute <- int_of_string (slice 11 13 greg) ;;
  second <- int_of_string (slice 13 15 greg) ;;
  Ok (snd (sla_dtf2d hour minute (inject_Z second)),
      snd (sla_cldj year month day)).

(** A valid 1-second-resolution Gregorian string: fifteen characters
    [YYYYMMDD_HHMMSS], all fields decimal digits, naming a day that exists
    in the Gregorian calendar and a time of day. *)
Definition all_digits (s : string) : bool :=
  forallb is_digit (list_ascii_of_string s).

Definition field (i j : nat) (s : string) : Z :=
  match digits_value 0 (slice i j s) with Some n => n | None => 0 end.

Definition valid_greg (g : string) : bool :=
  (String.length g =? 15)%nat
  && all_digits (slice 0 8 g)
  && (slice 8 9 g =? "_")%string
  && all_digits (slice 9 15 g)
  && (1 <=? field 4 6 g)%Z && (field 4 6 g <=? 12)%Z
  && (1 <=? field 6 8 g)%Z
  && (field 6 8 g <=? mtab (field 0 4 g) (field 4 6 g))%Z
  && (field 9 11 g <=? 23)%Z
  && (field 11 13 g <=? 59)%Z
  && (field 13 15 g <=? 59)%Z.

Example greg_to_mjd_doctest :
  exists mjd, greg_to_mjd "19881103_000000" = Ok mjd /\ (mjd == 47468)%Q.
Proof. eexists; split; [reflexivity | reflexivity]. Qed.

Example mjd_to_greg_doctest :
  mjd_to_greg 47468 = Ok "19881103_000000"%string.
Proof. reflexivity. Qed.

End TimeConv.


(* ================================================================== *)
(** ** Instrument systematics ([s4cmb/systematics.py]) *)

Module Systematics.

(** Time-ordered data: one row (timestream) per bolometer. *)
Definition tod := list (list Q).

(** The dictionary [combs]: SQUID id -> list of (channel, bolometer index),
    kept in insertion order. *)
Definition members := list (Z * nat).
Definition combs_t := list (string * members).

Fixpoint combs_append (sq : string) (e : Z * nat) (combs : combs_t) : combs_t :=
  match combs with
  | [] => [(sq, [e])]
  | (k, l) :: rest =>
      if String.eqb k sq then (k, l ++ [e]) :: rest
      else (k, l) :: combs_append sq e rest
  end.

(** The loop building [combs]; indexing a too short id list is an
    [IndexError]. *)
Definition build_combs (nbolo : nat) (squid_ids : list string)
    (bolo_ids : list Z) : result combs_t :=
  fold_left
    (fun acc bolo =>
       combs <- acc ;;
       match nth_error squid_ids bolo, nth_error bolo_ids bolo with
       | Some sq, Some ch => Ok (combs_append sq (ch, bolo) combs)
       | _, _ => Raise IndexError
       end)
    (seq 0 nbolo) (Ok []).

Definition row (ts : tod) (i : nat) : list Q := nth i ts [].

Fixpoint set_row (i : nat) (r : list Q) (ts : tod) {struct ts} : tod :=
  match ts, i with
  | [], _ => []
  | _ :: t, O => r :: t
  | x :: t, S k => x :: set_row k r t
  end.

(** [dst + c * src], sample by sample. *)
Definition axpy (c : Q) (src dst : list Q) : list Q :=
  map (fun ds => fst ds + c * snd ds) (combine dst src).

(** [tsout[i] += c * tsout[i2]]: the term is read from the working buffer. *)
Definition leak (c : Q) (i i2 : nat) (tsout : tod) : tod :=
  set_row i (axpy c (row tsout i2) (row tsout i)) tsout.

(** [out[i] += c * src[i2]]: the term is read from a separate buffer. *)
Definition leak_from (src : tod) (c : Q) (i i2 : nat) (out : tod) : tod :=
  set_row i (axpy c (row src i2) (row out i)) out.

Definition arcsecond2rad (pi : Q) : Q := pi / 180 / 3600.
Definition arcmin2rad (pi : Q) : Q := pi / 180 / 60.
Definition deg2rad (pi : Q) : Q := pi / 180.

(** What the caller observes after a call that mutates its arguments:
    the two buffers and the exception, if one was raised. *)
Record outcome (A : Type) : Type := Outcome {
  first_buffer : A;
  second_buffer : A;
  raised : option PyError
}.

Section Model.

(** numpy's seeded generator.  [gauss seed k] is the [k]-th standard normal
    deviate of [RandomState(seed)]; [random_sample seed n k] is the [k]-th
    uniform deviate of [[0, 1)] drawn after [n] normal ones. *)
Variable gauss : Z -> nat -> Q.
Variable random_sample : Z -> nat -> nat -> Q.

(** [RandomState(seed).normal(loc, scale, n)]. *)
Definition normal (seed : Z) (loc scale : Q) (n : nat) : list Q :=
  map (fun k => loc + scale * gauss seed k) (seq 0 n).

(** [state.uniform(low, high, n)] on a state that has drawn [drawn]
    normal deviates. *)
Definition uniform (seed : Z) (drawn : nat) (low high : Q) (n : nat) : list Q :=
  map (fun k => low + (high - low) * random_sample seed drawn k) (seq 0 n).

(** Iteration order of a dictionary: the interpreter's choice (hash order,
    or insertion order from Python 3.7 on). *)
Variable dict_items : combs_t -> combs_t.

(** The Fortran kernel [systematics_f.inject_crosstalk_inside_squid_f],
    called once per SQUID on the working buffer. *)
Variable inject_crosstalk_inside_squid_f :
  tod -> list Z -> list nat -> Z -> list Q -> Z -> tod.

(** *** Crosstalk inside a SQUID *)

Definition inside_pair (radius beta : Z) (cross_amp : list Q)
    (chi : Z * nat) (tsout : tod) (chi2 : Z * nat) : tod :=
  let '(ch, i) := chi in
  let '(ch2, i2) := chi2 in
  let separation_length := Z.abs (ch - ch2) in
  if (0 <? separation_length)%Z && (separation_length <=? radius)%Z
  then leak (nth i2 cross_amp 0 / Qpower (inject_Z separation_length) beta)
            i i2 tsout
  else tsout.

Definition inside_squid (radius beta : Z) (cross_amp : list Q)
    (mem : members) (tsout : tod) : tod :=
  fold_left
    (fun ts chi => fold_left (inside_pair radius beta cross_amp chi) mem ts)
    mem tsout.

Definition inside_python (radius beta : Z) (cross_amp : list Q)
    (items : combs_t) (tsout : tod) : tod :=
  fold_left (fun ts sq => inside_squid radius beta cross_amp (snd sq) ts)
    items tsout.

Definition inside_fortran (radius beta : Z) (cross_amp : list Q)
    (items : combs_t) (tsout : tod) : tod :=
  fold_left
    (fun ts sq =>
       inject_crosstalk_inside_squid_f ts (map fst (snd sq)) (map snd (snd sq))
         radius cross_amp beta)
    items tsout.

(** The write-back at the end of both crosstalk routines: into [new_array]
    when one is given, into [bolo_data] otherwise.  The result is the pair
    (bolo_data, new_array) as the caller sees them afterwards. *)
Definition write_back (bolo_data : tod) (new_array : option tod) (tsout : tod)
  : tod * option tod :=
  match new_array with
  | Some _ => (bolo_data, Some tsout)
  | None => (tsout, None)
  end.

Definition inject_crosstalk_inside_SQUID (bolo_data : tod)
    (squid_ids : list string) (bolo_ids : list Z) (mu sigma : Q)
    (radius beta : Z) (seed : Z) (new_array : option tod) (language : string)
  : result (tod * option tod) :=
  let mu := mu / 100 in
  let sigma := sigma / 100 in
  combs <- build_combs (List.length bolo_data) squid_ids bolo_ids ;;
  let tsout := bolo_data in
  let cross_amp := normal seed mu sigma (List.length bolo_data) in
  let tsout :=
    if (language =? "python")%string
    then inside_python radius beta cross_amp (dict_items combs) tsout
    else if (language =? "fortran")%string
    then inside_fortran radius beta cross_amp (dict_items combs) tsout
    else tsout in
  Ok (write_back bolo_data new_array tsout).

(** *** Crosstalk between SQUIDs *)

Definition squid_to_squid_target (squid_attenuation : Q) (cross_amp : list Q)
    (items : combs_t) (sq1 : string) (tsout : tod) (chi : Z * nat) : tod :=
  let '(ch, i) := chi in
  fold_left
    (fun ts sq2 =>
       if (fst sq2 =? sq1)%string then ts
       else
         fold_left
           (fun ts chi2 =>
              let '(ch2, i2) := chi2 in
              leak (nth i2 cross_amp 0 / squid_attenuation) i i2 ts)
           (snd sq2) ts)
    items tsout.

Definition squid_to_squid_loops (squid_attenuation : Q) (cross_amp : list Q)
    (items : combs_t) (tsout : tod) : tod :=
  fold_left
    (fun ts sq1 =>
       fold_left
         (squid_to_squid_target squid_attenuation cross_amp items (fst sq1))
         (snd sq1) ts)
    items tsout.

Definition inject_crosstalk_SQUID_to_SQUID (bolo_data : tod)
    (squid_ids : list string) (bolo_ids : list Z) (mu sigma : Q)
    (squid_attenuation : Q) (seed : Z) (new_array : option tod)
  : result (tod * option tod) :=
  let mu := mu / 100 in
  let sigma := sigma / 100 in
  combs <- build_combs (List.length bolo_data) squid_ids bolo_ids ;;
  let tsout := bolo_data in
  let cross_amp := normal seed mu sigma (List.length bolo_data) in
  let tsout :=
    squid_to_squid_loops squid_attenuation cross_amp (dict_items combs) tsout in
  Ok (write_back bolo_data new_array tsout).

(** *** The snapshot reading of the crosstalk loops

    The same loops with every term read from the timestreams as they were
    at the start of the call ([snapshot]), for comparison with the code. *)

Definition inside_pair_snapshot (snapshot : tod) (radius beta : Z)
    (cross_amp : list Q) (chi : Z * nat) (out : tod) (chi2 : Z * nat) : tod :=
  let '(ch, i) := chi in
  let '(ch2, i2) := chi2 in
  let separation_length := Z.abs (ch - ch2) in
  if (0 <? separation_length)%Z && (separation_length <=? radius)%Z
  then leak_from snapshot
         (nth i2 cross_amp 0 / Qpower (inject_Z separation_length) beta)
         i i2 out
  else out.

Definition inside_python_snapshot (radius beta : Z) (cross_amp : list Q)
    (items : combs_t) (snapshot : tod) : tod :=
  fold_left
    (fun ts sq =>
       fold_left
         (fun ts chi =>
            fold_left (inside_pair_snapshot snapshot radius beta cross_amp chi)
              (snd sq) ts)
         (snd sq) ts)
    items snapshot.

Definition squid_to_squid_snapshot (squid_attenuation : Q)
    (cross_amp : list Q) (items : combs_t) (snapshot : tod) : tod :=
  fold_left
    (fun ts sq1 =>
       fold_left
         (fun ts chi =>
            fold_left
              (fun ts sq2 =>
                 if (fst sq2 =? fst sq1)%string then ts
                 else
                   fold_left
                     (fun ts chi2 =>
                        leak_from snapshot
                          (nth (snd chi2) cross_amp 0 / squid_attenuation)
                          (snd chi) (snd chi2) ts)
                     (snd sq2) ts)
              items ts)
         (snd sq1) ts)
    items snapshot.

Definition inject_crosstalk_inside_SQUID_snapshot (bolo_data : tod)
    (squid_ids : list string) (bolo_ids : list Z) (mu sigma : Q)
    (radius beta : Z) (seed : Z) (new_array : option tod)
  : result (tod * option tod) :=
  combs <- build_combs (List.length bolo_data) squid_ids bolo_ids ;;
  let cross_amp := normal seed (mu / 100) (sigma / 100) (List.length bolo_data) in
  Ok (write_back bolo_data new_array
        (inside_python_snapshot radius beta cross_amp (dict_items combs)
           bolo_data)).

Definition inject_crosstalk_SQUID_to_SQUID_snapshot (bolo_data : tod)
    (squid_ids : list string) (bolo_ids : list Z) (mu sigma : Q)
    (squid_attenuation : Q) (seed : Z) (new_array : option tod)
  : result (tod * option tod) :=
  combs <- build_combs (List.length bolo_data) squid_ids bolo_ids ;;
  let cross_amp := normal seed (mu / 100) (sigma / 100) (List.length bolo_data) in
  Ok (write_back bolo_data new_array
        (squid_to_squid_snapshot squid_attenuation cross_amp (dict_items combs)
           bolo_data)).

(** The buffer a crosstalk call wrote its result into. *)
Definition written (r : result (tod * option tod)) : tod :=
  match r with
  | Ok (_, Some new_array) => new_array
  | Ok (bolo_data, None) => bolo_data
  | Raise _ => []
  end.

(** *** Differential pointing

    The exact-arithmetic reading: the sums below are sums of rationals.
    What depends on the rounding of the doubles is stated on [Binary64]. *)

Variable pi : Q.
Variable cos : Q -> Q.
Variable sin : Q -> Q.

(** [a[::2] += b], without the shape check. *)
Fixpoint add_even (a b : list Q) : list Q :=
  match a, b with
  | x :: y :: a', r :: b' => (x + r) :: y :: add_even a' b'
  | [x], r :: _ => [x + r]
  | _, _ => a
  end.

(** Number of elements of the slice [a[start::2]]. *)
Definition slice_len (start len : nat) : nat := (len - start + 1) / 2.

(** [a[start::2] += b] for [start] 0 or 1, with numpy's shape rule for an
    in-place operation: [b] has the length of the slice, or length 1 (and
    is then repeated); otherwise a [ValueError], raised before anything is
    written. *)
Definition iadd_stride2 (start : nat) (a b : list Q) : result (list Q) :=
  let n := slice_len start (List.length a) in
  let apply (b' : list Q) :=
    match start with
    | O => add_even a b'
    | S _ => firstn 1 a ++ add_even (skipn 1 a) b'
    end in
  if (List.length b =? n)%nat then Ok (apply b)
  else if (List.length b =? 1)%nat then Ok (apply (repeat (nth 0 b 0) n))
  else Raise (ValueError "operands could not be broadcast together").

Definition modify_beam_offsets (bolometer_xpos bolometer_ypos : list Q)
    (mu_diffpointing sigma_diffpointing : Q) (seed : Z) : outcome (list Q) :=
  if negb (List.length bolometer_xpos =? List.length bolometer_ypos)%nat
  then Outcome bolometer_xpos bolometer_ypos
         (Some (AssertionError
                  "x and y bolometer coordinates should have the same length"))
  else
    let npair := (List.length bolometer_xpos / 2)%nat in
    let rho := normal seed (mu_diffpointing * arcsecond2rad pi)
                 (sigma_diffpointing * arcsecond2rad pi) npair in
    let theta := map (fun u => u * deg2rad pi) (uniform seed npair 0 360 npair) in
    let rhox := map (fun rt => fst rt / 2 * cos (snd rt)) (combine rho theta) in
    let rhoy := map (fun rt => fst rt / 2 * sin (snd rt)) (combine rho theta) in
    match iadd_stride2 0 bolometer_xpos rhox with
    | Raise e => Outcome bolometer_xpos bolometer_ypos (Some e)
    | Ok x1 =>
        match iadd_stride2 1 x1 (map Qopp rhox) with
        | Raise e => Outcome x1 bolometer_ypos (Some e)
        | Ok x2 =>
            match iadd_stride2 0 bolometer_ypos rhoy with
            | Raise e => Outcome x2 bolometer_ypos (Some e)
            | Ok y1 =>
                match iadd_stride2 1 y1 (map Qopp rhoy) with
                | Raise e => Outcome x2 y1 (Some e)
                | Ok y2 => Outcome x2 y2 None
                end
            end
        end
    end.

(** [modify_pointing_parameters]. *)
Definition modify_pointing_parameters (values errors : list Q) : list Q :=
  map (fun pe => fst pe + snd pe) (combine values errors).

End Model.

End Systematics.

(* ================================================================== *)
(** ** Differential pointing in double precision

    [modify_beam_offsets] once more, on binary64 numbers (the kernel's
    primitive floats, IEEE 754 round-to-nearest-even) in place of the exact
    rationals of [Systematics]: for the statements that depend on how the
    sums round.  The generator and the trigonometry stay external. *)

Module Binary64.

Import Systematics PrimFloat.

#[local] Open Scope float_scope.

Section Model.

(** numpy's seeded generator and trigonometry, on doubles. *)
Variable gauss : Z -> nat -> float.
Variable random_sample : Z -> nat -> nat -> float.
Variable pi : float.
Variable cos : float -> float.
Variable sin : float -> float.

Definition arcsecond2rad : float := pi / 180 / 3600.
Definition deg2rad : float := pi / 180.

(** [RandomState(seed).normal(loc, scale, n)]. *)
Definition normal (seed : Z) (loc scale : float) (n : nat) : list float :=
  map (fun k => loc + scale * gauss seed k) (seq 0 n).

(** [state.uniform(low, high, n)] on a state that has drawn [drawn]
    normal deviates. *)
Definition uniform (seed : Z) (drawn : nat) (low high : float) (n : nat)
  : list float :=
  map (fun k => low + (high - low) * random_sample seed drawn k) (seq 0 n).

(** [a[::2] += b], without the shape check. *)
Fixpoint add_even (a b : list float) : list float :=
  match a, b with
  | x :: y :: a', r :: b' => (x + r) :: y :: add_even a' b'
  | [x], r :: _ => [x + r]
  | _, _ => a
  end.

(** [a[start::2] += b] for [start] 0 or 1, with numpy's shape rule for an
    in-place operation: [b] has the length of the slice, or length 1 (and
    is then repeated); otherwise a [ValueError], raised before anything is
    written. *)
Definition iadd_stride2 (start : nat) (a b : list float)
  : result (list float) :=
  let n := slice_len start (List.length a) in
  let apply (b' : list float) :=
    match start with
    | O => add_even a b'
    | S _ => firstn 1 a ++ add_even (skipn 1 a) b'
    end in
  if (List.length b =? n)%nat then Ok (apply b)
  else if (List.length b =? 1)%nat then Ok (apply (repeat (nth 0 b 0) n))
  else Raise (ValueError "operands could not be broadcast together").

Definition modify_beam_offsets (bolometer_xpos bolometer_ypos : list float)
    (mu_diffpointing sigma_diffpointing : float) (seed : Z)
  : outcome (list float) :=
  if negb (List.length bolometer_xpos =? List.length bolometer_ypos)%nat
  then Outcome bolometer_xpos bolometer_ypos
         (Some (AssertionError
                  "x and y bolometer coordinates should have the same length"))
  else
    let npair := (List.length bolometer_xpos / 2)%nat in
    let rho := normal seed (mu_diffpointing * arcsecond2rad)
                 (sigma_diffpointing * arcsecond2rad) npair in
    let theta := map (fun u => u * deg2rad) (uniform seed npair 0 360 npair) in
    let rhox := map (fun rt => fst rt / 2 * cos (snd rt)) (combine rho theta) in
    let rhoy := map (fun rt => fst rt / 2 * sin (snd rt)) (combine rho theta) in
    match iadd_stride2 0 bolometer_xpos rhox with
    | Raise e => Outcome bolometer_xpos bolometer_ypos (Some e)
    | Ok x1 =>
        match iadd_stride2 1 x1 (map opp rhox) with
        | Raise e => Outcome x1 bolometer_ypos (Some e)
        | Ok x2 =>
            match iadd_stride2 0 bolometer_ypos rhoy with
            | Raise e => Outcome x2 bolometer_ypos (Some e)
            | Ok y1 =>
                match iadd_stride2 1 y1 (map opp rhoy) with
                | Raise e => Outcome x2 y1 (Some e)
                | Ok y2 => Outcome x2 y2 None
                end
            end
        end
    end.

(** The displacement [(rhox, rhoy)] of pair [k] among [npair]:
    [rho / 2. * cos(theta)] and [rho / 2. * sin(theta)]. *)
Definition rho_of (mu sigma : float) (seed : Z) (npair k : nat) : float :=
  nth k (normal seed (mu * arcsecond2rad) (sigma * arcsecond2rad) npair) 0.

Definition theta_of (seed : Z) (npair k : nat) : float :=
  nth k (map (fun u => u * deg2rad) (uniform seed npair 0 360 npair)) 0.

Definition rhox_of (mu sigma : float) (seed : Z) (npair k : nat) : float :=
  rho_of mu sigma seed npair k / 2 * cos (theta_of seed npair k).

Definition rhoy_of (mu sigma : float) (seed : Z) (npair k : nat) : float :=
  rho_of mu sigma seed npair k / 2 * sin (theta_of seed npair k).

End Model.

End Binary64.

(* ================================================================== *)
(** ** Scanning strategy ([s4cmb/scanning_strategy.py]) *)

Module Scan.

Import TimeConv.

(** [sidDayToSec = 86164.0905]. *)
Definition sidDayToSec : Q := 861640905 # 10000.

(** [ephem.second]: one second, in days. *)
Definition ephem_second : Q := 1 # 86400.

(** [ephem.Observer]: the site and its mutable date (days, ephem's epoch). *)
Record Observer : Type := {
  long : Q;
  lat : Q;
  obs_elevation : Q;
  date : Q
}.

Definition set_date (o : Observer) (d : Q) : Observer :=
  {| long := long o; lat := lat o; obs_elevation := obs_elevation o;
     date := d |}.

(** The attributes of a [ScanningStrategy] instance. *)
Record ScanningStrategy : Type := {
  nces : nat;
  start_date : string;
  name_strategy : string;
  sampling_freq : Q;
  sky_speed : Q;
  language : string;
  ut1utc_fn : string;
  telescope_location : Observer;
  allowed_scanning_strategies : list string;
  elevation : list Q;
  az_min : list Q;
  az_max : list Q;
  begin_LST : list string;
  end_LST : list string;
  ra_mid : Q;
  dec_mid : Q
}.

Definition set_location (s : ScanningStrategy) (o : Observer)
  : ScanningStrategy :=
  {| nces := nces s; start_date := start_date s;
     name_strategy := name_strategy s; sampling_freq := sampling_freq s;
     sky_speed := sky_speed s; language := language s;
     ut1utc_fn := ut1utc_fn s; telescope_location := o;
     allowed_scanning_strategies := allowed_scanning_strategies s;
     elevation := elevation s; az_min := az_min s; az_max := az_max s;
     begin_LST := begin_LST s; end_LST := end_LST s;
     ra_mid := ra_mid s; dec_mid := dec_mid s |}.

(** The dictionary [scan_file] as [run_one_scan] leaves it. *)
Record ScanFile : Type := {
  firstmjd : Q;
  sf_nces : nat;
  CES : nat;
  sample_rate : Q;
  sf_sky_speed : Q;
  lastmjd : Q;
  azimuth : list Q;
  sf_elevation : list Q;
  clock_utc : list Q;
  RA : list Q;
  Dec : list Q;
  nts : nat
}.

(** [a[i]] for a list and [i >= 0]. *)
Definition index {A : Type} (a : list A) (i : nat) : result A :=
  match nth_error a i with
  | Some x => Ok x
  | None => Raise IndexError
  end.

(** [a[i] = v] on an array ([i] in range wherever it is used). *)
Fixpoint set_nth (i : nat) (v : Q) (a : list Q) {struct a} : list Q :=
  match a, i with
  | [], _ => []
  | _ :: t, O => v :: t
  | x :: t, S k => x :: set_nth k v t
  end.

(** The state of the sample loop of [run_one_scan]. *)
Record LoopState : Type := {
  running_az : Q;
  pb_az_dir : Q;
  pb_az_array : list Q;
  pb_mjd_array : list Q;
  pb_ra_array : list Q;
  pb_dec_array : list Q;
  location : Observer
}.

(** The direction update shared by the three backends. *)
Definition next_dir (running_az upper_az lower_az pb_az_dir : Q) : Q :=
  if negb (Qle_bool running_az upper_az) then -1
  else if negb (Qle_bool lower_az running_az) then 1
  else pb_az_dir.

(** The body of the compiled loop ([c_code]). *)
Definition c_step (upper_az lower_az az_speed second sampling_freq : Q)
    (s : LoopState) (t : nat) : LoopState :=
  let az := set_nth t (running_az s) (pb_az_array s) in
  let dir := next_dir (running_az s) upper_az lower_az (pb_az_dir s) in
  let running := running_az s + az_speed * dir / sampling_freq in
  let mjd := set_nth t (nth (t - 1) (pb_mjd_array s) 0 + second / sampling_freq)
               (pb_mjd_array s) in
  {| running_az := running; pb_az_dir := dir; pb_az_array := az;
     pb_mjd_array := mjd; pb_ra_array := pb_ra_array s;
     pb_dec_array := pb_dec_array s; location := location s |}.

(** Modelled from the spec: the Fortran kernel
    [scanning_strategy_f.run_one_scan_f] is not among the sources; the spec
    asks the three backends for equivalent azimuth and timestamp arrays, so
    the kernel is taken to run the loop of the compiled backend. *)
Definition run_one_scan_f (upper_az lower_az az_speed second sampling_freq : Q)
    (num_pts : nat) (s : LoopState) : LoopState :=
  fold_left (c_step upper_az lower_az az_speed second sampling_freq)
    (seq 1 (num_pts - 1)) s.

(** ['scan{}'.format(CES_position)]. *)
Definition scan_attribute (CES_position : nat) : string :=
  ("scan" ++ str_of_int (Z.of_nat CES_position))%string.

Section Model.

Variable pi : Q.
Variable cos : Q -> Q.

(** ephem: parsing of angles, hours and dates, the local sidereal time of
    an observer, the text of [str(date.datetime())], and the topocentric
    transform [radec_of(az, alt)]. *)
Variable ephem_degrees : string -> Q.
Variable ephem_hours : string -> Q.
Variable ephem_Date : string -> Q.
Variable ephem_now : Q.
Variable sidereal_time : Observer -> Q.
Variable datetime_str : Q -> string.
Variable radec_of : Observer -> Q -> Q -> Q * Q.

Definition radToDeg : Q := 180 / pi.

Definition define_telescope_location (telescope_longitude
    telescope_latitude : string) (telescope_elevation : Q) : Observer :=
  {| long := ephem_degrees telescope_longitude;
     lat := ephem_degrees telescope_latitude;
     obs_elevation := telescope_elevation;
     date := ephem_now |}.

Definition unknown_strategy : string :=
  "Only name_strategy = deep_patch is currently available. For a custom usage (advanced users), modify this routine.".

(** The instance [define_boundary_of_scan] completes for ["deep_patch"]:
    the attributes set by [__init__] and the boundary tables. *)
Definition deep_patch (nces : nat) (start_date name_strategy : string)
    (sampling_freq sky_speed : Q) (language ut1utc_fn : string)
    (location : Observer) : ScanningStrategy :=
  {| nces := nces; start_date := start_date;
     name_strategy := name_strategy; sampling_freq := sampling_freq;
     sky_speed := sky_speed; language := language;
     ut1utc_fn := ut1utc_fn; telescope_location := location;
     allowed_scanning_strategies := ["deep_patch"%string];
     elevation := [30; 455226 # 10000; 477448 # 10000; 49967 # 1000;
                   521892 # 10000; 544114 # 10000; 566336 # 10000;
                   588558 # 10000; 61078 # 1000; 633002 # 10000;
                   655226 # 10000; 352126 # 10000];
     az_min := [1342263 # 10000; 1623532 # 10000; 1623532 # 10000;
                1623532 # 10000; 1623532 # 10000; 1623532 # 10000;
                1623532 # 10000; 1623532 # 10000; 1623532 # 10000;
                1623532 # 10000; 1623532 # 10000; 2047929 # 10000];
     az_max := [1542263 # 10000; 1973532 # 10000; 1973532 # 10000;
                1973532 # 10000; 1973532 # 10000; 1973532 # 10000;
                1973532 # 10000; 1973532 # 10000; 1973532 # 10000;
                1973532 # 10000; 1973532 # 10000; 2247929 # 10000];
     begin_LST := ["17:07:54.84"; "22:00:21.76"; "22:00:21.76";
                   "22:00:21.76"; "22:00:21.76"; "22:00:21.76";
                   "22:00:21.76"; "22:00:21.76"; "22:00:21.76";
                   "22:00:21.76"; "22:00:21.76"; "2:01:01.19"]%string;
     end_LST := ["22:00:21.76"; "02:01:01.19"; "02:01:01.19";
                 "02:01:01.19"; "02:01:01.19"; "02:01:01.19";
                 "02:01:01.19"; "02:01:01.19"; "02:01:01.19";
                 "02:01:01.19"; "02:01:01.19"; "6:53:29.11"]%string;
     ra_mid := 0; dec_mid := - (575 # 10) |}.

(** [ScanningStrategy.__init__], ending in [define_boundary_of_scan]. *)
Definition init (nces : nat) (start_date telescope_longitude
    telescope_latitude : string) (telescope_elevation : Q)
    (name_strategy : string) (sampling_freq sky_speed : Q)
    (ut1utc_fn language : string) : result ScanningStrategy :=
  let location :=
    define_telescope_location telescope_longitude telescope_latitude
      telescope_elevation in
  if (name_strategy =? "deep_patch")%string then
    Ok (deep_patch nces start_date name_strategy sampling_freq sky_speed
          language ut1utc_fn location)
  else Raise (ValueError unknown_strategy).

(** [date_to_greg], [date_to_mjd]. *)
Definition date_to_greg (d : Q) : string :=
  replace_char " " "_"
    (replace_char ":" ""
       (replace_char "-" "" (before_char "." (datetime_str d)))).

Definition date_to_mjd (d : Q) : result Q := greg_to_mjd (date_to_greg d).

(** The body of the python loop. *)
Definition python_step (el upper_az lower_az az_speed sampling_freq : Q)
    (s : LoopState) (t : nat) : LoopState :=
  let az := set_nth t (running_az s) (pb_az_array s) in
  let radec := radec_of (location s) (nth t az 0 * pi / 180) (el * pi / 180) in
  let ra := set_nth t (fst radec) (pb_ra_array s) in
  let dec := set_nth t (snd radec) (pb_dec_array s) in
  let dir := next_dir (running_az s) upper_az lower_az (pb_az_dir s) in
  let running := running_az s + az_speed * dir / sampling_freq in
  let mjd :=
    set_nth t (nth (t - 1) (pb_mjd_array s) 0 + ephem_second / sampling_freq)
      (pb_mjd_array s) in
  let loc :=
    set_date (location s) (date (location s) + ephem_second / sampling_freq) in
  {| running_az := running; pb_az_dir := dir; pb_az_array := az;
     pb_mjd_array := mjd; pb_ra_array := ra; pb_dec_array := dec;
     location := loc |}.

(** The date cursor after the reset to [begin_LST], and the sample count,
    for slot [scan_number]: the first part of [run_one_scan]. *)
Definition lst_bounds (self : ScanningStrategy) (scan_number : nat)
  : result (Q * Q) :=
  b <- index (begin_LST self) scan_number ;;
  e <- index (end_LST self) scan_number ;;
  let begin_LST := ephem_hours b / (2 * pi) in
  let end_LST := ephem_hours e / (2 * pi) in
  let begin_LST :=
    if negb (Qle_bool begin_LST end_LST) then begin_LST - 1 else begin_LST in
  Ok (begin_LST, end_LST).

Definition reset_date (self : ScanningStrategy) (begin_LST : Q) : Q :=
  let LST_now := sidereal_time (telescope_location self) / (2 * pi) in
  date (telescope_location self)
  - ((LST_now - begin_LST) * sidDayToSec) * ephem_second.

Definition num_pts_of (self : ScanningStrategy) (begin_LST end_LST : Q) : Z :=
  int_of_float ((end_LST - begin_LST) * sidDayToSec * sampling_freq self).

(** [run_one_scan]: the instance with its advanced date cursor, and the
    filled [scan_file] (the method itself returns [True]). *)
Definition run_one_scan (self : ScanningStrategy) (scan_number : nat)
  : result (ScanningStrategy * ScanFile) :=
  el <- index (elevation self) scan_number ;;
  let sampling_freq := sampling_freq self in
  azmin <- index (az_min self) scan_number ;;
  azmax <- index (az_max self) scan_number ;;
  let az_mean := (azmin + azmax) * (1 # 2) in
  let az_throw := (azmax - azmin) / cos (el / radToDeg) in
  lst <- lst_bounds self scan_number ;;
  let '(begin_LST, end_LST) := lst in
  let loc := set_date (telescope_location self) (reset_date self begin_LST) in
  let num_pts := num_pts_of self begin_LST end_LST in
  let upper_az := az_mean + az_throw / 2 in
  let lower_az := az_mean - az_throw / 2 in
  let az_speed := sky_speed self / cos (el / radToDeg) in
  if (num_pts <? 0)%Z
  then Raise (ValueError "negative dimensions are not allowed")
  else
    let n := Z.to_nat num_pts in
    let az_zeros := repeat 0 n in
    let mjd_zeros := repeat 0 n in
    let ra_zeros := repeat 0 n in
    let dec_zeros := repeat 0 n in
    let pb_el_array := repeat el n in
    let time_padding := 10 / 86400 in
    if (n =? 0)%nat then Raise IndexError
    else
      let az_start := set_nth 0 az_mean az_zeros in
      mjd0 <- date_to_mjd (date loc) ;;
      let mjd_start := set_nth 0 mjd0 mjd_zeros in
      let firstmjd := nth 0 mjd_start 0 - time_padding in
      let az_next := az_mean + az_speed * 1 / sampling_freq in
      let loc := set_date loc (date loc + ephem_second / sampling_freq) in
      let s0 :=
        {| running_az := az_next; pb_az_dir := 1;
           pb_az_array := az_start; pb_mjd_array := mjd_start;
           pb_ra_array := ra_zeros; pb_dec_array := dec_zeros;
           location := loc |} in
      let s1 :=
        if (language self =? "python")%string then
          fold_left (python_step el upper_az lower_az az_speed sampling_freq)
            (seq 1 (n - 1)) s0
        else if (language self =? "C")%string then
          fold_left (c_step upper_az lower_az az_speed (1 / 24 / 3600)
                       sampling_freq)
            (seq 1 (n - 1)) s0
        else if (language self =? "fortran")%string then
          run_one_scan_f upper_az lower_az az_speed (1 / 24 / 3600)
            sampling_freq n s0
        else s0 in
      let loc :=
        set_date (location s1)
          (date (location s1)
           + inject_Z num_pts * ephem_second / sampling_freq) in
      let scan_file :=
        {| firstmjd := firstmjd;
           sf_nces := nces self;
           CES := scan_number;
           sample_rate := sampling_freq;
           sf_sky_speed := sky_speed self;
           lastmjd := last (pb_mjd_array s1) 0 + time_padding;
           azimuth := map (fun a => a * pi / 180) (pb_az_array s1);
           sf_elevation := map (fun a => a * pi / 180) pb_el_array;
           clock_utc := pb_mjd_array s1;
           RA := pb_ra_array s1;
           Dec := pb_dec_array s1;
           nts := List.length (pb_mjd_array s1) |} in
      let loc := set_date loc (date loc + 24 * ephem_second * 3600) in
      Ok (set_location self loc, scan_file).

(** [run]: the date is set to [start_date], then the CESes are synthesized
    in turn, each on the cursor the previous one left.  Every CES is stored
    on the instance: [setattr] creates the attribute [scan<k>] and
    [run_one_scan] fills it in place.  Beside the instance, the result lists
    the attributes the call has set, in the order it set them. *)
Definition run (self : ScanningStrategy)
  : result (ScanningStrategy * list (string * ScanFile)) :=
  let self0 :=
    set_location self
      (set_date (telescope_location self) (ephem_Date (start_date self))) in
  fold_left
    (fun acc CES_position =>
       st <- acc ;;
       r <- run_one_scan (fst st) CES_position ;;
       Ok (fst r, snd st ++ [(scan_attribute CES_position, snd r)]))
    (seq 0 (nces self)) (Ok (self0, [])).

End Model.

End Scan.

(* ================================================================== *)
(** ** Focal-plane convolution ([convolve_focalplane]) *)

Module FocalPlane.

(** [a[pix] += v] ([pix] is a pixel of the map wherever it is used). *)
Fixpoint add_at (pix : nat) (v : Q) (a : list Q) {struct a} : list Q :=
  match a, pix with
  | [], _ => []
  | x :: t, O => (x + v) :: t
  | x :: t, S k => x :: add_at k v t
  end.


(** The offsets of the focal-plane model, in row-major order of the
    [fp_diam_bins] x [fp_diam_bins] grid: the cells with
    [x^2 + y^2 < fp_rad_bins^2]. *)
Definition footprint (fp_rad_bins : Z) : list (Z * Z) :=
  let fp_diam_bins := (fp_rad_bins * 2 + 1)%Z in
  let axis := map (fun k => (Z.of_nat k - fp_rad_bins)%Z)
                (seq 0 (Z.to_nat fp_diam_bins)) in
  filter (fun xy => (fst xy * fst xy + snd xy * snd xy <? fp_rad_bins * fp_rad_bins)%Z)
    (list_prod axis axis).

Section Model.

Variable pi : Q.
Variable sin : Q -> Q.

(** healpy: [npix2nside] (a [ValueError] on a length that is no map size),
    [nside2resol(nside, arcmin=True)], [pix2ang] and [ang2pix]. *)
Variable npix2nside : nat -> result nat.
Variable nside2resol_arcmin : nat -> Q.
Variable pix2ang : nat -> nat -> Q * Q.
Variable ang2pix : nat -> Q -> Q -> nat.

(** The Fortran kernel [scanning_strategy_f.convolve_focalplane_f]. *)
Variable convolve_focalplane_f :
  list Q -> list Q -> list nat -> Q -> Q -> nat -> list Q.

(** The angular offsets [(dRA, dDec)] of the footprint pixels. *)
Definition offsets (fp_radius_amin : Q) (fp_rad_bins : Z) : list Q * list Q :=
  let fp := footprint fp_rad_bins in
  let scale := inject_Z fp_rad_bins * 60 * (180 / pi) in
  (map (fun xy => inject_Z (fst xy) * fp_radius_amin / scale) fp,
   map (fun xy => inject_Z (snd xy) * fp_radius_amin / scale) fp).

(** The candidate pixels of source pixel [n]:
    [hp.ang2pix(nside, theta_bore + dDec, phi_bore + dRA * sin(theta_bore))]. *)
Definition candidate_pixels (nside : nat) (dRA dDec : list Q) (n : nat)
  : list nat :=
  let '(theta_bore, phi_bore) := pix2ang nside n in
  let phi := map (fun d => phi_bore + d * sin theta_bore) dRA in
  let theta := map (fun d => theta_bore + d) dDec in
  map (fun tp => ang2pix nside (fst tp) (snd tp)) (combine theta phi).

(** The compiled accumulation loop ([c_code]): one addition per offset
    pixel, repeated pixels included. *)
Definition accumulate (bore_nhits : list Q) (n : nat) (bolo_per_pix boost : Q)
    (pixels : list nat) (focalplane_nhits : list Q) : list Q :=
  fold_left
    (fun acc pix => add_at pix (nth n bore_nhits 0 * bolo_per_pix * boost) acc)
    pixels focalplane_nhits.

Definition convolve_focalplane (bore_nhits : list Q) (nbolos : Z)
    (fp_radius_amin boost : Q) (language : string) : result (list Q) :=
  let focalplane_nhits := repeat 0 (List.length bore_nhits) in
  nside <- npix2nside (List.length focalplane_nhits) ;;
  let resol_amin := nside2resol_arcmin nside in
  let fp_rad_bins := int_of_float (fp_radius_amin * 2 / resol_amin) in
  if (fp_rad_bins <? 0)%Z
  then Raise (ValueError "invalid dims")
  else
    let fp_map_sum := List.length (footprint fp_rad_bins) in
    if (fp_map_sum =? 0)%nat then Raise ZeroDivisionError
    else
      let bolo_per_pix := inject_Z nbolos / inject_Z (Z.of_nat fp_map_sum) in
      let '(dRA, dDec) := offsets fp_radius_amin fp_rad_bins in
      let pixels_global :=
        filter (fun n => negb (Qeq_bool (nth n bore_nhits 0) 0))
          (seq 0 (List.length bore_nhits)) in
      Ok (fold_left
            (fun focalplane_nhits n =>
               let pixels := candidate_pixels nside dRA dDec n in
               let npix_loc := List.length pixels in
               if ((language =? "python") || (language =? "C"))%string
               then accumulate bore_nhits n bolo_per_pix boost pixels
                      focalplane_nhits
               else if (language =? "fortran")%string
               then convolve_focalplane_f bore_nhits focalplane_nhits pixels
                      bolo_per_pix boost npix_loc
               else focalplane_nhits)
            pixels_global focalplane_nhits).

End Model.

End FocalPlane.

(* ================================================================== *)
(** ** Stand-ins for the external libraries

    Concrete functions to run the model on: a rational [pi], a constant
    cosine, table-driven ephem parsing, and arithmetic stand-ins for
    numpy's random streams. *)

Module Sample.

Import Scan.

Definition pi : Q := 355 # 113.
Definition cos (x : Q) : Q := 433 # 500.

Definition gauss (seed : Z) (k : nat) : Q :=
  inject_Z ((seed + Z.of_nat k) mod 7 - 3) / 2.

Definition random_sample (seed : Z) (drawn k : nat) : Q :=
  inject_Z ((seed + Z.of_nat (drawn + k)) mod 10) / 10.

Definition kernel_f (tsout : list (list Q)) (local_indices : list Z)
    (global_indices : list nat) (radius : Z) (cross_amp : list Q) (beta : Z)
  : list (list Q) := tsout.

Definition ephem_degrees (s : string) : Q := 0.

(** Hours of right ascension, in radians, for the strings of the
    [deep_patch] catalogue. *)
Definition ephem_hours (s : string) : Q :=
  let seconds :=
    if (s =? "17:07:54.84")%string then 6167484 # 100
    else if (s =? "22:00:21.76")%string then 7922176 # 100
    else if (s =? "02:01:01.19")%string then 726119 # 100
    else if (s =? "2:01:01.19")%string then 726119 # 100
    else if (s =? "6:53:29.11")%string then 2480911 # 100
    else 0 in
  2 * pi * (seconds / 86400).

(** 2013/1/1 00:00:00 in ephem's day count (MJD 56293). *)
Definition ephem_Date (s : string) : Q := 82547 # 2.
Definition ephem_now : Q := 82547 # 2.

(** Sidereal time, in radians: the fraction of the sidereal day elapsed. *)
Definition sidereal_time (o : Observer) : Q :=
  let turns := date o * (864000000 # 861640905) in
  2 * pi * (turns - inject_Z (Qfloor turns)).

(** [str(date.datetime())]: the calendar text of the date, whole seconds. *)
Definition datetime_str (d : Q) : string :=
  match TimeConv.mjd_to_greg (d + (30039 # 2)) with
  | Ok g =>
      (slice 0 4 g ++ "-" ++ slice 4 6 g ++ "-" ++ slice 6 8 g ++ " "
       ++ slice 9 11 g ++ ":" ++ slice 11 13 g ++ ":" ++ slice 13 15 g)%string
  | Raise _ => EmptyString
  end.

Definition radec_of (o : Observer) (az alt : Q) : Q * Q := (az, alt - 1).

Definition npix2nside (npix : nat) : result nat :=
  if (npix =? 12)%nat then Ok 1%nat
  else Raise (ValueError "Wrong pixel number (it is not 12*nside**2)").

Definition convolve_f (bore_nhits focalplane_nhits : list Q)
    (pixels : list nat) (bolo_per_pix boost : Q) (npix_loc : nat) : list Q :=
  focalplane_nhits.

(** A [deep_patch] strategy sampled every 3000 seconds, as [init] builds
    it. *)
Definition strategy (language : string) : ScanningStrategy :=
  deep_patch 1 "2013/1/1 00:00:00" "deep_patch" (1 # 3000) (1 # 1000) language
    "s4cmb/data/ut1utc.ephem"
    (define_telescope_location ephem_degrees ephem_now "-67:46.816"
       "-22:56.396" 5200).

Definition scan (language : string) : result (ScanningStrategy * ScanFile) :=
  run_one_scan pi cos ephem_hours sidereal_time datetime_str radec_of
    (strategy language) 0.

End Sample.

(* ================================================================== *)
(** ** healpy on the coarsest sky

    The RING pixelisation at [nside = 1] (12 pixels in three rings of four),
    as healpy's [pix2ang], [ang2pix] and [nside2resol] compute it, on
    rationals: [pi] is [Sample.pi], cosine and sine are Taylor polynomials
    of degree 16 and 15, and the colatitude of the outer rings,
    [acos(2/3)], is a decimal constant. *)

Module Healpix1.

Definition pi : Q := Sample.pi.

Definition cos (x : Q) : Q :=
  let y := Qred (x * x) in
  let h (n : positive) (acc : Q) : Q := Qred (1 - y * acc * (1 # n)) in
  h 2%positive (h 12%positive (h 30%positive (h 56%positive (h 90%positive
    (h 132%positive (h 182%positive (h 240%positive 1))))))).

Definition sin (x : Q) : Q :=
  let y := Qred (x * x) in
  let h (n : positive) (acc : Q) : Q := Qred (1 - y * acc * (1 # n)) in
  Qred (x * h 6%positive (h 20%positive (h 42%positive (h 72%positive
    (h 110%positive (h 156%positive (h 210%positive 1))))))).

(** [hp.nside2resol(1, arcmin=True)]: the square root of the pixel area,
    3517.94 arcminutes. *)
Definition nside2resol_arcmin (nside : nat) : Q := 351794 # 100.

(** [acos(2/3)], the colatitude of the northern ring. *)
Definition acos_two_thirds : Q := 8410686705679303 # 10000000000000000.

(** [hp.pix2ang(1, n)]: ring [n // 4 + 1] at [z = 2/3, 0, -2/3], and in the
    ring the longitude [(iphi - fodd) * pi / 2], the middle ring shifted by
    half a pixel. *)
Definition pix2ang (nside n : nat) : Q * Q :=
  let iring := (n / 4 + 1)%nat in
  let iphi := inject_Z (Z.of_nat (n mod 4 + 1)) in
  let theta :=
    match iring with
    | 1%nat => acos_two_thirds
    | 2%nat => pi / 2
    | _ => pi - acos_two_thirds
    end in
  let fodd := if (iring =? 2)%nat then 1 else 1 # 2 in
  (theta, (iphi - fodd) * pi / 2).

(** [fmodulo(t, 4.0)]. *)
Definition fmodulo4 (t : Q) : Q := t - 4 * inject_Z (Qfloor (t * (1 # 4))).

(** [hp.ang2pix(1, theta, phi)].  Between [z = -2/3] and [z = 2/3] the
    pixel is found from the two edge-line indices [jp] and [jm]; in the
    polar caps the ring counted from the pole is always the first, since
    [sqrt(3 * (1 - |z|)) < 1] there. *)
Definition ang2pix (nside : nat) (theta phi : Q) : nat :=
  let z := cos theta in
  let za := Qabs z in
  let tt := fmodulo4 (phi / (pi / 2)) in
  if Qle_bool za (2 # 3) then
    let temp1 := (1 # 2) + tt in
    let temp2 := z * (3 # 4) in
    let jp := int_of_float (temp1 - temp2) in
    let jm := int_of_float (temp1 + temp2) in
    let ir := (1 + 1 + jp - jm)%Z in
    let kshift := (1 - Z.land ir 1)%Z in
    let t1 := (jp + jm - 1 + kshift + 1 + 4 + 4)%Z in
    let ip := (Z.shiftr t1 1 mod 4)%Z in
    Z.to_nat ((ir - 1) * 4 + ip)
  else
    let ip := int_of_float tt in
    Z.to_nat (if Qle_bool z 0 then 12 - 2 * 1 * (1 + 1) + ip else ip).

End Healpix1.

(* ================================================================== *)
(** ** Facts about rounding on [Q] *)

Module QFacts.

Lemma inject_Z_lt (a b : Z) : inject_Z a < inject_Z b -> (a < b)%Z.
Proof. unfold Qlt; simpl; lia. Qed.

Lemma Qfloor_unique (x : Q) (z : Z) :
  inject_Z z <= x -> x < inject_Z (z + 1) -> Qfloor x = z.
Proof.
  intros Hlo Hhi.
  assert (z <= Qfloor x)%Z.
  { rewrite <- (Qfloor_Z z). now apply Qfloor_resp_le. }
  assert (Qfloor x < z + 1)%Z.
  { apply inject_Z_lt. eapply Qle_lt_trans; [apply Qfloor_le | exact Hhi]. }
  lia.
Qed.

Lemma Qceiling_unique (x : Q) (z : Z) :
  inject_Z (z - 1) < x -> x <= inject_Z z -> Qceiling x = z.
Proof.
  intros Hlo Hhi.
  assert (Qceiling x <= z)%Z.
  { rewrite <- (Qceiling_Z z). now apply Qceiling_resp_le. }
  assert (z - 1 < Qceiling x)%Z.
  { apply inject_Z_lt. eapply Qlt_le_trans; [exact Hlo | apply Qle_ceiling]. }
  lia.
Qed.

Lemma Qle_bool_false (x y : Q) : Qle_bool x y = false <-> y < x.
Proof.
  split; intros H.
  - apply Qnot_le_lt. intros Hle. apply Qle_bool_iff in Hle. congruence.
  - destruct (Qle_bool x y) eqn:E; [| reflexivity].
    apply Qle_bool_iff in E. apply Qlt_not_le in H. contradiction.
Qed.

Lemma int_of_float_spec (x : Q) :
  int_of_float x = if Qle_bool 0 x then Qfloor x else Qceiling x.
Proof.
  destruct x as [a b]. unfold int_of_float, Qle_bool, Qceiling, Qfloor.
  cbn [Qnum Qden Qopp].
  replace (0 * Zpos b)%Z with 0%Z by reflexivity.
  rewrite Z.mul_1_r.
  destruct (Z.leb_spec 0 a) as [Ha | Ha].
  - apply Z.quot_div_nonneg; lia.
  - rewrite <- (Z.opp_involutive a) at 1.
    rewrite Z.quot_opp_l by lia.
    rewrite Z.quot_div_nonneg by lia. reflexivity.
Qed.

Lemma int_of_float_comp (x y : Q) : x == y -> int_of_float x = int_of_float y.
Proof.
  intros E. rewrite !int_of_float_spec.
  rewrite (Qfloor_comp _ _ E), (Qceiling_comp _ _ E).
  replace (Qle_bool 0 x) with (Qle_bool 0 y); [reflexivity |].
  apply Qleb_comp; [reflexivity | symmetry; exact E].
Qed.

Lemma inject_Z_succ (z : Z) : inject_Z (z + 1) == inject_Z z + 1.
Proof. rewrite inject_Z_plus. reflexivity. Qed.

Lemma inject_Z_pred (z : Z) : inject_Z (z - 1) == inject_Z z - 1.
Proof.
  unfold Z.sub. rewrite inject_Z_plus. reflexivity.
Qed.

Lemma anint_comp (x y : Q) : x == y -> Slalib.anint x = Slalib.anint y.
Proof.
  intros E. unfold Slalib.anint.
  assert (E1 : x + (1 # 2) == y + (1 # 2)) by (rewrite E; reflexivity).
  assert (E2 : x - (1 # 2) == y - (1 # 2)) by (rewrite E; reflexivity).
  rewrite (Qfloor_comp _ _ E1), (Qceiling_comp _ _ E2).
  replace (Qle_bool 0 x) with (Qle_bool 0 y); [reflexivity |].
  apply Qleb_comp; [reflexivity | symmetry; exact E].
Qed.

Lemma anint_Z (x : Q) (z : Z) : x == inject_Z z -> Slalib.anint x = z.
Proof.
  intros E. unfold Slalib.anint.
  destruct (Qle_bool 0 x).
  - apply Qfloor_unique; rewrite ?inject_Z_succ; rewrite E; lra.
  - apply Qceiling_unique; rewrite ?inject_Z_pred; rewrite E; lra.
Qed.

(** The day/fraction separation of sla_DJCL: whatever the sign of the date,
    the fraction is the distance to the floor and the day is the floor. *)
Lemma day_fraction_split (x : Q) :
  let f0 := x - inject_Z (int_of_float x) in
  let f := if Qle_bool 0 f0 then f0 else f0 + 1 in
  f == x - inject_Z (Qfloor x) /\ Slalib.anint (x - f) = Qfloor x.
Proof.
  intros f0 f.
  assert (Hf : f == x - inject_Z (Qfloor x)).
  { subst f f0. rewrite int_of_float_spec.
    pose proof (Qfloor_le x) as Hfl. pose proof (Qlt_floor x) as Hfu.
    rewrite inject_Z_succ in Hfu.
    destruct (Qle_bool 0 x) eqn:Hx.
    - assert (Hnn : Qle_bool 0 (x - inject_Z (Qfloor x)) = true)
        by (apply Qle_bool_iff; lra).
      rewrite Hnn. reflexivity.
    - pose proof (Qle_ceiling x) as Hcl. pose proof (Qceiling_lt x) as Hcu.
      rewrite inject_Z_pred in Hcu.
      destruct (Qle_bool 0 (x - inject_Z (Qceiling x))) eqn:Hc.
      + apply Qle_bool_iff in Hc.
        assert (Hxc : x == inject_Z (Qceiling x)) by lra.
        rewrite (Qfloor_comp _ _ Hxc), Qfloor_Z. reflexivity.
      + apply Qle_bool_false in Hc.
        assert (Hfc : Qfloor x = (Qceiling x - 1)%Z).
        { apply Qfloor_unique.
          - rewrite inject_Z_pred. lra.
          - replace (Qceiling x - 1 + 1)%Z with (Qceiling x) by lia. lra. }
        rewrite Hfc, inject_Z_pred. lra. }
  split; [exact Hf |].
  apply anint_Z. rewrite Hf. lra.
Qed.

End QFacts.

(* ================================================================== *)
(** ** Facts about decimal strings *)

Module PyFacts.

Definition digit_char (v : Z) : ascii := ascii_of_nat (48 + Z.to_nat v).

Definition digits_only (s : string) : bool :=
  forallb is_digit (list_ascii_of_string s).

Lemma digit_inv (c : ascii) :
  is_digit c = true ->
  c = digit_char (digit_value c) /\ (0 <= digit_value c <= 9)%Z.
Proof.
  unfold is_digit, digit_char, digit_value. intros H.
  apply andb_prop in H as [H1 H2].
  apply Nat.leb_le in H1, H2.
  rewrite Nat2Z.id.
  replace (48 + (nat_of_ascii c - 48))%nat with (nat_of_ascii c) by lia.
  rewrite ascii_nat_embedding. split; [reflexivity | lia].
Qed.

Lemma digit_not_space (c : ascii) : is_digit c = true -> is_space c = false.
Proof.
  unfold is_digit, is_space. intros H.
  apply andb_prop in H as [H1 H2]. apply Nat.leb_le in H1, H2.
  apply orb_false_iff; split.
  - apply andb_false_iff. right. apply Nat.leb_gt. lia.
  - apply Nat.eqb_neq. lia.
Qed.

Lemma rstrip_digits (s : string) : digits_only s = true -> rstrip s = s.
Proof.
  unfold digits_only. induction s as [| c s IH]; [reflexivity |].
  cbn [list_ascii_of_string forallb]. intros H.
  apply andb_prop in H as [Hc Hs].
  cbn [rstrip]. rewrite (IH Hs).
  destruct s; [| reflexivity].
  now rewrite (digit_not_space _ Hc).
Qed.

Lemma digits_value_some (s : string) :
  digits_only s = true -> forall acc, exists n, digits_value acc s = Some n.
Proof.
  unfold digits_only. induction s as [| c s IH]; intros H acc.
  - now exists acc.
  - cbn [list_ascii_of_string forallb] in H.
    apply andb_prop in H as [Hc Hs].
    cbn [digits_value]. rewrite Hc. apply IH, Hs.
Qed.

(** [int()] of a non-empty run of decimal digits is its positional value. *)
Lemma int_of_string_digits (c : ascii) (s : string) (n : Z) :
  digits_only (String c s) = true ->
  digits_value 0 (String c s) = Some n ->
  int_of_string (String c s) = Ok n.
Proof.
  intros Hd Hv.
  pose proof Hd as Hd'. unfold digits_only in Hd'.
  cbn [list_ascii_of_string forallb] in Hd'.
  apply andb_prop in Hd' as [Hc _].
  unfold int_of_string.
  replace (lstrip (String c s)) with (String c s)
    by (cbn [lstrip]; now rewrite (digit_not_space _ Hc)).
  rewrite (rstrip_digits _ Hd).
  destruct c as [b0 b1 b2 b3 b4 b5 b6 b7].
  destruct b0, b1, b2, b3, b4, b5, b6, b7;
    try discriminate Hc; rewrite Hv; reflexivity.
Qed.

Lemma replace_char_app (a : ascii) (b s t : string) :
  replace_char a b (s ++ t) = (replace_char a b s ++ replace_char a b t)%string.
Proof.
  induction s as [| c s IH]; [reflexivity |].
  cbn [String.append replace_char]. rewrite IH.
  destruct (Ascii.eqb c a); [| reflexivity].
  generalize (replace_char a b s) (replace_char a b t). clear.
  intros u v. induction b as [| x b IHb]; [reflexivity |].
  cbn [String.append]. now rewrite IHb.
Qed.

Definition zrange (n : Z) : list Z := map Z.of_nat (seq 0 (Z.to_nat n)).

Lemma zrange_In (n z : Z) : (0 <= z < n)%Z -> In z (zrange n).
Proof.
  intros H. unfold zrange. apply in_map_iff.
  exists (Z.to_nat z). split; [lia |]. apply in_seq. lia.
Qed.

Definition two_digits (n : Z) : string :=
  String (digit_char (n / 10)) (String (digit_char (n mod 10)) EmptyString).

Definition four_digits (n : Z) : string :=
  String (digit_char (n / 1000))
    (String (digit_char (n / 100 mod 10)) (two_digits (n mod 100))).

(** ['{:2d}'] followed by blank-to-zero replacement prints two digits. *)
Lemma format2 (n : Z) :
  (0 <= n <= 99)%Z -> replace_char " " "0" (format_d 2 n) = two_digits n.
Proof.
  intros H.
  assert (A : forallb (fun n => String.eqb (replace_char " " "0" (format_d 2 n))
                                  (two_digits n)) (zrange 100) = true)
    by (vm_compute; reflexivity).
  rewrite forallb_forall in A.
  apply String.eqb_eq, A, zrange_In. lia.
Qed.

(** ['{:4d}'] followed by blank-to-zero replacement prints four digits. *)
Lemma format4 (n : Z) :
  (0 <= n <= 9999)%Z -> replace_char " " "0" (format_d 4 n) = four_digits n.
Proof.
  intros H.
  assert (A : forallb (fun n => String.eqb (replace_char " " "0" (format_d 4 n))
                                  (four_digits n)) (zrange 10000) = true)
    by (vm_compute; reflexivity).
  rewrite forallb_forall in A.
  apply String.eqb_eq, A, zrange_In. lia.
Qed.

End PyFacts.

(* ================================================================== *)
(** ** Facts about the SLALIB calendar routines *)

Module SlalibFacts.

Import Slalib QFacts PyFacts.

Ltac zdiv := Z.to_euclidean_division_equations; lia.

Lemma frac_bounds (N : Z) : (0 <= N < 86400)%Z ->
  0 <= inject_Z N / 86400 /\ inject_Z N / 86400 < 1.
Proof.
  intros H. unfold Qle, Qlt, Qdiv, Qmult, Qinv, inject_Z. simpl. lia.
Qed.

Lemma inject_Z_le (a b : Z) : (a <= b)%Z -> inject_Z a <= inject_Z b.
Proof. unfold Qle; simpl; lia. Qed.

Lemma sla_djcl_valid (D N : Z) (x : Q) :
  (-2395520 < D < 999999999)%Z -> (0 <= N < 86400)%Z ->
  x == inject_Z D + inject_Z N / 86400 ->
  exists f, sla_djcl x
            = (let '(y, m, d) := djcl_fields (D + 2400001) in (y, m, d, f, 0%Z))
            /\ f == inject_Z N / 86400.
Proof.
  intros HD HN Hx. destruct (frac_bounds HN) as [Ht0 Ht1].
  assert (HD1 : inject_Z (-2395519) <= inject_Z D) by (apply inject_Z_le; lia).
  assert (HD2 : inject_Z D <= inject_Z 999999998) by (apply inject_Z_le; lia).
  assert (Hfl : Qfloor x = D).
  { apply Qfloor_unique; rewrite ?inject_Z_succ; rewrite Hx; lra. }
  unfold sla_djcl.
  assert (G1 : Qle_bool x (-2395520) = false).
  { apply Qle_bool_false. rewrite Hx. 
    change (inject_Z (-2395519)) with (-2395519 # 1) in HD1. lra. }
  assert (G2 : Qle_bool 1000000000 x = false).
  { apply Qle_bool_false. rewrite Hx.
    change (inject_Z 999999998) with (999999998 # 1) in HD2. lra. }
  rewrite G1, G2. cbn [orb].
  destruct (day_fraction_split x) as [Hf Hd].
  rewrite Hd, Hfl.
  eexists. split.
  - destruct (djcl_fields (D + 2400001)) as [[y m] d]. reflexivity.
  - rewrite Hf, Hfl, Hx. lra.
Qed.

Lemma sla_dd2tf_secs (h mi s : Z) (f : Q) :
  (0 <= h <= 23)%Z -> (0 <= mi <= 59)%Z -> (0 <= s <= 59)%Z ->
  f == inject_Z (60 * (60 * h + mi) + s) / 86400 ->
  sla_dd2tf 2 f = ("+"%char, (h, mi, s, 0%Z)).
Proof.
  intros Hh Hm Hs Hf.
  set (N := (60 * (60 * h + mi) + s)%Z) in *.
  assert (HN : (0 <= N < 86400)%Z) by (subst N; lia).
  destruct (frac_bounds HN) as [Ht0 Ht1].
  assert (Hpos : 0 <= f) by (rewrite Hf; exact Ht0).
  unfold sla_dd2tf.
  replace (Qle_bool 0 f) with true by (symmetry; now apply Qle_bool_iff).
  assert (Ha : anint (inject_Z (10 ^ Z.of_nat 2) * 86400 * Qabs f) = (100 * N)%Z).
  { apply anint_Z. rewrite (Qabs_pos _ Hpos), Hf, inject_Z_mult.
    change (inject_Z (10 ^ Z.of_nat 2)) with (inject_Z 100). field. }
  rewrite Ha. change (10 ^ Z.of_nat 2)%Z with 100%Z.
  subst N. repeat f_equal; zdiv.
Qed.

Lemma cldj_period y m d : (0 <= y -> 1 <= m <= 12 ->
  cldj_days (y + 400) m d = cldj_days y m d + 146097)%Z.
Proof.
  intros Hy Hm. unfold cldj_days.
  set (k := Z.quot (12 - m) 10).
  assert (Hk : (0 <= k <= 1)%Z) by (subst k; zdiv).
  replace (y + 400 - k)%Z with (y - k + 400)%Z by lia.
  set (a := (y - k)%Z). assert (Ha : (-1 <= a)%Z) by (subst a; lia).
  assert (E1 : (Z.quot (1461 * (a + 400 + 4712)) 4
               = Z.quot (1461 * (a + 4712)) 4 + 146100)%Z) by zdiv.
  assert (E2 : (Z.quot (a + 400 + 4900) 100 = Z.quot (a + 4900) 100 + 4)%Z) by zdiv.
  rewrite E1, E2.
  set (c := Z.quot (a + 4900) 100).
  assert (E3 : (Z.quot (3 * (c + 4)) 4 = Z.quot (3 * c) 4 + 3)%Z) by (subst c; zdiv).
  rewrite E3. lia.
Qed.

Lemma mtab_period y m : (0 <= y)%Z -> mtab (y + 400) m = mtab y m.
Proof.
  intros. unfold mtab.
  assert (E1 : Z.rem (y+400) 100 = Z.rem y 100) by zdiv.
  assert (E2 : Z.rem (y+400) 400 = Z.rem y 400) by zdiv.
  assert (E3 : Z.rem (y+400) 4 = Z.rem y 4) by zdiv.
  rewrite E1, E2, E3. reflexivity.
Qed.

Lemma djcl_period jd : (4480 <= jd)%Z ->
  djcl_fields (jd + 146097) = let '(y, m, d) := djcl_fields jd in ((y + 400)%Z, m, d).
Proof.
  intros. unfold djcl_fields.
  set (q := Z.quot (4 * jd - 17918) 146097).
  assert (Hq : Z.quot (4 * (jd + 146097) - 17918) 146097 = (q + 4)%Z).
  { subst q. zdiv. }
  rewrite Hq.
  set (r := Z.quot (Z.quot (6 * q) 4 + 1) 2).
  assert (Hr : Z.quot (Z.quot (6 * (q + 4)) 4 + 1) 2 = (r + 3)%Z).
  { subst r. zdiv. }
  rewrite Hr.
  set (n4 := (4 * (jd + r - 37))%Z).
  replace (4 * (jd + 146097 + (r + 3) - 37))%Z with (n4 + 400 * 1461)%Z by (subst n4; lia).
  assert (0 <= r)%Z. { subst r q. zdiv. }
  assert (Hm : Z.rem (n4 + 400 * 1461 - 237) 1461 = Z.rem (n4 - 237) 1461).
  { subst n4. zdiv. }
  rewrite Hm.
  assert (Hy : Z.quot (n4 + 400 * 1461) 1461 = (Z.quot n4 1461 + 400)%Z).
  { subst n4. zdiv. }
  rewrite Hy. f_equal. f_equal. lia.
Qed.

Lemma cldj_bounds y m d : (0 <= y <= 9999 -> 1 <= m <= 12 -> 1 <= d <= 31 ->
  -678942 <= cldj_days y m d <= 2973500)%Z.
Proof.
  intros. unfold cldj_days. zdiv.
Qed.

Lemma cldj_lower y m d : (0 <= y -> 1 <= m <= 12 -> 1 <= d ->
  -678942 <= cldj_days y m d)%Z.
Proof.
  intros. unfold cldj_days. zdiv.
Qed.

Definition cycle_check (y : Z) : bool :=
  forallb (fun m =>
    forallb (fun d =>
      negb (d <=? mtab y m)%Z ||
      let '(y', m', d') := djcl_fields (cldj_days y m d + 2400001) in
      (y' =? y)%Z && (m' =? m)%Z && (d' =? d)%Z)
      (map Z.succ (zrange 31)))
    (map Z.succ (zrange 12)).

Lemma calendar_cycle y m d :
  (0 <= y < 400)%Z -> (1 <= m <= 12)%Z -> (1 <= d <= mtab y m)%Z ->
  djcl_fields (cldj_days y m d + 2400001) = (y, m, d).
Proof.
  intros Hy Hm Hd.
  assert (A : forallb cycle_check (zrange 400) = true) by (vm_compute; reflexivity).
  rewrite forallb_forall in A.
  specialize (A y (zrange_In Hy)). unfold cycle_check in A.
  rewrite forallb_forall in A.
  assert (Im : In m (map Z.succ (zrange 12))).
  { apply in_map_iff. exists (m - 1)%Z. split; [lia | apply zrange_In; lia]. }
  specialize (A m Im). rewrite forallb_forall in A.
  assert (Hd31 : (mtab y m <= 31)%Z).
  { unfold mtab. repeat match goal with |- context [if ?b then _ else _] => destruct b end;
    destruct m as [| p | p]; try lia; repeat (destruct p as [p | p |]; try lia). }
  assert (Id : In d (map Z.succ (zrange 31))).
  { apply in_map_iff. exists (d - 1)%Z. split; [lia | apply zrange_In; lia]. }
  specialize (A d Id).
  replace (d <=? mtab y m)%Z with true in A by (symmetry; apply Z.leb_le; lia).
  cbn [negb orb] in A.
  destruct (djcl_fields (cldj_days y m d + 2400001)) as [[y' m'] d'].
  apply andb_prop in A as [A A3]. apply andb_prop in A as [A1 A2].
  apply Z.eqb_eq in A1, A2, A3. congruence.
Qed.

Lemma calendar_roundtrip y m d :
  (0 <= y)%Z -> (1 <= m <= 12)%Z -> (1 <= d <= mtab y m)%Z ->
  djcl_fields (cldj_days y m d + 2400001) = (y, m, d).
Proof.
  intros Hy. 
  assert (G : forall n : nat, forall y, (0 <= y < 400 * (Z.of_nat n + 1))%Z ->
     (1 <= m <= 12)%Z -> (1 <= d <= mtab y m)%Z ->
     djcl_fields (cldj_days y m d + 2400001) = (y, m, d)).
  { clear y Hy. induction n as [| n IH]; intros y Hy Hm Hd.
    - apply calendar_cycle; lia.
    - destruct (Z_lt_le_dec y 400) as [Hlt | Hge].
      + apply calendar_cycle; lia.
      + replace y with (y - 400 + 400)%Z in * by lia.
        set (y0 := (y - 400)%Z) in *.
        assert (Hy0 : (0 <= y0)%Z) by (subst y0; lia).
        rewrite mtab_period in Hd by exact Hy0.
        rewrite cldj_period by assumption.
        replace (cldj_days y0 m d + 146097 + 2400001)%Z
          with (cldj_days y0 m d + 2400001 + 146097)%Z by lia.
        rewrite djcl_period.
        * rewrite IH; [reflexivity | subst y0; lia | exact Hm | exact Hd].
        * pose proof (@cldj_lower y0 m d Hy0 Hm). lia. }
  apply (G (Z.to_nat y)). lia.
Qed.


End SlalibFacts.

(* ================================================================== *)
(** ** Properties of the time conversions *)

Module TimeConvSpec.

Import Slalib TimeConv QFacts PyFacts SlalibFacts.

Lemma four_digits_of (c0 c1 c2 c3 : ascii) :
  is_digit c0 = true -> is_digit c1 = true ->
  is_digit c2 = true -> is_digit c3 = true ->
  let n := (10 * (10 * (10 * digit_value c0 + digit_value c1) + digit_value c2)
            + digit_value c3)%Z in
  (0 <= n <= 9999)%Z /\
  four_digits n = String c0 (String c1 (String c2 (String c3 EmptyString))).
Proof.
  intros H0 H1 H2 H3 n.
  destruct (digit_inv _ H0) as [E0 B0]. destruct (digit_inv _ H1) as [E1 B1].
  destruct (digit_inv _ H2) as [E2 B2]. destruct (digit_inv _ H3) as [E3 B3].
  subst n.
  generalize dependent (digit_value c0). intros v0 -> B0.
  generalize dependent (digit_value c1). intros v1 -> B1.
  generalize dependent (digit_value c2). intros v2 -> B2.
  generalize dependent (digit_value c3). intros v3 -> B3.
  split; [lia |].
  unfold four_digits, two_digits. repeat f_equal; zdiv.
Qed.

Lemma two_digits_of (c0 c1 : ascii) :
  is_digit c0 = true -> is_digit c1 = true ->
  let n := (10 * digit_value c0 + digit_value c1)%Z in
  (0 <= n <= 99)%Z /\ two_digits n = String c0 (String c1 EmptyString).
Proof.
  intros H0 H1 n.
  destruct (digit_inv _ H0) as [E0 B0]. destruct (digit_inv _ H1) as [E1 B1].
  subst n.
  generalize dependent (digit_value c0). intros v0 -> B0.
  generalize dependent (digit_value c1). intros v1 -> B1.
  split; [lia |].
  unfold two_digits. repeat f_equal; zdiv.
Qed.

Lemma parse4 (c0 c1 c2 c3 : ascii) :
  is_digit c0 = true -> is_digit c1 = true ->
  is_digit c2 = true -> is_digit c3 = true ->
  int_of_string (String c0 (String c1 (String c2 (String c3 EmptyString))))
  = Ok (10 * (10 * (10 * digit_value c0 + digit_value c1) + digit_value c2)
        + digit_value c3)%Z.
Proof.
  intros H0 H1 H2 H3. apply int_of_string_digits.
  - unfold digits_only. cbn [list_ascii_of_string forallb].
    now rewrite H0, H1, H2, H3.
  - cbn [digits_value]. rewrite H0, H1, H2, H3. f_equal; lia.
Qed.

Lemma parse2 (c0 c1 : ascii) :
  is_digit c0 = true -> is_digit c1 = true ->
  int_of_string (String c0 (String c1 EmptyString))
  = Ok (10 * digit_value c0 + digit_value c1)%Z.
Proof.
  intros H0 H1. apply int_of_string_digits.
  - unfold digits_only. cbn [list_ascii_of_string forallb]. now rewrite H0, H1.
  - cbn [digits_value]. rewrite H0, H1. f_equal; lia.
Qed.

Lemma field4 (c0 c1 c2 c3 : ascii) :
  is_digit c0 = true -> is_digit c1 = true ->
  is_digit c2 = true -> is_digit c3 = true ->
  match digits_value 0 (String c0 (String c1 (String c2 (String c3 EmptyString)))) with
  | Some n => n | None => 0%Z end
  = (10 * (10 * (10 * digit_value c0 + digit_value c1) + digit_value c2)
        + digit_value c3)%Z.
Proof.
  intros H0 H1 H2 H3. cbn [digits_value]. rewrite H0, H1, H2, H3. lia.
Qed.

Lemma field2 (c0 c1 : ascii) :
  is_digit c0 = true -> is_digit c1 = true ->
  match digits_value 0 (String c0 (String c1 EmptyString)) with
  | Some n => n | None => 0%Z end
  = (10 * digit_value c0 + digit_value c1)%Z.
Proof.
  intros H0 H1. cbn [digits_value]. rewrite H0, H1. lia.
Qed.

(** C3.  Round trip: for every valid Gregorian string [g] with 1-second
    resolution, converting [g] to a Modified Julian Date with [greg_to_mjd]
    and back with [mjd_to_greg] returns [g] itself. *)
Theorem greg_roundtrip (g : string) :
  valid_greg g = true ->
  (mjd <- greg_to_mjd g ;; mjd_to_greg mjd) = Ok g.
Proof.
  intros H. unfold valid_greg in H.
  apply andb_prop in H as [H Vs]. apply andb_prop in H as [H Vmi].
  apply andb_prop in H as [H Vh]. apply andb_prop in H as [H Vd2].
  apply andb_prop in H as [H Vd1]. apply andb_prop in H as [H Vm2].
  apply andb_prop in H as [H Vm1]. apply andb_prop in H as [H Vt].
  apply andb_prop in H as [H Vsep]. apply andb_prop in H as [H Vc].
  do 15 (destruct g as [| ?c g]; [discriminate H |]).
  destruct g; [clear H | discriminate H].
  unfold all_digits, field, slice in *.
  cbn [substring Nat.sub list_ascii_of_string forallb] in *.
  repeat (let K := fresh "D" in apply andb_prop in Vc as [K Vc]).
  repeat (let K := fresh "T" in apply andb_prop in Vt as [K Vt]).
  clear Vc Vt.
  apply String.eqb_eq in Vsep. injection Vsep as ->.
  rewrite field4 in * by assumption.
  rewrite !field2 in * by assumption.
  unfold greg_to_mjd, slice. cbn [substring Nat.sub].
  rewrite parse4 by assumption. rewrite !parse2 by assumption.
  cbn [bind].
  destruct (@four_digits_of _ _ _ _ D D0 D1 D2) as [By Fy].
  destruct (@two_digits_of _ _ D3 D4) as [Bm Fm].
  destruct (@two_digits_of _ _ D5 D6) as [Bd Fd].
  destruct (@two_digits_of _ _ T T0) as [Bh Fh].
  destruct (@two_digits_of _ _ T1 T2) as [Bi Fi].
  destruct (@two_digits_of _ _ T3 T4) as [Bs Fs].
  cbv zeta in *.
  set (y := (10 * (10 * (10 * digit_value c + digit_value c0) + digit_value c1)
             + digit_value c2)%Z) in *.
  set (m := (10 * digit_value c3 + digit_value c4)%Z) in *.
  set (d := (10 * digit_value c5 + digit_value c6)%Z) in *.
  set (h := (10 * digit_value c8 + digit_value c9)%Z) in *.
  set (mi := (10 * digit_value c10 + digit_value c11)%Z) in *.
  set (s := (10 * digit_value c12 + digit_value c13)%Z) in *.
  apply Z.leb_le in Vs, Vmi, Vh, Vd2, Vd1, Vm2, Vm1.
  unfold sla_dtf2d, sla_cldj.
  replace (y <? -4699)%Z with false by (symmetry; apply Z.ltb_ge; lia).
  replace ((1 <=? m)%Z && (m <=? 12)%Z) with true
    by (symmetry; apply andb_true_intro; split; apply Z.leb_le; lia).
  cbn [bind].
  assert (Hd31 : (mtab y m <= 31)%Z).
  { unfold mtab. repeat match goal with |- context [if ?b then _ else _] => destruct b end;
    destruct m as [| p | p]; try lia; repeat (destruct p as [p | p |]; try lia). }
  pose proof (@cldj_bounds y m d) as HB.
  match goal with |- mjd_to_greg ?x = _ =>
    destruct (@sla_djcl_valid (cldj_days y m d) (60 * (60 * h + mi) + s) x)
      as [f [Ef Hf]]
  end; [lia | lia | |].
  { repeat (rewrite inject_Z_plus || rewrite inject_Z_mult). reflexivity. }
  unfold mjd_to_greg. rewrite Ef.
  rewrite calendar_roundtrip by lia.
  cbn [Z.eqb negb].
  rewrite (sla_dd2tf_secs (h:=h) (mi:=mi) (s:=s)) by (try lia; exact Hf).
  rewrite !replace_char_app.
  rewrite format4 by lia. rewrite !format2 by lia.
  rewrite Fy, Fm, Fd, Fh, Fi, Fs. reflexivity.
Qed.

Lemma greg_roundtrip_witness :
  valid_greg "20130101_153042" = true /\
  (mjd <- greg_to_mjd "20130101_153042" ;; mjd_to_greg mjd)
  = Ok "20130101_153042"%string.
Proof.
  split; [reflexivity | apply greg_roundtrip; reflexivity].
Defined.

(** C5.  [greg_to_mjd] never consults the status flags of the calendar
    routines.  For 30 February 2013 sla_CLDJ reports status 3 (bad day), yet
    the conversion returns normally, with the MJD of 2 March 2013; it returns
    normally whenever its six fields parse as integers.  [mjd_to_greg] raises
    exactly when sla_DJCL reports a bad date, and what it raises is the
    [NameError] of the unbound name in its [raise] statement. *)
Theorem greg_to_mjd_ignores_status :
  greg_status "20130230_000000" = Ok (0, 3)%Z /\
  (exists mjd, greg_to_mjd "20130230_000000" = Ok mjd /\ mjd == 56353) /\
  (mjd <- greg_to_mjd "20130230_000000" ;; mjd_to_greg mjd)
  = Ok "20130302_000000"%string /\
  (forall g st, greg_status g = Ok st -> is_ok (greg_to_mjd g) = true) /\
  (forall mjd,
      (snd (sla_djcl mjd) <> 0%Z -> mjd_to_greg mjd = Raise (NameError "BadMJD")) /\
      (snd (sla_djcl mjd) = 0%Z -> is_ok (mjd_to_greg mjd) = true)).
Proof.
  split; [reflexivity |]. split; [eexists; split; reflexivity |].
  split; [reflexivity |]. split.
  - intros g st. unfold greg_status, greg_to_mjd.
    destruct (int_of_string (slice 0 4 g)); [| discriminate].
    destruct (int_of_string (slice 4 6 g)); [| discriminate].
    destruct (int_of_string (slice 6 8 g)); [| discriminate].
    destruct (int_of_string (slice 9 11 g)); [| discriminate].
    destruct (int_of_string (slice 11 13 g)); [| discriminate].
    destruct (int_of_string (slice 13 15 g)); [| discriminate].
    cbn [bind]. intros _.
    destruct (sla_dtf2d _ _ _), (sla_cldj _ _ _). reflexivity.
  - intros mjd. unfold mjd_to_greg.
    destruct (sla_djcl mjd) as [[[[y m] d] f] j]. cbn [snd].
    destruct (Z.eqb_spec j 0) as [-> | Hj]; cbn [negb]; split; intros Hs;
      try congruence; try reflexivity.
Qed.

End TimeConvSpec.

(* ================================================================== *)
(** ** Properties of the crosstalk injection *)

Module CrosstalkSpec.

Import Systematics.

(** One elementary update [tsout[i] += c * tsout[i2]]. *)
Definition step : Type := Q * nat * nat.

Definition run_step (ts : tod) (s : step) : tod :=
  let '(c, i, i2) := s in leak c i i2 ts.

Definition run (steps : list step) (ts : tod) : tod :=
  fold_left run_step steps ts.

Definition touches (s : step) (k : nat) : Prop :=
  let '(_, i, i2) := s in k = i \/ k = i2.

(** The updates one SQUID contributes, in loop order. *)
Definition squid_steps (radius beta : Z) (cross_amp : list Q) (mem : members)
  : list step :=
  flat_map
    (fun chi =>
       flat_map
         (fun chi2 =>
            let separation_length := Z.abs (fst chi - fst chi2) in
            if (0 <? separation_length)%Z && (separation_length <=? radius)%Z
            then [(nth (snd chi2) cross_amp 0
                   / Qpower (inject_Z separation_length) beta,
                   snd chi, snd chi2)]
            else [])
         mem)
    mem.

Definition indices (sq : string * members) : list nat := map snd (snd sq).

Lemma row_set_row_other (i j : nat) (r : list Q) (ts : tod) :
  i <> j -> row (set_row i r ts) j = row ts j.
Proof.
  unfold row. revert i j. induction ts as [| x ts IH]; intros i j Hij.
  - reflexivity.
  - destruct i, j; cbn [set_row nth]; try reflexivity; try congruence.
    apply IH. congruence.
Qed.

Lemma set_row_comm (i j : nat) (r r' : list Q) (ts : tod) :
  i <> j -> set_row i r (set_row j r' ts) = set_row j r' (set_row i r ts).
Proof.
  revert i j. induction ts as [| x ts IH]; intros i j Hij.
  - reflexivity.
  - destruct i, j; cbn [set_row]; try reflexivity; try congruence.
    f_equal. apply IH. congruence.
Qed.

Lemma leak_comm (c c' : Q) (i i2 j j2 : nat) (ts : tod) :
  i <> j -> i <> j2 -> i2 <> j ->
  leak c i i2 (leak c' j j2 ts) = leak c' j j2 (leak c i i2 ts).
Proof.
  intros Hij Hij2 Hi2j. unfold leak.
  rewrite !row_set_row_other by congruence.
  apply set_row_comm. exact Hij.
Qed.

Definition separate (s s' : step) : Prop :=
  forall k, touches s k -> touches s' k -> False.

Lemma run_step_comm (s s' : step) (ts : tod) :
  separate s s' -> run_step (run_step ts s') s = run_step (run_step ts s) s'.
Proof.
  destruct s as [[c i] i2], s' as [[c' j] j2]. unfold separate, touches.
  intros H. cbn [run_step].
  apply leak_comm; intros E.
  - apply (H i); [now left | left; exact E].
  - apply (H i); [now left | right; exact E].
  - apply (H i2); [now right | left; exact E].
Qed.

Lemma run_comm_one (s : step) (steps : list step) (ts : tod) :
  (forall s', In s' steps -> separate s s') ->
  run_step (run steps ts) s = run steps (run_step ts s).
Proof.
  unfold run. revert ts. induction steps as [| s' steps IH]; intros ts H.
  - reflexivity.
  - cbn [fold_left]. rewrite IH by (intros; apply H; now right).
    f_equal. apply run_step_comm. apply H. now left.
Qed.

Lemma run_comm (sa sb : list step) (ts : tod) :
  (forall s s', In s sa -> In s' sb -> separate s s') ->
  run sa (run sb ts) = run sb (run sa ts).
Proof.
  revert ts. induction sa as [| s sa IH]; intros ts H.
  - reflexivity.
  - change (run (s :: sa) (run sb ts)) with (run sa (run_step (run sb ts) s)).
    rewrite run_comm_one by (intros; apply H; [now left | assumption]).
    rewrite IH by (intros; apply H; [now right | assumption]).
    reflexivity.
Qed.

Lemma fold_left_flat_map {A B C : Type} (f : A -> B -> A) (g : C -> list B)
    (l : list C) (a : A) :
  fold_left f (flat_map g l) a
  = fold_left (fun acc c => fold_left f (g c) acc) l a.
Proof.
  revert a. induction l as [| c l IH]; intros a; [reflexivity |].
  cbn [flat_map fold_left]. rewrite fold_left_app. apply IH.
Qed.

Lemma fold_left_ext {A B : Type} (f g : A -> B -> A) (l : list B) (a : A) :
  (forall a b, f a b = g a b) -> fold_left f l a = fold_left g l a.
Proof.
  intros H. revert a. induction l as [| b l IH]; intros a; [reflexivity |].
  cbn [fold_left]. rewrite H. apply IH.
Qed.

Lemma inside_squid_run (radius beta : Z) (cross_amp : list Q) (mem : members)
    (ts : tod) :
  inside_squid radius beta cross_amp mem ts
  = run (squid_steps radius beta cross_amp mem) ts.
Proof.
  unfold inside_squid, run, squid_steps.
  rewrite fold_left_flat_map.
  apply fold_left_ext. intros a [ch i].
  rewrite fold_left_flat_map.
  apply fold_left_ext. intros a' [ch2 i2].
  cbn [inside_pair fst snd].
  destruct ((0 <? Z.abs (ch - ch2))%Z && (Z.abs (ch - ch2) <=? radius)%Z);
    reflexivity.
Qed.

Lemma squid_steps_touch (radius beta : Z) (cross_amp : list Q) (mem : members)
    (s : step) (k : nat) :
  In s (squid_steps radius beta cross_amp mem) -> touches s k ->
  In k (map snd mem).
Proof.
  unfold squid_steps. intros Hs Hk.
  apply in_flat_map in Hs as [chi [Hchi Hs]].
  apply in_flat_map in Hs as [chi2 [Hchi2 Hs]].
  destruct ((0 <? Z.abs (fst chi - fst chi2))%Z
            && (Z.abs (fst chi - fst chi2) <=? radius)%Z); [| contradiction].
  destruct Hs as [<- | []]. cbn [touches] in Hk.
  destruct Hk as [-> | ->]; now apply in_map.
Qed.

(** Two SQUIDs with no bolometer in common can be processed in either
    order. *)
Lemma inside_squid_comm (radius beta : Z) (cross_amp : list Q)
    (ma mb : members) (ts : tod) :
  (forall k, In k (map snd ma) -> In k (map snd mb) -> False) ->
  inside_squid radius beta cross_amp ma
    (inside_squid radius beta cross_amp mb ts)
  = inside_squid radius beta cross_amp mb
      (inside_squid radius beta cross_amp ma ts).
Proof.
  intros H. rewrite !inside_squid_run. apply run_comm.
  intros s s' Hs Hs' k Hk Hk'.
  apply (H k); eapply squid_steps_touch; eauto.
Qed.

Lemma NoDup_app_disjoint {A : Type} (l l' : list A) :
  NoDup (l ++ l') -> forall k, In k l -> In k l' -> False.
Proof.
  induction l as [| x l IH]; intros H k Hk Hk'; [contradiction |].
  cbn [app] in H. inversion H as [| ? ? Hx Hnd]; subst.
  destruct Hk as [-> | Hk].
  - apply Hx. apply in_or_app. now right.
  - exact (IH Hnd k Hk Hk').
Qed.

Lemma NoDup_app_tail {A : Type} (l l' : list A) : NoDup (l ++ l') -> NoDup l'.
Proof.
  induction l as [| x l IH]; intros H; [exact H |].
  inversion H; subst. now apply IH.
Qed.

(** When no bolometer belongs to two SQUIDs, the SQUIDs can be processed
    in any order. *)
Lemma inside_python_perm (radius beta : Z) (cross_amp : list Q)
    (items items' : combs_t) :
  Permutation items items' ->
  NoDup (flat_map indices items) ->
  forall ts,
    inside_python radius beta cross_amp items ts
    = inside_python radius beta cross_amp items' ts.
Proof.
  unfold inside_python.
  induction 1 as [| x l l' Hp IH | x y l | l l' l'' Hp1 IH1 Hp2 IH2];
    intros Hnd ts.
  - reflexivity.
  - cbn [fold_left]. apply IH.
    cbn [flat_map] in Hnd. exact (NoDup_app_tail _ _ Hnd).
  - cbn [fold_left]. f_equal.
    apply inside_squid_comm.
    cbn [flat_map] in Hnd. intros k Hx Hy.
    apply (NoDup_app_disjoint _ _ Hnd k Hy).
    apply in_or_app. left. exact Hx.
  - rewrite IH1 by exact Hnd. apply IH2.
    eapply Permutation_NoDup; [| exact Hnd].
    apply Permutation_flat_map. exact Hp1.
Qed.

Lemma combs_append_indices (sq : string) (e : Z * nat) (combs : combs_t) :
  Permutation (flat_map indices (combs_append sq e combs))
              (snd e :: flat_map indices combs).
Proof.
  induction combs as [| [k l] combs IH]; [reflexivity |].
  cbn [combs_append]. destruct (k =? sq)%string.
  - cbn [flat_map]. unfold indices at 1 3. cbn [snd].
    rewrite map_app. cbn [map].
    rewrite <- app_assoc. cbn [app].
    symmetry. apply Permutation_middle.
  - cbn [flat_map]. rewrite IH.
    symmetry. apply Permutation_middle.
Qed.

Lemma build_combs_indices (squid_ids : list string) (bolo_ids : list Z)
    (l : list nat) (acc combs : combs_t) :
  fold_left
    (fun acc bolo =>
       combs <- acc ;;
       match nth_error squid_ids bolo, nth_error bolo_ids bolo with
       | Some sq, Some ch => Ok (combs_append sq (ch, bolo) combs)
       | _, _ => Raise IndexError
       end) l (Ok acc) = Ok combs ->
  Permutation (flat_map indices combs) (l ++ flat_map indices acc).
Proof.
  revert acc. induction l as [| b l IH]; intros acc H.
  - cbn in H. injection H as ->. reflexivity.
  - cbn [fold_left bind] in H.
    destruct (nth_error squid_ids b) as [sq |], (nth_error bolo_ids b) as [ch |].
    + rewrite (IH _ H), combs_append_indices. cbn [snd app].
      symmetry. apply Permutation_middle.
    + exfalso. clear -H. induction l; cbn in H; [discriminate | auto].
    + exfalso. clear -H. induction l; cbn in H; [discriminate | auto].
    + exfalso. clear -H. induction l; cbn in H; [discriminate | auto].
Qed.

Lemma build_combs_NoDup (n : nat) (squid_ids : list string) (bolo_ids : list Z)
    (combs : combs_t) :
  build_combs n squid_ids bolo_ids = Ok combs ->
  NoDup (flat_map indices combs).
Proof.
  intros H. apply build_combs_indices in H.
  eapply Permutation_NoDup; [symmetry; exact H |].
  cbn [flat_map]. rewrite app_nil_r. apply seq_NoDup.
Qed.

(** X28.  [inject_crosstalk_inside_SQUID] in python gives the same result
    whatever order the dictionary of SQUIDs is iterated in: a SQUID's loop
    reads and writes the rows of its own bolometers only, and the rows of
    different SQUIDs are disjoint.  (The order of the channels inside a
    SQUID does matter, see [CrosstalkCases].) *)
Theorem inside_SQUID_squid_order_invariant
    (gauss : Z -> nat -> Q)
    (kernel_f : tod -> list Z -> list nat -> Z -> list Q -> Z -> tod)
    (order1 order2 : combs_t -> combs_t)
    (bolo_data : tod) (squid_ids : list string) (bolo_ids : list Z)
    (mu sigma : Q) (radius beta seed : Z) (new_array : option tod) :
  (forall c, Permutation (order1 c) c) ->
  (forall c, Permutation (order2 c) c) ->
  inject_crosstalk_inside_SQUID gauss order1 kernel_f bolo_data squid_ids
    bolo_ids mu sigma radius beta seed new_array "python"
  = inject_crosstalk_inside_SQUID gauss order2 kernel_f bolo_data squid_ids
      bolo_ids mu sigma radius beta seed new_array "python".
Proof.
  intros H1 H2. unfold inject_crosstalk_inside_SQUID.
  destruct (build_combs (List.length bolo_data) squid_ids bolo_ids)
    as [combs |] eqn:Hc; [| reflexivity].
  cbn [bind String.eqb Ascii.eqb Bool.eqb]. do 2 f_equal.
  apply inside_python_perm.
  - rewrite (H1 combs). symmetry. apply H2.
  - eapply Permutation_NoDup.
    + symmetry. apply Permutation_flat_map. apply H1.
    + eapply build_combs_NoDup. exact Hc.
Qed.

End CrosstalkSpec.

(* ================================================================== *)
(** ** Properties of the differential-pointing model *)

Module BeamOffsetsSpec.

Import Systematics.

Lemma add_even_length (a b : list Q) :
  List.length (add_even a b) = List.length a.
Proof.
  revert b. induction a as [a IH] using (well_founded_induction
    (wf_inverse_image _ nat _ (@List.length Q) PeanoNat.Nat.lt_wf_0)).
  intros b. destruct a as [| x [| y a']]; destruct b as [| r b'];
    try reflexivity.
  cbn [add_even List.length]. rewrite IH; [reflexivity | cbn; lia].
Qed.

Lemma add_even_nth_even (k : nat) : forall a b : list Q,
  (k < List.length b)%nat -> (2 * k < List.length a)%nat ->
  nth (2 * k) (add_even a b) 0 = nth (2 * k) a 0 + nth k b 0.
Proof.
  induction k as [| k IH]; intros a b Hb Ha.
  - destruct a as [| x [| y a']]; destruct b as [| r b'];
      cbn in Ha, Hb; try lia; reflexivity.
  - destruct a as [| x [| y a']]; destruct b as [| r b'];
      cbn in Ha, Hb; try lia.
    replace (2 * S k)%nat with (S (S (2 * k))) by lia.
    cbn [add_even nth]. apply IH; lia.
Qed.

Lemma add_even_nth_odd (k : nat) : forall a b : list Q,
  nth (2 * k + 1) (add_even a b) 0 = nth (2 * k + 1) a 0.
Proof.
  induction k as [| k IH]; intros a b.
  - destruct a as [| x [| y a']]; destruct b as [| r b']; reflexivity.
  - destruct a as [| x [| y a']]; destruct b as [| r b']; try reflexivity.
    replace (2 * S k + 1)%nat with (S (S (2 * k + 1))) by lia.
    cbn [add_even nth]. apply IH.
Qed.

(** [a[1::2] += b], without the shape check. *)
Definition add_odd (a b : list Q) : list Q :=
  firstn 1 a ++ add_even (skipn 1 a) b.

Lemma add_odd_length (a b : list Q) :
  List.length (add_odd a b) = List.length a.
Proof.
  unfold add_odd. destruct a as [| x a]; [destruct b; reflexivity |].
  cbn [firstn skipn app List.length]. now rewrite add_even_length.
Qed.

Lemma add_odd_nth_odd (k : nat) (a b : list Q) :
  (k < List.length b)%nat -> (2 * k + 1 < List.length a)%nat ->
  nth (2 * k + 1) (add_odd a b) 0 = nth (2 * k + 1) a 0 + nth k b 0.
Proof.
  intros Hb Ha. unfold add_odd. destruct a as [| x a]; [cbn in Ha; lia |].
  cbn [firstn skipn app]. replace (2 * k + 1)%nat with (S (2 * k)) by lia.
  cbn [nth]. apply add_even_nth_even; [exact Hb | cbn in Ha; lia].
Qed.

Lemma add_odd_nth_even (k : nat) (a b : list Q) :
  nth (2 * k) (add_odd a b) 0 = nth (2 * k) a 0.
Proof.
  unfold add_odd. destruct a as [| x a].
  - destruct b, k; reflexivity.
  - cbn [firstn skipn app]. destruct k as [| k]; [reflexivity |].
    replace (2 * S k)%nat with (S (2 * k + 1)) by lia.
    cbn [nth]. apply add_even_nth_odd.
Qed.

Lemma nth_map_opp (k : nat) (l : list Q) :
  nth k (map Qopp l) 0 = - nth k l 0.
Proof. exact (map_nth Qopp l 0 k). Qed.

Lemma iadd_stride2_exact (start : nat) (a b : list Q) :
  List.length b = slice_len start (List.length a) ->
  iadd_stride2 start a b
  = Ok (match start with O => add_even a b | S _ => add_odd a b end).
Proof.
  intros H. unfold iadd_stride2. rewrite H, Nat.eqb_refl.
  destruct start; reflexivity.
Qed.

Lemma slice_len_even (p : nat) :
  slice_len 0 (2 * p) = p /\ slice_len 1 (2 * p) = p.
Proof.
  unfold slice_len. split.
  - replace (2 * p - 0 + 1)%nat with (1 + p * 2)%nat by lia.
    rewrite Nat.div_add by lia. reflexivity.
  - destruct p as [| p]; [reflexivity |].
    replace (2 * S p - 1 + 1)%nat with (0 + S p * 2)%nat by lia.
    rewrite Nat.div_add by lia. reflexivity.
Qed.

Lemma half_double (p : nat) : (2 * p / 2 = p)%nat.
Proof.
  replace (2 * p)%nat with (0 + p * 2)%nat by lia.
  rewrite Nat.div_add by lia. reflexivity.
Qed.

Lemma half_double_succ (p : nat) : ((2 * p + 1) / 2 = p)%nat.
Proof.
  replace (2 * p + 1)%nat with (1 + p * 2)%nat by lia.
  rewrite Nat.div_add by lia. reflexivity.
Qed.

Section Offsets.

Variable gauss : Z -> nat -> Q.
Variable random_sample : Z -> nat -> nat -> Q.
Variable pi : Q.
Variable cos sin : Q -> Q.

Lemma draws_length (seed : Z) (loc scale low high : Q) (n : nat)
    (f : Q * Q -> Q) (g : Q -> Q) :
  List.length
    (map f (combine (normal gauss seed loc scale n)
              (map g (uniform random_sample seed n low high n)))) = n.
Proof.
  unfold normal, uniform.
  rewrite length_map, length_combine, !length_map, length_seq. lia.
Qed.

End Offsets.

End BeamOffsetsSpec.

(* ================================================================== *)
(** ** Properties of the differential-pointing model in double precision *)

Module Binary64Spec.

Import Systematics Binary64 PrimFloat.

#[local] Open Scope float_scope.

Lemma b64_add_even_length (a b : list float) :
  List.length (add_even a b) = List.length a.
Proof.
  revert b. induction a as [a IH] using (well_founded_induction
    (wf_inverse_image _ nat _ (@List.length float) PeanoNat.Nat.lt_wf_0)).
  intros b. destruct a as [| x [| y a']]; destruct b as [| r b'];
    try reflexivity.
  cbn [add_even List.length]. rewrite IH; [reflexivity | cbn; lia].
Qed.

Lemma b64_add_even_nth_even (k : nat) : forall a b : list float,
  (k < List.length b)%nat -> (2 * k < List.length a)%nat ->
  nth (2 * k) (add_even a b) 0 = nth (2 * k) a 0 + nth k b 0.
Proof.
  induction k as [| k IH]; intros a b Hb Ha.
  - destruct a as [| x [| y a']]; destruct b as [| r b'];
      cbn in Ha, Hb; try lia; reflexivity.
  - destruct a as [| x [| y a']]; destruct b as [| r b'];
      cbn in Ha, Hb; try lia.
    replace (2 * S k)%nat with (S (S (2 * k))) by lia.
    cbn [add_even nth]. apply IH; lia.
Qed.

Lemma b64_add_even_nth_odd (k : nat) : forall a b : list float,
  nth (2 * k + 1) (add_even a b) 0 = nth (2 * k + 1) a 0.
Proof.
  induction k as [| k IH]; intros a b.
  - destruct a as [| x [| y a']]; destruct b as [| r b']; reflexivity.
  - destruct a as [| x [| y a']]; destruct b as [| r b']; try reflexivity.
    replace (2 * S k + 1)%nat with (S (S (2 * k + 1))) by lia.
    cbn [add_even nth]. apply IH.
Qed.

(** [a[1::2] += b], without the shape check. *)
Definition add_odd (a b : list float) : list float :=
  firstn 1 a ++ add_even (skipn 1 a) b.

Lemma b64_add_odd_length (a b : list float) :
  List.length (add_odd a b) = List.length a.
Proof.
  unfold add_odd. destruct a as [| x a]; [destruct b; reflexivity |].
  cbn [firstn skipn app List.length]. now rewrite b64_add_even_length.
Qed.

Lemma b64_add_odd_nth_odd (k : nat) (a b : list float) :
  (k < List.length b)%nat -> (2 * k + 1 < List.length a)%nat ->
  nth (2 * k + 1) (add_odd a b) 0 = nth (2 * k + 1) a 0 + nth k b 0.
Proof.
  intros Hb Ha. unfold add_odd. destruct a as [| x a]; [cbn in Ha; lia |].
  cbn [firstn skipn app]. replace (2 * k + 1)%nat with (S (2 * k)) by lia.
  cbn [nth]. apply b64_add_even_nth_even; [exact Hb | cbn in Ha; lia].
Qed.

Lemma b64_add_odd_nth_even (k : nat) (a b : list float) :
  nth (2 * k) (add_odd a b) 0 = nth (2 * k) a 0.
Proof.
  unfold add_odd. destruct a as [| x a].
  - destruct b, k; reflexivity.
  - cbn [firstn skipn app]. destruct k as [| k]; [reflexivity |].
    replace (2 * S k)%nat with (S (2 * k + 1)) by lia.
    cbn [nth]. apply b64_add_even_nth_odd.
Qed.

Lemma b64_nth_map_opp (k : nat) (l : list float) :
  (k < List.length l)%nat -> nth k (map opp l) 0 = - nth k l 0.
Proof.
  intros H. rewrite (nth_indep _ 0 (- 0)) by (now rewrite length_map).
  apply map_nth.
Qed.

Lemma b64_iadd_stride2_exact (start : nat) (a b : list float) :
  List.length b = slice_len start (List.length a) ->
  iadd_stride2 start a b
  = Ok (match start with O => add_even a b | S _ => add_odd a b end).
Proof.
  intros H. unfold iadd_stride2. rewrite H, Nat.eqb_refl.
  destruct start; reflexivity.
Qed.

Section Offsets.

Variable gauss : Z -> nat -> float.
Variable random_sample : Z -> nat -> nat -> float.
Variable pi : float.
Variable cos sin : float -> float.

Local Abbreviation modify :=
  (modify_beam_offsets gauss random_sample pi cos sin).
Local Abbreviation rhox := (rhox_of gauss random_sample pi cos).
Local Abbreviation rhoy := (rhoy_of gauss random_sample pi sin).

Lemma b64_draws_length (seed : Z) (loc scale low high : float) (n : nat)
    (f : float * float -> float) (g : float -> float) :
  List.length
    (map f (combine (normal gauss seed loc scale n)
              (map g (uniform random_sample seed n low high n)))) = n.
Proof.
  unfold normal, uniform.
  rewrite length_map, length_combine, !length_map, length_seq. lia.
Qed.

Lemma b64_nth_draw (seed : Z) (mu sigma : float) (p k : nat)
    (trig : float -> float) :
  (k < p)%nat ->
  nth k
    (map (fun rt => fst rt / 2 * trig (snd rt))
       (combine
          (normal gauss seed (mu * arcsecond2rad pi)
             (sigma * arcsecond2rad pi) p)
          (map (fun u => u * deg2rad pi)
             (uniform random_sample seed p 0 360 p)))) 0
  = rho_of gauss pi mu sigma seed p k / 2
    * trig (theta_of random_sample pi seed p k).
Proof.
  intros Hk. unfold rho_of, theta_of.
  set (rho := normal _ _ _ _ _). set (theta := map _ (uniform _ _ _ _ _ _)).
  assert (Lr : List.length rho = p)
    by (subst rho; unfold normal; now rewrite length_map, length_seq).
  assert (Lt : List.length theta = p)
    by (subst theta; unfold uniform; now rewrite !length_map, length_seq).
  rewrite (nth_indep _ 0 ((fun rt => fst rt / 2 * trig (snd rt)) (0, 0)))
    by (rewrite length_map, length_combine; lia).
  rewrite (map_nth (fun rt => fst rt / 2 * trig (snd rt))).
  rewrite combine_nth by lia. reflexivity.
Qed.

(** C8 (amended).  For equal even-length offset arrays and every seed,
    [modify_beam_offsets] returns normally and gives the two detectors of
    each pair exactly opposite increments: the top (even-index) offset
    becomes the double-precision sum of its old value and [rhox]
    ([rhoy]), the bottom (odd-index) offset the double-precision sum of its
    old value and [-rhox] ([-rhoy]), with [rhox = rho / 2 * cos(theta)] and
    [rhoy = rho / 2 * sin(theta)] for the pair's draw.  Each sum is rounded
    on its own, so the differences new minus old are opposite up to that
    rounding only. *)
Theorem pairing_antisymmetry (xpos ypos : list float) (mu sigma : float)
    (seed : Z) :
  List.length xpos = List.length ypos ->
  Nat.even (List.length xpos) = true ->
  let o := modify xpos ypos mu sigma seed in
  let npair := (List.length xpos / 2)%nat in
  raised o = None /\
  List.length (first_buffer o) = List.length xpos /\
  List.length (second_buffer o) = List.length ypos /\
  forall k, (k < npair)%nat ->
    nth (2 * k) (first_buffer o) 0
    = nth (2 * k) xpos 0 + rhox mu sigma seed npair k /\
    nth (2 * k + 1) (first_buffer o) 0
    = nth (2 * k + 1) xpos 0 + - rhox mu sigma seed npair k /\
    nth (2 * k) (second_buffer o) 0
    = nth (2 * k) ypos 0 + rhoy mu sigma seed npair k /\
    nth (2 * k + 1) (second_buffer o) 0
    = nth (2 * k + 1) ypos 0 + - rhoy mu sigma seed npair k.
Proof.
  intros Hlen Hev.
  apply Nat.even_spec in Hev as [p Hp].
  unfold modify_beam_offsets.
  rewrite <- Hlen, Nat.eqb_refl. cbn [negb].
  rewrite Hp, BeamOffsetsSpec.half_double.
  set (rt := combine _ _).
  set (rx := map (fun rt => fst rt / 2 * cos (snd rt)) rt).
  set (ry := map (fun rt => fst rt / 2 * sin (snd rt)) rt).
  assert (Lx : List.length rx = p) by apply b64_draws_length.
  assert (Ly : List.length ry = p) by apply b64_draws_length.
  destruct (BeamOffsetsSpec.slice_len_even p) as [S0 S1].
  rewrite (@b64_iadd_stride2_exact 0 xpos rx) by (rewrite Hp, Lx, S0; reflexivity).
  rewrite (@b64_iadd_stride2_exact 1 (add_even xpos rx) (map opp rx))
    by (rewrite length_map, b64_add_even_length, Hp, Lx, S1; reflexivity).
  rewrite (@b64_iadd_stride2_exact 0 ypos ry)
    by (rewrite <- Hlen, Hp, Ly, S0; reflexivity).
  rewrite (@b64_iadd_stride2_exact 1 (add_even ypos ry) (map opp ry))
    by (rewrite length_map, b64_add_even_length, <- Hlen, Hp, Ly, S1; reflexivity).
  cbn [raised first_buffer second_buffer]. cbv zeta.
  rewrite !b64_add_odd_length, !b64_add_even_length.
  split; [reflexivity |]. split; [now rewrite Hp |].
  split; [now rewrite <- Hlen, Hp |].
  intros k Hk.
  rewrite !b64_add_odd_nth_even.
  rewrite !b64_add_odd_nth_odd by (rewrite ?length_map, ?b64_add_even_length; lia).
  rewrite !b64_add_even_nth_odd.
  rewrite !b64_add_even_nth_even by lia.
  rewrite !b64_nth_map_opp by lia.
  unfold rhox_of, rhoy_of. subst rx ry rt.
  rewrite !b64_nth_draw by exact Hk.
  repeat split.
Qed.

(** C10 (amended).  For equal odd-length arrays [modify_beam_offsets]
    raises the [ValueError] of the first in-place addition and leaves both
    arrays as they were, except at length 3.  There one displacement is
    drawn, numpy repeats it over the two even-index entries, and the call
    returns normally with all three entries moved: entries 0 and 2 by
    [rhox] ([rhoy]), entry 1 by [-rhox] ([-rhoy]). *)
Theorem odd_length_outcome (xpos ypos : list float) (mu sigma : float)
    (seed : Z) :
  List.length xpos = List.length ypos ->
  Nat.odd (List.length xpos) = true ->
  let o := modify xpos ypos mu sigma seed in
  (List.length xpos <> 3%nat ->
   o = Outcome xpos ypos
         (Some (ValueError "operands could not be broadcast together"))) /\
  (List.length xpos = 3%nat ->
   let rx := rhox mu sigma seed 1 0 in
   let ry := rhoy mu sigma seed 1 0 in
   o = Outcome
         [nth 0 xpos 0 + rx; nth 1 xpos 0 + - rx; nth 2 xpos 0 + rx]
         [nth 0 ypos 0 + ry; nth 1 ypos 0 + - ry; nth 2 ypos 0 + ry]
         None).
Proof.
  intros Hlen Hodd. cbv zeta. split.
  - intros H3. apply Nat.odd_spec in Hodd as [p Hp].
    unfold modify_beam_offsets.
    rewrite <- Hlen, Nat.eqb_refl. cbn [negb].
    rewrite Hp, BeamOffsetsSpec.half_double_succ.
    set (rt := combine _ _).
    set (rx := map (fun rt => fst rt / 2 * cos (snd rt)) rt).
    assert (Lx : List.length rx = p) by apply b64_draws_length.
    assert (S0 : slice_len 0 (2 * p + 1) = S p).
    { unfold slice_len.
      replace (2 * p + 1 - 0 + 1)%nat with (0 + S p * 2)%nat by lia.
      rewrite Nat.div_add by lia. reflexivity. }
    unfold iadd_stride2 at 1. rewrite Hp, S0, Lx.
    replace (p =? S p)%nat with false by (symmetry; apply Nat.eqb_neq; lia).
    replace (p =? 1)%nat with false by (symmetry; apply Nat.eqb_neq; lia).
    reflexivity.
  - intros H3.
    destruct xpos as [| x0 [| x1 [| x2 [| ? ?]]]]; try discriminate H3.
    destruct ypos as [| y0 [| y1 [| y2 [| ? ?]]]]; try discriminate Hlen.
    reflexivity.
Qed.

End Offsets.

End Binary64Spec.

(* ================================================================== *)
(** ** Properties of the scan synthesis *)

Module ScanSpec.

Import Scan QFacts.

Lemma set_nth_length (i : nat) (v : Q) (a : list Q) :
  List.length (set_nth i v a) = List.length a.
Proof.
  revert i. induction a as [| x a IH]; intros i; [reflexivity |].
  destruct i; cbn [set_nth List.length]; [reflexivity | now rewrite IH].
Qed.

Lemma nth_set_nth_eq (i : nat) (v d : Q) (a : list Q) :
  (i < List.length a)%nat -> nth i (set_nth i v a) d = v.
Proof.
  revert i. induction a as [| x a IH]; intros i H; [cbn in H; lia |].
  destruct i; cbn [set_nth nth]; [reflexivity |]. apply IH. cbn in H. lia.
Qed.

Lemma nth_set_nth_neq (i j : nat) (v d : Q) (a : list Q) :
  i <> j -> nth j (set_nth i v a) d = nth j a d.
Proof.
  revert i j. induction a as [| x a IH]; intros i j H.
  - destruct j; reflexivity.
  - destruct i, j; cbn [set_nth nth]; try reflexivity; try congruence.
    apply IH. congruence.
Qed.

(** Invariants of a loop over [range(a, a + k)]. *)
Lemma fold_seq_inv {St : Type} (step : St -> nat -> St)
    (P : nat -> St -> Prop) (k : nat) : forall (a : nat) (s0 : St),
  P a s0 ->
  (forall t s, (a <= t < a + k)%nat -> P t s -> P (S t) (step s t)) ->
  P (a + k)%nat (fold_left step (seq a k) s0).
Proof.
  induction k as [| k IH]; intros a s0 H0 Hstep.
  - now rewrite Nat.add_0_r.
  - cbn [seq fold_left]. replace (a + S k)%nat with (S a + k)%nat by lia.
    apply IH.
    + apply Hstep; [lia | exact H0].
    + intros t s Ht. apply Hstep. lia.
Qed.

(** What the azimuth sweep reads and writes. *)
Definition sweep (s : LoopState) : Q * Q * list Q :=
  (running_az s, pb_az_dir s, pb_az_array s).

Definition sweep_step (upper_az lower_az az_speed sampling_freq : Q)
    (v : Q * Q * list Q) (t : nat) : Q * Q * list Q :=
  let '(running, dir, az) := v in
  let dir' := next_dir running upper_az lower_az dir in
  (running + az_speed * dir' / sampling_freq, dir', set_nth t running az).

Section Sweep.

Variables lower upper az_speed sampling_freq : Q.
Let stp : Q := az_speed / sampling_freq.
Hypothesis stp_nonneg : 0 <= stp.
Hypothesis window : lower <= upper.

Definition in_window (x : Q) : Prop := lower - stp <= x /\ x <= upper + stp.

Definition sweep_inv (n t : nat) (v : Q * Q * list Q) : Prop :=
  let '(running, dir, az) := v in
  in_window running /\ (dir = 1 \/ dir = -1) /\ List.length az = n /\
  forall j, (j < t)%nat -> in_window (nth j az 0).

Lemma sweep_step_inv (n t : nat) (v : Q * Q * list Q) :
  (t < n)%nat -> sweep_inv n t v ->
  sweep_inv n (S t) (sweep_step upper lower az_speed sampling_freq v t).
Proof.
  destruct v as [[running dir] az]. unfold sweep_inv, sweep_step.
  intros Ht (Hr & Hd & Hl & Haz).
  assert (Eplus : az_speed * 1 / sampling_freq == stp)
    by (unfold stp, Qdiv; ring).
  assert (Eminus : az_speed * -1 / sampling_freq == - stp)
    by (unfold stp, Qdiv; ring).
  unfold in_window in *. destruct Hr as [Hr1 Hr2].
  repeat split.
  - unfold next_dir.
    destruct (Qle_bool running upper) eqn:Hu; cbn [negb].
    + destruct (Qle_bool lower running) eqn:Hlo; cbn [negb].
      * apply Qle_bool_iff in Hu, Hlo.
        destruct Hd as [-> | ->]; rewrite ?Eplus, ?Eminus; lra.
      * apply Qle_bool_false in Hlo. rewrite Eplus. lra.
    + apply Qle_bool_false in Hu. rewrite Eminus. lra.
  - unfold next_dir.
    destruct (Qle_bool running upper) eqn:Hu; cbn [negb].
    + destruct (Qle_bool lower running) eqn:Hlo; cbn [negb].
      * apply Qle_bool_iff in Hu, Hlo.
        destruct Hd as [-> | ->]; rewrite ?Eplus, ?Eminus; lra.
      * apply Qle_bool_iff in Hu. rewrite Eplus. lra.
    + apply Qle_bool_false in Hu. rewrite Eminus. lra.
  - unfold next_dir.
    destruct (negb (Qle_bool running upper)); [now right |].
    destruct (negb (Qle_bool lower running)); [now left | exact Hd].
  - rewrite set_nth_length. exact Hl.
  - destruct (Nat.eq_dec j t) as [-> | Hne].
    + rewrite nth_set_nth_eq by lia. exact Hr1.
    + rewrite nth_set_nth_neq by congruence. apply Haz. lia.
  - destruct (Nat.eq_dec j t) as [-> | Hne].
    + rewrite nth_set_nth_eq by lia. exact Hr2.
    + rewrite nth_set_nth_neq by congruence. apply Haz. lia.
Qed.

Lemma sweep_loop_inv (n : nat) (v : Q * Q * list Q) :
  (1 <= n)%nat -> sweep_inv n 1 v ->
  sweep_inv n n
    (fold_left (sweep_step upper lower az_speed sampling_freq)
       (seq 1 (n - 1)) v).
Proof.
  intros Hn H0.
  replace n with (1 + (n - 1))%nat at 2 by lia.
  apply (fold_seq_inv (sweep_step upper lower az_speed sampling_freq)
           (sweep_inv n)); [exact H0 |].
  intros t s Ht. apply sweep_step_inv. lia.
Qed.

End Sweep.

Section Kernels.

Variable pi : Q.
Variable radec_of : Observer -> Q -> Q -> Q * Q.
Variables el upper lower az_speed second sampling_freq : Q.

Local Abbreviation pstep :=
  (python_step pi radec_of el upper lower az_speed sampling_freq).
Local Abbreviation cstep := (c_step upper lower az_speed second sampling_freq).
Local Abbreviation sstep := (sweep_step upper lower az_speed sampling_freq).

Lemma sweep_python_loop (l : list nat) (s : LoopState) :
  sweep (fold_left pstep l s) = fold_left sstep l (sweep s).
Proof.
  revert s. induction l as [| t l IH]; intros s; [reflexivity |].
  cbn [fold_left]. rewrite IH. reflexivity.
Qed.

Lemma sweep_c_loop (l : list nat) (s : LoopState) :
  sweep (fold_left cstep l s) = fold_left sstep l (sweep s).
Proof.
  revert s. induction l as [| t l IH]; intros s; [reflexivity |].
  cbn [fold_left]. rewrite IH. reflexivity.
Qed.

Lemma c_loop_location (l : list nat) (s : LoopState) :
  location (fold_left cstep l s) = location s.
Proof.
  revert s. induction l as [| t l IH]; intros s; [reflexivity |].
  cbn [fold_left]. rewrite IH. reflexivity.
Qed.

Lemma c_loop_radec (l : list nat) (s : LoopState) :
  pb_ra_array (fold_left cstep l s) = pb_ra_array s /\
  pb_dec_array (fold_left cstep l s) = pb_dec_array s.
Proof.
  revert s. induction l as [| t l IH]; intros s; [now split |].
  cbn [fold_left]. destruct (IH (cstep s t)) as [-> ->]. now split.
Qed.

Lemma python_loop_date (l : list nat) (s : LoopState) :
  date (location (fold_left pstep l s))
  == date (location s)
     + inject_Z (Z.of_nat (List.length l)) * (ephem_second / sampling_freq).
Proof.
  revert s. induction l as [| t l IH]; intros s.
  - cbn [fold_left List.length Z.of_nat]. ring.
  - cbn [fold_left]. rewrite IH. cbn [python_step location set_date date].
    replace (Z.of_nat (List.length (t :: l)))
      with (Z.of_nat (List.length l) + 1)%Z by (cbn [List.length]; lia).
    rewrite inject_Z_plus. ring.
Qed.

Lemma python_loop_first_radec (k : nat) (s : LoopState) :
  nth 0 (pb_ra_array (fold_left pstep (seq 1 k) s)) 0 = nth 0 (pb_ra_array s) 0
  /\ nth 0 (pb_dec_array (fold_left pstep (seq 1 k) s)) 0
     = nth 0 (pb_dec_array s) 0.
Proof.
  apply (fold_seq_inv pstep
           (fun _ s' =>
              nth 0 (pb_ra_array s') 0 = nth 0 (pb_ra_array s) 0 /\
              nth 0 (pb_dec_array s') 0 = nth 0 (pb_dec_array s) 0)).
  - now split.
  - intros t s' Ht [Hra Hdec].
    cbn [python_step pb_ra_array pb_dec_array].
    rewrite !nth_set_nth_neq by lia. now split.
Qed.

End Kernels.

Section Synthesis.

Variable pi : Q.
Variable cos : Q -> Q.
Variable ephem_hours : string -> Q.
Variable sidereal_time : Observer -> Q.
Variable datetime_str : Q -> string.
Variable radec_of : Observer -> Q -> Q -> Q * Q.

Local Abbreviation run_scan :=
  (run_one_scan pi cos ephem_hours sidereal_time datetime_str radec_of).
Local Abbreviation bounds := (lst_bounds pi ephem_hours).
Local Abbreviation reset := (reset_date pi sidereal_time).

Ltac invert_bind H x :=
  match type of H with
  | bind ?r _ = Ok _ =>
      destruct r as [x |] eqn:?; cbn [bind] in H; [| discriminate H]
  end.

(** C2 (amended).  In exact arithmetic (floats read as exact rationals),
    under the C and fortran backends, across one [run_one_scan] the date
    cursor, once reset to [begin_LST], moves forward by one guard day plus
    [num_pts + 1] sample periods: the step taken before the loop and the
    bulk stride of [num_pts] after it.  Nothing is stated of the python
    backend, whose loop steps the cursor on its own account as well. *)
Theorem date_cursor_advance (self self' : ScanningStrategy)
    (scan_number : nat) (f : ScanFile) :
  In (language self) ["C"; "fortran"]%string ->
  run_scan self scan_number = Ok (self', f) ->
  exists begin_ end_,
    bounds self scan_number = Ok (begin_, end_) /\
    let num_pts := inject_Z (num_pts_of self begin_ end_) in
    let sample := ephem_second / sampling_freq self in
    date (telescope_location self')
    == reset self begin_ + (num_pts + 1) * sample + 1.
Proof.
  intros Hlang H. unfold run_one_scan in H.
  invert_bind H el. invert_bind H azmin. invert_bind H azmax.
  invert_bind H lst. destruct lst as [begin_ end_].
  exists begin_, end_. split; [reflexivity |].
  set (np := num_pts_of self begin_ end_) in *.
  destruct (np <? 0)%Z eqn:Hneg; [discriminate H |].
  destruct (Z.to_nat np =? 0)%nat eqn:Hz; [discriminate H |].
  invert_bind H mjd0.
  injection H as <- _.
  cbn [set_location telescope_location set_date date].
  match goal with
  | |- context [location ?s1] =>
      assert (E : location s1
                  = set_date
                      (set_date (telescope_location self)
                         (reset self begin_))
                      (reset self begin_
                       + ephem_second / sampling_freq self))
  end.
  { cbn [In] in Hlang. destruct Hlang as [<- | [<- | []]];
      cbn [String.eqb Ascii.eqb Bool.eqb].
    - apply c_loop_location.
    - unfold run_one_scan_f. apply c_loop_location. }
  rewrite E. cbn [set_date date]. unfold ephem_second, Qdiv. ring.
Qed.

(** C9.  In every synthesized CES the first sample keeps the zero its RA
    and Dec arrays were initialised with: no backend writes index 0 (the
    python loop, the only one that calls [radec_of], starts at index 1). *)
Theorem first_sample_radec_unset (self self' : ScanningStrategy)
    (scan_number : nat) (f : ScanFile) :
  run_scan self scan_number = Ok (self', f) ->
  (0 < List.length (RA f))%nat /\ List.length (RA f) = List.length (Dec f) /\
  nth 0 (RA f) 0 = 0 /\ nth 0 (Dec f) 0 = 0.
Proof.
  intros H. unfold run_one_scan in H.
  invert_bind H el. invert_bind H azmin. invert_bind H azmax.
  invert_bind H lst. destruct lst as [begin_ end_].
  set (np := num_pts_of self begin_ end_) in *.
  destruct (np <? 0)%Z eqn:Hneg; [discriminate H |].
  destruct (Z.to_nat np =? 0)%nat eqn:Hz; [discriminate H |].
  apply Nat.eqb_neq in Hz.
  invert_bind H mjd0.
  injection H as _ <-. cbn [RA Dec].
  set (n := Z.to_nat np) in *.
  assert (Hrep : nth 0 (repeat 0 n) 0 = 0) by (destruct n; reflexivity).
  destruct (language self =? "python")%string.
  - match goal with
    | |- context [fold_left ?step (seq 1 ?k) ?s0] =>
        assert (L : List.length (pb_ra_array (fold_left step (seq 1 k) s0)) = n
                    /\ List.length (pb_dec_array (fold_left step (seq 1 k) s0)) = n)
    end.
    { apply (fold_seq_inv _
               (fun _ s' => List.length (pb_ra_array s') = n /\
                            List.length (pb_dec_array s') = n)).
      - cbn [pb_ra_array pb_dec_array]. now rewrite repeat_length.
      - intros t s' _ [L1 L2]. cbn [python_step pb_ra_array pb_dec_array].
        now rewrite !set_nth_length. }
    destruct L as [L1 L2]. rewrite L1, L2.
    split; [lia |]. split; [reflexivity |].
    match goal with
    | |- context [fold_left ?step (seq 1 ?k) ?s0] =>
        destruct (python_loop_first_radec pi radec_of el
                    ((azmin + azmax) * (1 # 2)
                     + (azmax - azmin) / cos (el / radToDeg pi) / 2)
                    ((azmin + azmax) * (1 # 2)
                     - (azmax - azmin) / cos (el / radToDeg pi) / 2)
                    (sky_speed self / cos (el / radToDeg pi))
                    (sampling_freq self) k s0) as [-> ->]
    end.
    cbn [pb_ra_array pb_dec_array]. now split.
  - match goal with
    | |- context [pb_ra_array ?s1] =>
        assert (E : pb_ra_array s1 = repeat 0 n /\ pb_dec_array s1 = repeat 0 n)
    end.
    { destruct (language self =? "C")%string; [apply c_loop_radec |].
      destruct (language self =? "fortran")%string; [| now split].
      unfold run_one_scan_f. apply c_loop_radec. }
    destruct E as [-> ->]. rewrite repeat_length.
    split; [lia |]. split; [reflexivity |]. now split.
Qed.

(** C4.  Every azimuth sample of a synthesized CES lies in the window
    [az_mean - az_throw/2, az_mean + az_throw/2] widened on both sides by one
    sample step [az_speed / sampling_freq] (the samples are recorded in
    radians; the window is in degrees, as the code computes it). *)
Theorem azimuth_bounded (self self' : ScanningStrategy) (scan_number : nat)
    (f : ScanFile) (el azmin azmax : Q) :
  index (elevation self) scan_number = Ok el ->
  index (az_min self) scan_number = Ok azmin ->
  index (az_max self) scan_number = Ok azmax ->
  azmin <= azmax ->
  0 < cos (el / radToDeg pi) ->
  0 < sampling_freq self ->
  0 <= sky_speed self ->
  In (language self) ["python"; "C"; "fortran"]%string ->
  run_scan self scan_number = Ok (self', f) ->
  let az_mean := (azmin + azmax) * (1 # 2) in
  let az_throw := (azmax - azmin) / cos (el / radToDeg pi) in
  let az_speed := sky_speed self / cos (el / radToDeg pi) in
  let overshoot := az_speed / sampling_freq self in
  Forall
    (fun a => exists deg,
         a = deg * pi / 180 /\
         az_mean - az_throw / 2 - overshoot <= deg /\
         deg <= az_mean + az_throw / 2 + overshoot)
    (azimuth f).
Proof.
  intros Hel Hmin Hmax Hwin Hcos Hsf Hsky Hlang H az_mean az_throw az_speed overshoot.
  unfold run_one_scan in H. rewrite Hel, Hmin, Hmax in H. cbn [bind] in H.
  invert_bind H lst. destruct lst as [begin_ end_].
  set (np := num_pts_of self begin_ end_) in *.
  destruct (np <? 0)%Z eqn:Hneg; [discriminate H |].
  destruct (Z.to_nat np =? 0)%nat eqn:Hz; [discriminate H |].
  apply Nat.eqb_neq in Hz.
  invert_bind H mjd0.
  injection H as _ <-. cbn [azimuth].
  set (n := Z.to_nat np) in *.
  fold az_mean az_throw az_speed.
  assert (Hthrow : 0 <= az_throw / 2).
  { apply Qle_shift_div_l; [reflexivity |].
    unfold az_throw. apply Qle_shift_div_l; [exact Hcos | lra]. }
  set (half := az_throw / 2) in *.
  set (upper := az_mean + half).
  set (lower := az_mean - half).
  assert (Hspeed : 0 <= az_speed).
  { unfold az_speed. apply Qle_shift_div_l; [exact Hcos | lra]. }
  assert (Hover : 0 <= az_speed / sampling_freq self).
  { apply Qle_shift_div_l; [exact Hsf | lra]. }
  set (s0 := {| running_az := az_mean + az_speed * 1 / sampling_freq self;
                pb_az_dir := 1;
                pb_az_array := set_nth 0 az_mean (repeat 0 n);
                pb_mjd_array := set_nth 0 mjd0 (repeat 0 n);
                pb_ra_array := repeat 0 n;
                pb_dec_array := repeat 0 n;
                location := _ |}) in *.
  unfold overshoot. clearbody half az_mean az_speed. clear az_throw.
  assert (Hlu : lower <= upper) by (unfold lower, upper; lra).
  assert (I0 : sweep_inv lower upper az_speed (sampling_freq self) n 1 (sweep s0)).
  { unfold sweep_inv, sweep, in_window. cbn [s0 running_az pb_az_dir pb_az_array].
    assert (E : az_speed * 1 / sampling_freq self == az_speed / sampling_freq self)
      by (unfold Qdiv; ring).
    repeat split.
    - rewrite E. unfold lower. lra.
    - rewrite E. unfold upper. lra.
    - now left.
    - now rewrite set_nth_length, repeat_length.
    - assert (j = 0%nat) by lia. subst j.
      rewrite nth_set_nth_eq by (rewrite repeat_length; lia). unfold lower. lra.
    - assert (j = 0%nat) by lia. subst j.
      rewrite nth_set_nth_eq by (rewrite repeat_length; lia). unfold upper. lra. }
  assert (I : forall s1,
             sweep s1 = fold_left
                          (sweep_step upper lower az_speed (sampling_freq self))
                          (seq 1 (n - 1)) (sweep s0) ->
             Forall
               (fun a => exists deg,
                    a = deg * pi / 180 /\
                    lower - overshoot <= deg /\ deg <= upper + overshoot)
               (map (fun a => a * pi / 180) (pb_az_array s1))).
  { intros s1 E.
    pose proof (sweep_loop_inv Hover Hlu (n := n) (sweep s0)
                  ltac:(lia) I0) as Inv.
    rewrite <- E in Inv. unfold sweep, sweep_inv in Inv.
    destruct Inv as (_ & _ & Hlen & Haz).
    apply Forall_forall. intros a Ha.
    apply in_map_iff in Ha as [deg [<- Hdeg]].
    exists deg. split; [reflexivity |].
    apply (In_nth _ _ 0) in Hdeg as [j [Hj <-]].
    apply Haz. lia. }
  apply I.
  destruct (language self =? "python")%string eqn:Lp;
    [apply sweep_python_loop |].
  destruct (language self =? "C")%string eqn:Lc; [apply sweep_c_loop |].
  destruct (language self =? "fortran")%string eqn:Lf.
  - unfold run_one_scan_f. apply sweep_c_loop.
  - exfalso. cbn [In] in Hlang.
    destruct Hlang as [E | [E | [E | []]]]; rewrite <- E in Lp, Lc, Lf;
      discriminate.
Qed.

End Synthesis.

End ScanSpec.

(* ================================================================== *)
(** ** Properties of the focal-plane convolution *)

Module FocalPlaneSpec.

Import FocalPlane.

Lemma add_at_length (pix : nat) (v : Q) (a : list Q) :
  List.length (add_at pix v a) = List.length a.
Proof.
  revert pix. induction a as [| x a IH]; intros pix; [reflexivity |].
  destruct pix; cbn [add_at List.length]; [reflexivity | now rewrite IH].
Qed.







Section Conservation.

Variable pi : Q.
Variable sin : Q -> Q.
Variable npix2nside : nat -> result nat.
Variable nside2resol_arcmin : nat -> Q.
Variable pix2ang : nat -> nat -> Q * Q.
Variable ang2pix : nat -> Q -> Q -> nat.
Variable convolve_focalplane_f :
  list Q -> list Q -> list nat -> Q -> Q -> nat -> list Q.

Local Abbreviation convolve :=
  (convolve_focalplane pi sin npix2nside nside2resol_arcmin pix2ang ang2pix
     convolve_focalplane_f).


End Conservation.

End FocalPlaneSpec.

(* ================================================================== *)
(** ** Construction of a scanning strategy *)

Module ConstructionSpec.

Import Scan.

Section Construction.

Variable ephem_degrees : string -> Q.
Variable ephem_now : Q.

Local Abbreviation construct := (init ephem_degrees ephem_now).

(** C6.  Constructing a [ScanningStrategy] with a name other than
    ["deep_patch"] (compared case-sensitively) raises the [ValueError] of
    [define_boundary_of_scan]: no instance exists on which a scan could be
    allocated or synthesized.  With ["deep_patch"] the construction succeeds
    and the five boundary tables have 12 slots each. *)
Theorem strategy_name_checked (nces : nat) (start_date telescope_longitude
    telescope_latitude : string) (telescope_elevation : Q)
    (name_strategy : string) (sampling_freq sky_speed : Q)
    (ut1utc_fn language : string) :
  let r := construct nces start_date telescope_longitude telescope_latitude
             telescope_elevation name_strategy sampling_freq sky_speed
             ut1utc_fn language in
  (name_strategy <> "deep_patch"%string ->
   r = Raise (ValueError unknown_strategy) /\ forall s, r <> Ok s) /\
  (name_strategy = "deep_patch"%string ->
   exists s, r = Ok s /\
     allowed_scanning_strategies s = ["deep_patch"%string] /\
     List.length (elevation s) = 12%nat /\
     List.length (az_min s) = 12%nat /\
     List.length (az_max s) = 12%nat /\
     List.length (begin_LST s) = 12%nat /\
     List.length (end_LST s) = 12%nat).
Proof.
  cbv zeta. unfold init. split.
  - intros Hname. apply String.eqb_neq in Hname. rewrite Hname.
    split; [reflexivity | discriminate].
  - intros ->. cbn [String.eqb Ascii.eqb Bool.eqb].
    eexists. split; [reflexivity |]. cbn. repeat split.
Qed.

End Construction.

Lemma strategy_name_checked_witness :
  init Sample.ephem_degrees Sample.ephem_now 12 "2013/1/1 00:00:00"
    "-67:46.816" "-22:56.396" 5200 "Deep_Patch" 30 (4 # 10)
    "s4cmb/data/ut1utc.ephem" "python"
  = Raise (ValueError unknown_strategy) /\
  is_ok (init Sample.ephem_degrees Sample.ephem_now 12 "2013/1/1 00:00:00"
           "-67:46.816" "-22:56.396" 5200 "deep_patch" 30 (4 # 10)
           "s4cmb/data/ut1utc.ephem" "python") = true.
Proof.
  split.
  - apply (strategy_name_checked Sample.ephem_degrees Sample.ephem_now 12
             "2013/1/1 00:00:00" "-67:46.816" "-22:56.396" 5200 "Deep_Patch"
             30 (4 # 10) "s4cmb/data/ut1utc.ephem" "python").
    discriminate.
  - reflexivity.
Defined.

End ConstructionSpec.

(* ================================================================== *)
(** ** The crosstalk routines on concrete batches *)

Module CrosstalkCases.

Import Systematics CrosstalkSpec.

Definition row_eqb (a b : list Q) : bool :=
  (List.length a =? List.length b)%nat
  && forallb (fun xy => Qeq_bool (fst xy) (snd xy)) (combine a b).

(** Equality of two sets of timestreams, sample by sample. *)
Definition tod_eqb (a b : tod) : bool :=
  (List.length a =? List.length b)%nat
  && forallb (fun xy => row_eqb (fst xy) (snd xy)) (combine a b).

Definition keep (c : combs_t) : combs_t := c.

(** Two bolometers on neighbouring channels of one SQUID, one sample each,
    leakage 50 percent without scatter. *)
Definition pair_inside (order : combs_t -> combs_t) : tod :=
  written
    (inject_crosstalk_inside_SQUID Sample.gauss order Sample.kernel_f
       [[4]; [4]] ["A"; "A"]%string [0; 1]%Z 50 0 1 2 5438765 None "python").

Definition pair_inside_snapshot : tod :=
  written
    (inject_crosstalk_inside_SQUID_snapshot Sample.gauss keep
       [[4]; [4]] ["A"; "A"]%string [0; 1]%Z 50 0 1 2 5438765 None).

(** Two SQUIDs of one bolometer each. *)
Definition pair_between (order : combs_t -> combs_t) : tod :=
  written
    (inject_crosstalk_SQUID_to_SQUID Sample.gauss order
       [[4]; [4]] ["A"; "B"]%string [0; 0]%Z 50 0 1 5438765 None).

Definition pair_between_snapshot : tod :=
  written
    (inject_crosstalk_SQUID_to_SQUID_snapshot Sample.gauss keep
       [[4]; [4]] ["A"; "B"]%string [0; 0]%Z 50 0 1 5438765 None).

(** C1.  The crosstalk loops read the working copy [tsout] they are
    writing, not the timestreams as they were at entry.  Two timestreams of
    one sample, both 4, leakage 50 percent without scatter:
    [inject_crosstalk_inside_SQUID] on neighbouring channels of one SQUID
    gives 6 and 7, where every term read from the entry data gives 6 and 6;
    taking the two channels in the other order gives 7 and 6.
    [inject_crosstalk_SQUID_to_SQUID] on two SQUIDs of one bolometer each
    gives 6 and 7 with the SQUIDs iterated in one order and 7 and 6 in the
    other, where the entry data give 6 and 6. *)
Lemma crosstalk_reads_working_copy :
  tod_eqb (pair_inside keep) [[6]; [7]] = true /\
  tod_eqb pair_inside_snapshot [[6]; [6]] = true /\
  tod_eqb (pair_inside keep) pair_inside_snapshot = false /\
  tod_eqb (inside_python 1 2 [1 # 2; 1 # 2]
             [("A"%string, [(1%Z, 1%nat); (0%Z, 0%nat)])] [[4]; [4]])
    [[7]; [6]] = true /\
  tod_eqb (pair_between keep) [[6]; [7]] = true /\
  tod_eqb (pair_between (@rev _)) [[7]; [6]] = true /\
  tod_eqb pair_between_snapshot [[6]; [6]] = true /\
  tod_eqb (pair_between keep) (pair_between (@rev _)) = false.
Proof. vm_compute. repeat split. Qed.

Lemma inside_SQUID_squid_order_invariant_witness :
  (forall c : combs_t, Permutation (keep c) c) /\
  (forall c : combs_t, Permutation (rev c) c) /\
  inject_crosstalk_inside_SQUID Sample.gauss keep Sample.kernel_f
    [[4]; [8]; [2]; [6]] ["A"; "B"; "A"; "B"]%string [0; 0; 1; 1]%Z
    (-3) 1 1 2 5438765 None "python"
  = inject_crosstalk_inside_SQUID Sample.gauss (@rev _) Sample.kernel_f
      [[4]; [8]; [2]; [6]] ["A"; "B"; "A"; "B"]%string [0; 0; 1; 1]%Z
      (-3) 1 1 2 5438765 None "python".
Proof.
  assert (H1 : forall c : combs_t, Permutation (keep c) c)
    by (intros c; apply Permutation_refl).
  assert (H2 : forall c : combs_t, Permutation (rev c) c)
    by (intros c; symmetry; apply Permutation_rev).
  split; [exact H1 |]. split; [exact H2 |].
  exact (inside_SQUID_squid_order_invariant Sample.gauss Sample.kernel_f
           keep (@rev _) [[4]; [8]; [2]; [6]] ["A"; "B"; "A"; "B"]%string
           [0; 0; 1; 1]%Z (-3) 1 1 2 5438765 None H1 H2).
Defined.

End CrosstalkCases.

(* ================================================================== *)
(** ** The differential-pointing model on concrete doubles *)

Module Binary64Cases.

Import Systematics Binary64 Binary64Spec PrimFloat.

#[local] Open Scope float_scope.

(** Stand-ins for the generator and the trigonometry, in hexadecimal
    notation (exact): [pi] is the double 3.141592653589793, every normal
    deviate is -1.087345029231464, every uniform one is 0 (all pairs are
    displaced along x), and the trigonometry is taken to second order
    around 0.  With [mu = 600] and [sigma = 300] arcseconds this makes
    [rhox] 0.0006637014239418149. *)
Definition pi : float := 0x1.921fb54442d18p+1.
Definition gauss (seed : Z) (k : nat) : float := -0x1.165c3e6c046dep+0.
Definition random_sample (seed : Z) (drawn k : nat) : float := 0.
Definition cos (x : float) : float := 1 - x * x / 2.
Definition sin (x : float) : float := x.

Definition modify :=
  modify_beam_offsets gauss random_sample pi cos sin.

(** C8, as stated, fails in double precision.  On offsets of 1 radian and a
    displacement [rhox] of 0.0006637014239418149, the top offset changes by
    0.0006637014239418981 and the bottom one by -0.0006637014239417871:
    [1 + rhox] and [1 - rhox] round on grids of different spacing. *)
Lemma rounded_sums_are_not_opposite :
  rhox_of gauss random_sample pi cos 600 300 5847 2 0
  = 0x1.5bf87f47f6dp-11 /\
  nth 0 (first_buffer (modify [1; 1; -1; -1] [1; -1; -1; 1] 600 300 5847)) 0
  - 1 = 0x1.5bf87f47f7p-11 /\
  nth 1 (first_buffer (modify [1; 1; -1; -1] [1; -1; -1; 1] 600 300 5847)) 0
  - 1 = -0x1.5bf87f47f6cp-11 /\
  eqb
    (nth 0 (first_buffer (modify [1; 1; -1; -1] [1; -1; -1; 1] 600 300 5847))
       0 - nth 0 [1; 1; -1; -1] 0)
    (- (nth 1
          (first_buffer (modify [1; 1; -1; -1] [1; -1; -1; 1] 600 300 5847))
          0 - nth 1 [1; 1; -1; -1] 0))
  = false.
Proof. vm_compute. repeat split. Qed.

Lemma pairing_antisymmetry_witness :
  List.length [1; 1; -1; -1] = List.length [1; -1; -1; 1] /\
  Nat.even (List.length [1; 1; -1; -1]) = true /\
  raised (modify [1; 1; -1; -1] [1; -1; -1; 1] 600 300 5847) = None /\
  forall k, (k < 2)%nat ->
    nth (2 * k)
      (first_buffer (modify [1; 1; -1; -1] [1; -1; -1; 1] 600 300 5847)) 0
    = nth (2 * k) [1; 1; -1; -1] 0
      + rhox_of gauss random_sample pi cos 600 300 5847 2 k /\
    nth (2 * k + 1)
      (first_buffer (modify [1; 1; -1; -1] [1; -1; -1; 1] 600 300 5847)) 0
    = nth (2 * k + 1) [1; 1; -1; -1] 0
      + - rhox_of gauss random_sample pi cos 600 300 5847 2 k.
Proof.
  split; [reflexivity |]. split; [reflexivity |].
  pose proof (@pairing_antisymmetry gauss random_sample pi cos sin
                [1; 1; -1; -1] [1; -1; -1; 1] 600 300 5847
                eq_refl eq_refl) as H.
  cbv zeta in H. destruct H as (Hr & _ & _ & Hk).
  split; [exact Hr |]. intros k Hlt.
  destruct (Hk k Hlt) as (H0 & H1 & _). split; [exact H0 | exact H1].
Defined.

(** C10, as stated, fails at length 3: the one displacement drawn is
    repeated over the two even-index entries, the call returns, and all
    three entries of the x array have moved, to 1.000663701423942,
    0.9993362985760582 and -0.9993362985760582. *)
Lemma odd_length_three_returns :
  modify [1; 1; -1] [1; -1; -1] 600 300 5847
  = Outcome
      [0x1.002b7f0fe8feep+0; 0x1.ffa901e02e025p-1; -0x1.ffa901e02e025p-1]
      [1; -1; -1] None /\
  eqb (nth 0 (first_buffer (modify [1; 1; -1] [1; -1; -1] 600 300 5847)) 0)
    1 = false.
Proof. vm_compute. split; reflexivity. Qed.

Lemma odd_length_outcome_witness :
  List.length [1; 1; -1; -1; 1] = List.length [1; -1; -1; 1; 1] /\
  Nat.odd (List.length [1; 1; -1; -1; 1]) = true /\
  modify [1; 1; -1; -1; 1] [1; -1; -1; 1; 1] 600 300 5847
  = Outcome [1; 1; -1; -1; 1] [1; -1; -1; 1; 1]
      (Some (ValueError "operands could not be broadcast together")).
Proof.
  split; [reflexivity |]. split; [reflexivity |].
  refine (proj1 (@odd_length_outcome gauss random_sample pi cos sin
                   [1; 1; -1; -1; 1] [1; -1; -1; 1; 1] 600 300 5847
                   eq_refl eq_refl) _).
  cbn. discriminate.
Defined.

End Binary64Cases.

(* ================================================================== *)
(** ** One synthesized CES on the stand-ins *)

Module ScanCases.

Import Scan ScanSpec.

(** The date cursor after slot 0 of the sample strategy, next to the date
    the specification announces (C2): the reset date plus [num_pts] sample
    periods plus one day. *)
Definition cursor_and_expected (language : string) : result (Q * Q) :=
  let self := Sample.strategy language in
  r <- run_one_scan Sample.pi Sample.cos Sample.ephem_hours
         Sample.sidereal_time Sample.datetime_str Sample.radec_of self 0 ;;
  lst <- lst_bounds Sample.pi Sample.ephem_hours self 0 ;;
  Ok (date (telescope_location (fst r)),
      reset_date Sample.pi Sample.sidereal_time self (fst lst)
      + inject_Z (num_pts_of self (fst lst) (snd lst))
        * (ephem_second / sampling_freq self)
      + 1).

Definition cursor_as_specified (language : string) : bool :=
  match cursor_and_expected language with
  | Ok (cursor, expected) => Qeq_bool cursor expected
  | Raise _ => true
  end.

(** The excess of the cursor over the specified date, in sample periods. *)
Definition cursor_excess (language : string) : result Q :=
  cc <- cursor_and_expected language ;;
  Ok (Qred ((fst cc - snd cc) / (ephem_second / (1 # 3000)))).

(** C2, as stated, fails: on a CES of 5 samples the cursor ends one sample
    period later than specified, under the C and under the fortran
    backend. *)
Lemma cursor_advance_exceeds_duration :
  cursor_as_specified "C" = false /\
  cursor_as_specified "fortran" = false /\
  cursor_excess "C" = Ok 1 /\
  cursor_excess "fortran" = Ok 1.
Proof. vm_compute. repeat split. Qed.

Lemma date_cursor_advance_witness :
  exists self' f begin_ end_,
    Sample.scan "C" = Ok (self', f) /\
    lst_bounds Sample.pi Sample.ephem_hours (Sample.strategy "C") 0
    = Ok (begin_, end_) /\
    date (telescope_location self')
    == reset_date Sample.pi Sample.sidereal_time (Sample.strategy "C")
         begin_
       + (inject_Z (num_pts_of (Sample.strategy "C") begin_ end_) + 1)
         * (ephem_second / (1 # 3000))
       + 1.
Proof.
  destruct (Sample.scan "C") as [[self' f] |] eqn:Hr;
    [| vm_compute in Hr; discriminate Hr].
  destruct (@date_cursor_advance Sample.pi Sample.cos Sample.ephem_hours
              Sample.sidereal_time Sample.datetime_str Sample.radec_of
              (Sample.strategy "C") self' 0 f
              ltac:(left; reflexivity) Hr) as (begin_ & end_ & Hb & Hd).
  exists self', f, begin_, end_.
  split; [reflexivity |]. split; [exact Hb |]. exact Hd.
Defined.

Lemma first_sample_radec_unset_witness :
  exists self' f,
    Sample.scan "python" = Ok (self', f) /\
    nth 0 (RA f) 0 = 0 /\ nth 0 (Dec f) 0 = 0 /\
    nth 1 (RA f) 0 <> 0.
Proof.
  destruct (Sample.scan "python") as [[self' f] |] eqn:Hr;
    [| vm_compute in Hr; discriminate Hr].
  destruct (first_sample_radec_unset Sample.pi Sample.cos Sample.ephem_hours
              Sample.sidereal_time Sample.datetime_str Sample.radec_of
              (Sample.strategy "python") 0 Hr) as (_ & _ & Hra & Hdec).
  exists self', f.
  split; [reflexivity |]. split; [exact Hra |]. split; [exact Hdec |].
  vm_compute in Hr. injection Hr as _ <-. cbn [RA nth]. discriminate.
Defined.

Lemma azimuth_bounded_witness :
  exists self' f,
    Sample.scan "C" = Ok (self', f) /\
    Forall
      (fun a => exists deg,
           a = deg * Sample.pi / 180 /\
           (1442263 # 10000) - (20 / (433 # 500)) / 2
           - (1 # 1000) / (433 # 500) / (1 # 3000) <= deg /\
           deg <= (1442263 # 10000) + (20 / (433 # 500)) / 2
                  + (1 # 1000) / (433 # 500) / (1 # 3000))
      (azimuth f).
Proof.
  destruct (Sample.scan "C") as [[self' f] |] eqn:Hr;
    [| vm_compute in Hr; discriminate Hr].
  exists self', f. split; [reflexivity |].
  pose proof (@azimuth_bounded Sample.pi Sample.cos Sample.ephem_hours
                Sample.sidereal_time Sample.datetime_str Sample.radec_of
                (Sample.strategy "C") self' 0 f
                30 (1342263 # 10000) (1542263 # 10000)
                eq_refl eq_refl eq_refl) as H.
  cbv zeta in H.
  assert (Hwin : (1342263 # 10000) <= (1542263 # 10000)) by (vm_compute; discriminate).
  assert (Hcos : 0 < Sample.cos (30 / radToDeg Sample.pi)) by reflexivity.
  assert (Hsf : 0 < sampling_freq (Sample.strategy "C")) by reflexivity.
  assert (Hsky : 0 <= sky_speed (Sample.strategy "C")) by (vm_compute; discriminate).
  assert (Hlang : In (language (Sample.strategy "C"))
                    ["python"; "C"; "fortran"]%string)
    by (right; left; reflexivity).
  specialize (H Hwin Hcos Hsf Hsky Hlang Hr).
  eapply Forall_impl; [| exact H].
  intros a [deg [E [Hlo Hhi]]]. exists deg. split; [exact E |].
  split.
  - eapply Qle_trans; [| exact Hlo]. vm_compute. discriminate.
  - eapply Qle_trans; [exact Hhi |]. vm_compute. discriminate.
Defined.

End ScanCases.

(* ================================================================== *)
(** ** The focal-plane convolution on the 12-pixel sky *)

Module FocalPlaneCases.

Import FocalPlane FocalPlaneSpec QFacts.

Definition convolve :=
  convolve_focalplane Healpix1.pi Healpix1.sin Sample.npix2nside
    Healpix1.nside2resol_arcmin Healpix1.pix2ang Healpix1.ang2pix
    Sample.convolve_f.











End FocalPlaneCases.

(* ================================================================== *)
(** ** The record of one CES *)

Module ScanRecordSpec.

Import Scan ScanSpec QFacts.

(** What both loops do to the running azimuth, the direction and the
    azimuth and time arrays. *)
Definition track (s : LoopState) : Q * Q * list Q * list Q :=
  (running_az s, pb_az_dir s, pb_az_array s, pb_mjd_array s).

Definition track_step (upper lower speed second sampling_freq : Q)
    (v : Q * Q * list Q * list Q) (t : nat) : Q * Q * list Q * list Q :=
  let '(running, dir, az, mjd) := v in
  let dir' := next_dir running upper lower dir in
  (running + speed * dir' / sampling_freq, dir', set_nth t running az,
   set_nth t (nth (t - 1) mjd 0 + second / sampling_freq) mjd).

Lemma track_c_loop (upper lower speed second sampling_freq : Q)
    (l : list nat) (s : LoopState) :
  track (fold_left (c_step upper lower speed second sampling_freq) l s)
  = fold_left (track_step upper lower speed second sampling_freq) l (track s).
Proof.
  revert s. induction l as [| t l IH]; intros s; [reflexivity |].
  cbn [fold_left]. rewrite IH. reflexivity.
Qed.

Lemma track_python_loop (pi : Q) (radec_of : Observer -> Q -> Q -> Q * Q)
    (el upper lower speed sampling_freq : Q) (l : list nat) (s : LoopState) :
  track (fold_left (python_step pi radec_of el upper lower speed sampling_freq)
           l s)
  = fold_left (track_step upper lower speed ephem_second sampling_freq) l
      (track s).
Proof.
  revert s. induction l as [| t l IH]; intros s; [reflexivity |].
  cbn [fold_left]. rewrite IH. reflexivity.
Qed.

Lemma last_nth (l : list Q) (d : Q) :
  last l d = nth (List.length l - 1) l d.
Proof.
  induction l as [| x l IH]; [reflexivity |].
  destruct l as [| y l]; [reflexivity |].
  change (last (x :: y :: l) d) with (last (y :: l) d). rewrite IH.
  cbn [List.length Nat.sub nth]. now rewrite Nat.sub_0_r.
Qed.

Section Track.

Variables upper lower speed second sampling_freq mjd0 az0 : Q.
Variable n : nat.

Local Abbreviation stp := (speed / sampling_freq).
Local Abbreviation dt := (second / sampling_freq).

(** Invariant of the loop at the head of iteration [t]. *)
Definition track_inv (t : nat) (v : Q * Q * list Q * list Q) : Prop :=
  let '(running, dir, az, mjd) := v in
  List.length az = n /\ List.length mjd = n /\
  (dir = 1 \/ dir = -1) /\
  (forall j, (j < t)%nat -> nth j mjd 0 == mjd0 + inject_Z (Z.of_nat j) * dt) /\
  nth 0 az 0 = az0 /\
  (running - nth (t - 1) az 0 == stp \/ running - nth (t - 1) az 0 == - stp) /\
  (forall j, (S j < t)%nat ->
     nth (S j) az 0 - nth j az 0 == stp \/ nth (S j) az 0 - nth j az 0 == - stp).

Lemma track_step_inv (t : nat) (v : Q * Q * list Q * list Q) :
  (1 <= t < n)%nat -> track_inv t v ->
  track_inv (S t) (track_step upper lower speed second sampling_freq v t).
Proof.
  destruct v as [[[running dir] az] mjd]. unfold track_inv, track_step.
  intros Ht (La & Lm & Hd & Hm & H0 & Hr & Hz).
  assert (Hd' : next_dir running upper lower dir = 1
                \/ next_dir running upper lower dir = -1).
  { unfold next_dir.
    destruct (negb (Qle_bool running upper)); [now right |].
    destruct (negb (Qle_bool lower running)); [now left | exact Hd]. }
  rewrite !set_nth_length.
  split; [exact La |]. split; [exact Lm |]. split; [exact Hd' |].
  split; [| split; [| split]].
  - intros j Hj. destruct (Nat.eq_dec j t) as [-> | Hne].
    + rewrite nth_set_nth_eq by lia.
      rewrite (Hm (t - 1)%nat) by lia.
      replace (Z.of_nat t) with (Z.of_nat (t - 1) + 1)%Z by lia.
      rewrite inject_Z_plus. ring.
    + rewrite nth_set_nth_neq by congruence. apply Hm. lia.
  - rewrite nth_set_nth_neq by lia. exact H0.
  - replace (S t - 1)%nat with t by lia.
    rewrite nth_set_nth_eq by lia.
    destruct Hd' as [-> | ->]; [left | right]; unfold Qdiv; ring.
  - intros j Hj. destruct (Nat.eq_dec (S j) t) as [E | Hne].
    + rewrite <- E at 1. rewrite E. rewrite nth_set_nth_eq by lia.
      rewrite nth_set_nth_neq by lia.
      replace j with (t - 1)%nat by lia. exact Hr.
    + rewrite !nth_set_nth_neq by lia. apply Hz. lia.
Qed.

Lemma track_loop_inv (v : Q * Q * list Q * list Q) :
  (1 <= n)%nat -> track_inv 1 v ->
  track_inv n
    (fold_left (track_step upper lower speed second sampling_freq)
       (seq 1 (n - 1)) v).
Proof.
  intros Hn H0.
  replace n with (1 + (n - 1))%nat at 1 by lia.
  apply (fold_seq_inv (track_step upper lower speed second sampling_freq)
           track_inv); [exact H0 |].
  intros t s Ht. apply track_step_inv. lia.
Qed.

End Track.

Lemma nth_map_in_range (g : Q -> Q) (l : list Q) (t : nat) (d d' : Q) :
  (t < List.length l)%nat -> nth t (map g l) d = g (nth t l d').
Proof.
  intros H. rewrite (nth_indep _ d (g d')) by (now rewrite length_map).
  apply map_nth.
Qed.

Section RaDec.

Variable pi : Q.
Variable radec_of : Observer -> Q -> Q -> Q * Q.
Variables el upper lower speed sampling_freq d0 : Q.
Variable site : Observer.
Variable n : nat.

Local Abbreviation pstep :=
  (python_step pi radec_of el upper lower speed sampling_freq).

Definition same_site (o : Observer) : Prop :=
  long o = long site /\ lat o = lat site /\
  obs_elevation o = obs_elevation site.

(** The observer at sample [j]: the site, [j] sample periods after [d0]. *)
Definition at_sample (j : nat) (o : Observer) : Prop :=
  same_site o /\
  date o == d0 + inject_Z (Z.of_nat j) * (ephem_second / sampling_freq).

Definition radec_inv (t : nat) (s : LoopState) : Prop :=
  List.length (pb_az_array s) = n /\
  List.length (pb_ra_array s) = n /\
  List.length (pb_dec_array s) = n /\
  at_sample t (location s) /\
  forall j, (1 <= j < t)%nat ->
    exists o, at_sample j o /\
      nth j (pb_ra_array s) 0
      = fst (radec_of o (nth j (pb_az_array s) 0 * pi / 180) (el * pi / 180))
      /\ nth j (pb_dec_array s) 0
         = snd (radec_of o (nth j (pb_az_array s) 0 * pi / 180)
                  (el * pi / 180)).

Lemma python_step_radec (t : nat) (s : LoopState) :
  (1 <= t < n)%nat -> radec_inv t s -> radec_inv (S t) (pstep s t).
Proof.
  unfold radec_inv. intros Ht (La & Lr & Ld & [Hs Hdate] & Hj).
  cbn [python_step pb_az_array pb_ra_array pb_dec_array location].
  rewrite !set_nth_length.
  split; [exact La |]. split; [exact Lr |]. split; [exact Ld |]. split.
  - split; [exact Hs |]. cbn [set_date date]. rewrite Hdate.
    replace (Z.of_nat (S t)) with (Z.of_nat t + 1)%Z by lia.
    rewrite inject_Z_plus. ring.
  - intros j Hjt. destruct (Nat.eq_dec j t) as [-> | Hne].
    + exists (location s). split; [split; assumption |].
      rewrite !nth_set_nth_eq by lia. split; reflexivity.
    + destruct (Hj j ltac:(lia)) as (o & Ho & Hra & Hdec).
      exists o. split; [exact Ho |].
      rewrite !nth_set_nth_neq by congruence. split; assumption.
Qed.

Lemma python_loop_radec (s : LoopState) :
  (1 <= n)%nat -> radec_inv 1 s ->
  radec_inv n (fold_left pstep (seq 1 (n - 1)) s).
Proof.
  intros Hn H0.
  replace n with (1 + (n - 1))%nat at 1 by lia.
  apply (fold_seq_inv pstep radec_inv); [exact H0 |].
  intros t s' Ht. apply python_step_radec. lia.
Qed.

End RaDec.

(** Neither loop changes the length of an array. *)
Definition lens (s : LoopState) : nat * nat * nat * nat :=
  (List.length (pb_az_array s), List.length (pb_mjd_array s),
   List.length (pb_ra_array s), List.length (pb_dec_array s)).

Lemma python_loop_lens (pi : Q) (radec_of : Observer -> Q -> Q -> Q * Q)
    (el upper lower speed sampling_freq : Q) (l : list nat) (s : LoopState) :
  lens (fold_left (python_step pi radec_of el upper lower speed sampling_freq)
          l s) = lens s.
Proof.
  revert s. induction l as [| t l IH]; intros s; [reflexivity |].
  cbn [fold_left]. rewrite IH. unfold lens.
  cbn [python_step pb_az_array pb_mjd_array pb_ra_array pb_dec_array].
  now rewrite !set_nth_length.
Qed.

Lemma c_loop_lens (upper lower speed second sampling_freq : Q)
    (l : list nat) (s : LoopState) :
  lens (fold_left (c_step upper lower speed second sampling_freq) l s)
  = lens s.
Proof.
  revert s. induction l as [| t l IH]; intros s; [reflexivity |].
  cbn [fold_left]. rewrite IH. unfold lens.
  cbn [c_step pb_az_array pb_mjd_array pb_ra_array pb_dec_array].
  now rewrite !set_nth_length.
Qed.

(** The instance with another [language] attribute. *)
Definition with_language (s : ScanningStrategy) (l : string)
  : ScanningStrategy :=
  {| nces := nces s; start_date := start_date s;
     name_strategy := name_strategy s; sampling_freq := sampling_freq s;
     sky_speed := sky_speed s; language := l;
     ut1utc_fn := ut1utc_fn s; telescope_location := telescope_location s;
     allowed_scanning_strategies := allowed_scanning_strategies s;
     elevation := elevation s; az_min := az_min s; az_max := az_max s;
     begin_LST := begin_LST s; end_LST := end_LST s;
     ra_mid := ra_mid s; dec_mid := dec_mid s |}.

Section Record.

Variable pi : Q.
Variable cos : Q -> Q.
Variable ephem_hours : string -> Q.
Variable ephem_Date : string -> Q.
Variable sidereal_time : Observer -> Q.
Variable datetime_str : Q -> string.
Variable radec_of : Observer -> Q -> Q -> Q * Q.

Local Abbreviation run_scan :=
  (run_one_scan pi cos ephem_hours sidereal_time datetime_str radec_of).
Local Abbreviation run_all :=
  (run pi cos ephem_hours ephem_Date sidereal_time datetime_str radec_of).
Local Abbreviation bounds := (lst_bounds pi ephem_hours).
Local Abbreviation reset := (reset_date pi sidereal_time).

(** The geometry of slot [el, azmin, azmax]: centre, upper and lower bound
    of the window, azimuth speed. *)
Definition az_mean_of (azmin azmax : Q) : Q := (azmin + azmax) * (1 # 2).
Definition upper_of (el azmin azmax : Q) : Q :=
  az_mean_of azmin azmax + (azmax - azmin) / cos (el / radToDeg pi) / 2.
Definition lower_of (el azmin azmax : Q) : Q :=
  az_mean_of azmin azmax - (azmax - azmin) / cos (el / radToDeg pi) / 2.
Definition az_speed_of (self : ScanningStrategy) (el : Q) : Q :=
  sky_speed self / cos (el / radToDeg pi).

(** The loop state on entry: sample 0 written, the cursor one period past
    the reset date. *)
Definition entry_state (self : ScanningStrategy) (el azmin azmax begin_ mjd0 : Q)
    (n : nat) : LoopState :=
  {| running_az :=
       az_mean_of azmin azmax + az_speed_of self el * 1 / sampling_freq self;
     pb_az_dir := 1;
     pb_az_array := set_nth 0 (az_mean_of azmin azmax) (repeat 0 n);
     pb_mjd_array := set_nth 0 mjd0 (repeat 0 n);
     pb_ra_array := repeat 0 n;
     pb_dec_array := repeat 0 n;
     location :=
       set_date (set_date (telescope_location self) (reset self begin_))
         (reset self begin_ + ephem_second / sampling_freq self) |}.

(** The loop state on exit, by backend. *)
Definition exit_state (self : ScanningStrategy) (el azmin azmax begin_ mjd0 : Q)
    (n : nat) : LoopState :=
  let s0 := entry_state self el azmin azmax begin_ mjd0 n in
  let upper := upper_of el azmin azmax in
  let lower := lower_of el azmin azmax in
  let speed := az_speed_of self el in
  if (language self =? "python")%string then
    fold_left (python_step pi radec_of el upper lower speed (sampling_freq self))
      (seq 1 (n - 1)) s0
  else if (language self =? "C")%string then
    fold_left (c_step upper lower speed (1 / 24 / 3600) (sampling_freq self))
      (seq 1 (n - 1)) s0
  else if (language self =? "fortran")%string then
    run_one_scan_f upper lower speed (1 / 24 / 3600) (sampling_freq self) n s0
  else s0.

(** The [scan_file] saved from the loop state [s1]. *)
Definition scan_record (self : ScanningStrategy) (scan_number : nat)
    (el mjd0 : Q) (n : nat) (s1 : LoopState) : ScanFile :=
  {| firstmjd := mjd0 - 10 / 86400;
     sf_nces := nces self;
     CES := scan_number;
     sample_rate := sampling_freq self;
     sf_sky_speed := sky_speed self;
     lastmjd := last (pb_mjd_array s1) 0 + 10 / 86400;
     azimuth := map (fun a => a * pi / 180) (pb_az_array s1);
     sf_elevation := map (fun a => a * pi / 180) (repeat el n);
     clock_utc := pb_mjd_array s1;
     RA := pb_ra_array s1;
     Dec := pb_dec_array s1;
     nts := List.length (pb_mjd_array s1) |}.

Ltac invert_bind H x :=
  match type of H with
  | bind ?r _ = Ok _ =>
      destruct r as [x |] eqn:?; cbn [bind] in H; [| discriminate H]
  end.

(** What a successful [run_one_scan] went through. *)
Lemma run_one_scan_inv (self self' : ScanningStrategy) (scan_number : nat)
    (f : ScanFile) :
  run_scan self scan_number = Ok (self', f) ->
  exists el azmin azmax begin_ end_ mjd0 n,
    index (elevation self) scan_number = Ok el /\
    index (az_min self) scan_number = Ok azmin /\
    index (az_max self) scan_number = Ok azmax /\
    bounds self scan_number = Ok (begin_, end_) /\
    num_pts_of self begin_ end_ = Z.of_nat n /\ (1 <= n)%nat /\
    date_to_mjd datetime_str (reset self begin_) = Ok mjd0 /\
    (exists loc, self' = set_location self loc) /\
    f = scan_record self scan_number el mjd0 n
          (exit_state self el azmin azmax begin_ mjd0 n).
Proof.
  intros H. unfold run_one_scan in H.
  invert_bind H el. invert_bind H azmin. invert_bind H azmax.
  invert_bind H lst. destruct lst as [begin_ end_].
  set (np := num_pts_of self begin_ end_) in *.
  destruct (np <? 0)%Z eqn:Hneg; [discriminate H |].
  destruct (Z.to_nat np =? 0)%nat eqn:Hz; [discriminate H |].
  apply Z.ltb_ge in Hneg. apply Nat.eqb_neq in Hz.
  invert_bind H mjd0.
  exists el, azmin, azmax, begin_, end_, mjd0, (Z.to_nat np).
  repeat (split; [first [reflexivity | assumption | lia] |]).
  injection H as <- <-.
  assert (E0 : nth 0 (set_nth 0 mjd0 (repeat 0 (Z.to_nat np))) 0 = mjd0).
  { apply nth_set_nth_eq. rewrite repeat_length. lia. }
  split; [eexists; reflexivity |].
  cbv zeta. rewrite E0. reflexivity.
Qed.

(** The converse: with the slot in the tables, at least one sample and a
    readable reset date, the CES is generated. *)
Lemma run_one_scan_complete (self : ScanningStrategy) (scan_number : nat)
    (el azmin azmax begin_ end_ mjd0 : Q) (n : nat) :
  index (elevation self) scan_number = Ok el ->
  index (az_min self) scan_number = Ok azmin ->
  index (az_max self) scan_number = Ok azmax ->
  bounds self scan_number = Ok (begin_, end_) ->
  num_pts_of self begin_ end_ = Z.of_nat n -> (1 <= n)%nat ->
  date_to_mjd datetime_str (reset self begin_) = Ok mjd0 ->
  exists self',
    run_scan self scan_number
    = Ok (self', scan_record self scan_number el mjd0 n
                   (exit_state self el azmin azmax begin_ mjd0 n)).
Proof.
  intros He Hmin Hmax Hb Hn H1 Hm. unfold run_one_scan.
  rewrite He, Hmin, Hmax, Hb. cbn [bind]. rewrite Hn.
  destruct (Z.of_nat n <? 0)%Z eqn:Hneg; [apply Z.ltb_lt in Hneg; lia |].
  rewrite Nat2Z.id.
  destruct (n =? 0)%nat eqn:Hz; [apply Nat.eqb_eq in Hz; lia |].
  cbn [set_date date]. rewrite Hm. cbn [bind].
  assert (E0 : nth 0 (set_nth 0 mjd0 (repeat 0 n)) 0 = mjd0).
  { apply nth_set_nth_eq. rewrite repeat_length. lia. }
  cbv zeta. rewrite E0. eexists. reflexivity.
Qed.

Lemma entry_track_inv (self : ScanningStrategy)
    (el azmin azmax begin_ mjd0 : Q) (n : nat) :
  (1 <= n)%nat ->
  track_inv (az_speed_of self el) ephem_second (sampling_freq self) mjd0
    (az_mean_of azmin azmax) n 1
    (track (entry_state self el azmin azmax begin_ mjd0 n)).
Proof.
  intros Hn. unfold track_inv, track, entry_state.
  cbn [running_az pb_az_dir pb_az_array pb_mjd_array].
  rewrite !set_nth_length, !repeat_length.
  split; [reflexivity |]. split; [reflexivity |]. split; [now left |].
  assert (Ea : nth 0 (set_nth 0 (az_mean_of azmin azmax) (repeat 0 n)) 0
               = az_mean_of azmin azmax)
    by (apply nth_set_nth_eq; rewrite repeat_length; lia).
  split; [| split; [exact Ea | split]].
  - intros j Hj. assert (j = 0%nat) by lia. subst j.
    rewrite nth_set_nth_eq by (rewrite repeat_length; lia).
    cbn [Z.of_nat]. ring.
  - left. cbn [Nat.sub]. rewrite Ea. unfold Qdiv. ring.
  - intros j Hj. lia.
Qed.

(** Under the python and the compiled backend the loop leaves the invariant
    at [n]. *)
Lemma exit_track_inv (self : ScanningStrategy)
    (el azmin azmax begin_ mjd0 : Q) (n : nat) :
  (1 <= n)%nat ->
  In (language self) ["python"; "C"]%string ->
  track_inv (az_speed_of self el) ephem_second (sampling_freq self) mjd0
    (az_mean_of azmin azmax) n n
    (track (exit_state self el azmin azmax begin_ mjd0 n)).
Proof.
  intros Hn Hlang.
  pose proof (@track_loop_inv (upper_of el azmin azmax)
                (lower_of el azmin azmax) _ _ _ _ _ _ _ Hn
                (entry_track_inv self el azmin azmax begin_ mjd0 Hn)) as I.
  unfold exit_state.
  cbn [In] in Hlang. destruct Hlang as [<- | [<- | []]].
  - cbn [String.eqb Ascii.eqb Bool.eqb]. rewrite track_python_loop. exact I.
  - cbn [String.eqb Ascii.eqb Bool.eqb]. rewrite track_c_loop. exact I.
Qed.

Lemma exit_lens (self : ScanningStrategy)
    (el azmin azmax begin_ mjd0 : Q) (n : nat) :
  lens (exit_state self el azmin azmax begin_ mjd0 n) = (n, n, n, n).
Proof.
  assert (E : lens (entry_state self el azmin azmax begin_ mjd0 n)
              = (n, n, n, n)).
  { unfold lens, entry_state.
    cbn [pb_az_array pb_mjd_array pb_ra_array pb_dec_array].
    now rewrite !set_nth_length, !repeat_length. }
  unfold exit_state.
  destruct (language self =? "python")%string;
    [now rewrite python_loop_lens |].
  destruct (language self =? "C")%string; [now rewrite c_loop_lens |].
  destruct (language self =? "fortran")%string; [| exact E].
  unfold run_one_scan_f. now rewrite c_loop_lens.
Qed.

(** X1.  Under the python and the compiled backend the samples of a CES are
    time-stamped at a fixed cadence: sample [t] carries the MJD of the reset
    date plus [t] sample periods, and [firstmjd] and [lastmjd] are the first
    and the last time stamp moved 10 seconds outwards. *)
Theorem sample_times (self self' : ScanningStrategy) (scan_number : nat)
    (f : ScanFile) :
  In (language self) ["python"; "C"]%string ->
  run_scan self scan_number = Ok (self', f) ->
  exists begin_ end_ mjd0,
    bounds self scan_number = Ok (begin_, end_) /\
    date_to_mjd datetime_str (reset self begin_) = Ok mjd0 /\
    let dt := ephem_second / sampling_freq self in
    (forall t, (t < nts f)%nat ->
       nth t (clock_utc f) 0 == mjd0 + inject_Z (Z.of_nat t) * dt) /\
    firstmjd f == mjd0 - 10 * ephem_second /\
    lastmjd f
    == mjd0 + inject_Z (Z.of_nat (nts f - 1)) * dt + 10 * ephem_second.
Proof.
  intros Hlang H.
  apply run_one_scan_inv in H. destruct H
    as (el & azmin & azmax & begin_ & end_ & mjd0 & n & _ & _ & _ & Hb & _
        & Hn & Hm & _ & Hf).
  exists begin_, end_, mjd0. split; [exact Hb |]. split; [exact Hm |].
  subst f. cbn [scan_record nts clock_utc firstmjd lastmjd].
  pose proof (exit_track_inv self el azmin azmax begin_ mjd0 Hn Hlang) as I.
  unfold track_inv, track in I. destruct I as (_ & Lm & _ & Ht & _).
  assert (E : 10 / 86400 == 10 * ephem_second) by (now vm_compute).
  rewrite Lm. cbv zeta. split; [exact Ht |]. split.
  - now rewrite E.
  - rewrite last_nth, Lm, (Ht (n - 1)%nat), E by lia. reflexivity.
Qed.

(** X2.  In exact arithmetic (floats read as exact rationals, so nothing
    is said of the rounding of the accumulated sums): under the python and
    the compiled backend the azimuth of a CES starts at the centre of the
    window and moves between consecutive samples by one step
    [sky_speed / cos(el) / sampling_freq], in one direction or the other
    (the record holds radians). *)
Theorem azimuth_constant_rate (self self' : ScanningStrategy)
    (scan_number : nat) (f : ScanFile) :
  In (language self) ["python"; "C"]%string ->
  run_scan self scan_number = Ok (self', f) ->
  exists el azmin azmax,
    index (elevation self) scan_number = Ok el /\
    index (az_min self) scan_number = Ok azmin /\
    index (az_max self) scan_number = Ok azmax /\
    let stp :=
      sky_speed self / cos (el / radToDeg pi) / sampling_freq self in
    nth 0 (azimuth f) 0 = (azmin + azmax) * (1 # 2) * pi / 180 /\
    forall j, (S j < nts f)%nat ->
      nth (S j) (azimuth f) 0 - nth j (azimuth f) 0 == stp * pi / 180 \/
      nth (S j) (azimuth f) 0 - nth j (azimuth f) 0 == - (stp * pi / 180).
Proof.
  intros Hlang H.
  apply run_one_scan_inv in H. destruct H
    as (el & azmin & azmax & begin_ & end_ & mjd0 & n & He & Hmin & Hmax & _
        & _ & Hn & _ & _ & Hf).
  exists el, azmin, azmax. repeat (split; [assumption |]).
  subst f. cbn [scan_record nts azimuth].
  pose proof (exit_track_inv self el azmin azmax begin_ mjd0 Hn Hlang) as I.
  unfold track_inv, track in I.
  destruct I as (La & Lm & _ & _ & H0 & _ & Hz).
  rewrite Lm. cbv zeta. split.
  - rewrite (@nth_map_in_range _ _ 0%nat 0 0) by lia. now rewrite H0.
  - intros j Hj.
    rewrite (@nth_map_in_range _ _ (S j) 0 0), (@nth_map_in_range _ _ j 0 0)
      by lia.
    destruct (Hz j Hj) as [E | E];
      set (a := nth (S j) _ 0) in *; set (b := nth j _ 0) in *;
      [left | right];
      (setoid_replace (a * pi / 180 - b * pi / 180)
         with ((a - b) * pi / 180) by (unfold Qdiv; ring));
      rewrite E; unfold az_speed_of, Qdiv; ring.
Qed.

(** X3.  Whatever the backend, the five per-sample arrays of a generated
    CES have the same length [nts], which is the sample count
    [int((end_LST - begin_LST) * sidDayToSec * sampling_freq)] and at least
    one, and the elevation array is constant. *)
Theorem record_lengths (self self' : ScanningStrategy) (scan_number : nat)
    (f : ScanFile) :
  run_scan self scan_number = Ok (self', f) ->
  exists el begin_ end_,
    index (elevation self) scan_number = Ok el /\
    bounds self scan_number = Ok (begin_, end_) /\
    Z.of_nat (nts f) = num_pts_of self begin_ end_ /\
    (1 <= nts f)%nat /\
    List.length (azimuth f) = nts f /\
    List.length (clock_utc f) = nts f /\
    List.length (RA f) = nts f /\
    List.length (Dec f) = nts f /\
    sf_elevation f = repeat (el * pi / 180) (nts f).
Proof.
  intros H.
  apply run_one_scan_inv in H. destruct H
    as (el & azmin & azmax & begin_ & end_ & mjd0 & n & He & _ & _ & Hb
        & Hnp & Hn & _ & _ & Hf).
  exists el, begin_, end_. split; [exact He |]. split; [exact Hb |].
  subst f. cbn [scan_record nts azimuth clock_utc RA Dec sf_elevation].
  pose proof (exit_lens self el azmin azmax begin_ mjd0 n) as L.
  unfold lens in L. injection L as La Lm Lr Ld.
  rewrite length_map, La, Lm, Lr, Ld, map_repeat.
  repeat split; auto.
Qed.

(** X4.  In exact arithmetic (floats read as exact rationals): where the
    python backend generates a CES, the C backend generates one too, and
    six fields of the two records are equal: azimuth, clock-utc, elevation,
    firstmjd, lastmjd and nts.  Nothing is said of RA and Dec, nor of the
    date cursor the two calls leave on the observer. *)
Theorem backends_agree (self self' : ScanningStrategy) (scan_number : nat)
    (f : ScanFile) :
  language self = "python"%string ->
  run_scan self scan_number = Ok (self', f) ->
  exists self_c f_c,
    run_scan (with_language self "C") scan_number = Ok (self_c, f_c) /\
    azimuth f_c = azimuth f /\
    clock_utc f_c = clock_utc f /\
    sf_elevation f_c = sf_elevation f /\
    firstmjd f_c = firstmjd f /\
    lastmjd f_c = lastmjd f /\
    nts f_c = nts f.
Proof.
  intros Hlang H.
  apply run_one_scan_inv in H. destruct H
    as (el & azmin & azmax & begin_ & end_ & mjd0 & n & He & Hmin & Hmax & Hb
        & Hnp & Hn & Hm & _ & Hf).
  destruct (@run_one_scan_complete (with_language self "C") scan_number
              el azmin azmax begin_ end_ mjd0 n He Hmin Hmax Hb Hnp Hn Hm)
    as [self_c Hc].
  eexists self_c, _. split; [exact Hc |]. subst f.
  assert (T : track (exit_state (with_language self "C") el azmin azmax
                       begin_ mjd0 n)
              = track (exit_state self el azmin azmax begin_ mjd0 n)).
  { unfold exit_state. rewrite Hlang.
    cbn [with_language language String.eqb Ascii.eqb Bool.eqb].
    rewrite track_python_loop, track_c_loop. reflexivity. }
  unfold track in T. injection T as _ _ Ta Tm.
  cbn [scan_record azimuth clock_utc sf_elevation firstmjd lastmjd nts].
  rewrite Ta, Tm. repeat split.
Qed.

(** X5.  The compiled backend never computes sky coordinates: the RA and
    Dec arrays of its record are all zeros. *)
Theorem c_backend_radec_zero (self self' : ScanningStrategy)
    (scan_number : nat) (f : ScanFile) :
  language self = "C"%string ->
  run_scan self scan_number = Ok (self', f) ->
  RA f = repeat 0 (nts f) /\ Dec f = repeat 0 (nts f).
Proof.
  intros Hlang H.
  apply run_one_scan_inv in H. destruct H
    as (el & azmin & azmax & begin_ & end_ & mjd0 & n & _ & _ & _ & _
        & _ & _ & _ & _ & Hf).
  subst f. cbn [scan_record nts RA Dec].
  pose proof (exit_lens self el azmin azmax begin_ mjd0 n) as L.
  unfold lens in L. injection L as _ Lm _ _. rewrite Lm.
  unfold exit_state. rewrite Hlang. cbn [String.eqb Ascii.eqb Bool.eqb].
  apply c_loop_radec.
Qed.

(** X6.  Under the python backend every sample after the first carries the
    sky coordinates [radec_of] computes at the site for that sample's own
    azimuth and elevation, with the date [t] sample periods after the reset
    date. *)
Theorem python_radec_samples (self self' : ScanningStrategy)
    (scan_number : nat) (f : ScanFile) :
  language self = "python"%string ->
  run_scan self scan_number = Ok (self', f) ->
  exists begin_ end_,
    bounds self scan_number = Ok (begin_, end_) /\
    forall t, (1 <= t < nts f)%nat ->
      exists o,
        long o = long (telescope_location self) /\
        lat o = lat (telescope_location self) /\
        obs_elevation o = obs_elevation (telescope_location self) /\
        date o
        == reset self begin_
           + inject_Z (Z.of_nat t) * (ephem_second / sampling_freq self) /\
        (nth t (RA f) 0, nth t (Dec f) 0)
        = radec_of o (nth t (azimuth f) 0) (nth t (sf_elevation f) 0).
Proof.
  intros Hlang H.
  apply run_one_scan_inv in H. destruct H
    as (el & azmin & azmax & begin_ & end_ & mjd0 & n & _ & _ & _ & Hb
        & _ & Hn & _ & _ & Hf).
  exists begin_, end_. split; [exact Hb |].
  subst f. cbn [scan_record nts RA Dec azimuth sf_elevation].
  pose proof (exit_lens self el azmin azmax begin_ mjd0 n) as L.
  unfold lens in L. injection L as La Lm _ _. rewrite Lm.
  assert (I : radec_inv pi radec_of el (sampling_freq self)
                (reset self begin_) (telescope_location self) n n
                (exit_state self el azmin azmax begin_ mjd0 n)).
  { unfold exit_state. rewrite Hlang. cbn [String.eqb Ascii.eqb Bool.eqb].
    apply python_loop_radec; [exact Hn |].
    unfold radec_inv, entry_state.
    cbn [pb_az_array pb_ra_array pb_dec_array location].
    rewrite set_nth_length, !repeat_length.
    repeat (split; [reflexivity |]). split.
    - split; [repeat split |]. cbn [set_date date Z.of_nat]. ring.
    - intros j Hj. lia. }
  destruct I as (_ & _ & _ & _ & Hj).
  intros t Ht. destruct (Hj t Ht) as (o & [(Hlo & Hla & Hel) Hd] & Hra & Hdec).
  exists o. repeat (split; [assumption |]).
  rewrite (@nth_map_in_range _ _ t 0 0) by lia.
  rewrite (@nth_map_in_range _ _ t 0 0) by (rewrite repeat_length; lia).
  rewrite nth_repeat_lt by lia.
  rewrite Hra, Hdec. symmetry. apply surjective_pairing.
Qed.

Lemma turn_bounds (h : Q) :
  0 < pi -> 0 <= h -> h < 2 * pi -> 0 <= h / (2 * pi) /\ h / (2 * pi) < 1.
Proof.
  intros Hpi H0 H1. assert (H2 : 0 < 2 * pi) by lra. split.
  - apply Qle_shift_div_l; [exact H2 | lra].
  - apply Qlt_shift_div_r; [exact H2 | lra].
Qed.

(** X7.  With hours of right ascension inside one turn, the begin of a CES
    is moved a sidereal day back exactly when it would fall after the end:
    the CES lasts between zero and one sidereal day, and its sample count
    is not negative for a sampling frequency that is not. *)
Theorem ces_within_one_day (self : ScanningStrategy) (scan_number : nat)
    (begin_ end_ : Q) :
  0 < pi ->
  (forall s, 0 <= ephem_hours s /\ ephem_hours s < 2 * pi) ->
  bounds self scan_number = Ok (begin_, end_) ->
  0 <= end_ - begin_ /\ end_ - begin_ < 1 /\
  (0 <= sampling_freq self -> (0 <= num_pts_of self begin_ end_)%Z).
Proof.
  intros Hpi Hh H. unfold lst_bounds in H.
  invert_bind H bs. invert_bind H es. cbv zeta in H.
  destruct (Hh bs) as [Hb0 Hb1]. destruct (Hh es) as [He0 He1].
  destruct (turn_bounds Hpi Hb0 Hb1) as [Tb0 Tb1].
  destruct (turn_bounds Hpi He0 He1) as [Te0 Te1].
  set (b0 := ephem_hours bs / (2 * pi)) in *.
  set (e0 := ephem_hours es / (2 * pi)) in *.
  assert (D : 0 <= end_ - begin_ /\ end_ - begin_ < 1).
  { destruct (Qle_bool b0 e0) eqn:Hle; cbn [negb] in H; injection H as <- <-.
    - apply Qle_bool_iff in Hle. split; lra.
    - apply QFacts.Qle_bool_false in Hle. split; lra. }
  destruct D as [D0 D1]. split; [exact D0 |]. split; [exact D1 |].
  intros Hsf. unfold num_pts_of.
  set (x := (end_ - begin_) * sidDayToSec * sampling_freq self).
  assert (Hx : 0 <= x).
  { subst x. apply Qmult_le_0_compat; [| exact Hsf].
    apply Qmult_le_0_compat; [exact D0 |]. unfold sidDayToSec. lra. }
  rewrite QFacts.int_of_float_spec.
  replace (Qle_bool 0 x) with true by (symmetry; now apply Qle_bool_iff).
  change 0%Z with (Qfloor 0). now apply Qfloor_resp_le.
Qed.

(** X8.  A sample count of zero (a sampling period longer than the CES)
    makes [run_one_scan] fail on its first array write, with an
    [IndexError]. *)
Theorem scan_without_samples (self : ScanningStrategy) (scan_number : nat)
    (el azmin azmax begin_ end_ : Q) :
  index (elevation self) scan_number = Ok el ->
  index (az_min self) scan_number = Ok azmin ->
  index (az_max self) scan_number = Ok azmax ->
  bounds self scan_number = Ok (begin_, end_) ->
  num_pts_of self begin_ end_ = 0%Z ->
  run_scan self scan_number = Raise IndexError.
Proof.
  intros He Hmin Hmax Hb Hn. unfold run_one_scan.
  rewrite He, Hmin, Hmax, Hb. cbn [bind]. rewrite Hn. reflexivity.
Qed.

(** The loop of [run] stops at the first CES that fails. *)
Lemma run_loop_raise (l : list nat) (e : PyError) :
  fold_left
    (fun acc CES_position =>
       st <- acc ;;
       r <- run_scan (fst st) CES_position ;;
       Ok (fst r, snd st ++ [(scan_attribute CES_position, snd r)]))
    l (Raise e) = Raise e.
Proof. induction l as [| k l IH]; [reflexivity | exact IH]. Qed.

(** What [k] completed iterations of [run] leave. *)
Lemma run_loop_inv (self0 : ScanningStrategy) (k : nat)
    (s : ScanningStrategy) (attrs : list (string * ScanFile)) :
  fold_left
    (fun acc CES_position =>
       st <- acc ;;
       r <- run_scan (fst st) CES_position ;;
       Ok (fst r, snd st ++ [(scan_attribute CES_position, snd r)]))
    (seq 0 k) (Ok (self0, [])) = Ok (s, attrs) ->
  (exists loc, s = set_location self0 loc) /\
  map fst attrs = map scan_attribute (seq 0 k) /\
  (k <= List.length (elevation self0))%nat /\
  forall j name f, nth_error attrs j = Some (name, f) ->
    CES f = j /\ sf_nces f = nces self0.
Proof.
  revert s attrs. induction k as [| k IH]; intros s attrs H.
  - cbn in H. injection H as <- <-.
    split; [exists (telescope_location self0); now destruct self0 |].
    split; [reflexivity |]. split; [lia |].
    intros [| j] name f Hf; discriminate Hf.
  - rewrite seq_S, fold_left_app in H. cbn [Nat.add fold_left] in H.
    match type of H with
    | bind ?r _ = _ => remember r as r0 eqn:Hk in H
    end.
    symmetry in Hk.
    destruct r0 as [[s1 attrs1] |]; cbn [bind] in H; [| discriminate H].
    destruct (IH _ _ Hk) as ([loc1 Hs1] & Hnames & Hle & Hattrs).
    cbn [fst snd] in H.
    destruct (run_scan s1 k) as [[s2 f2] |] eqn:Hr;
      cbn [bind] in H; [| discriminate H].
    cbn [fst snd] in H. injection H as <- <-.
    apply run_one_scan_inv in Hr. destruct Hr
      as (el & azmin & azmax & begin_ & end_ & mjd0 & n & He & _ & _ & _
          & _ & _ & _ & [loc2 Hs2] & Hf).
    assert (Hlen : List.length attrs1 = k).
    { rewrite <- (length_map fst), Hnames, length_map. apply length_seq. }
    split; [exists loc2; subst s2 s1; reflexivity |].
    split.
    { rewrite map_app, Hnames, seq_S, map_app. reflexivity. }
    split.
    + subst s1. cbn [set_location elevation] in He. unfold index in He.
      destruct (nth_error (elevation self0) k) eqn:Hnth; [| discriminate He].
      assert (k < List.length (elevation self0))%nat
        by (apply nth_error_Some; congruence).
      lia.
    + intros j name f Hj. destruct (Nat.lt_ge_cases j k) as [Hlt | Hge].
      * rewrite nth_error_app1 in Hj by lia. now apply (Hattrs j name).
      * rewrite nth_error_app2 in Hj by lia. rewrite Hlen in Hj.
        destruct (j - k)%nat as [| d] eqn:Hd.
        -- cbn in Hj. injection Hj as _ <-. subst f2 s1.
           cbn [scan_record CES sf_nces set_location nces].
           split; [lia | reflexivity].
        -- destruct d; discriminate Hj.
Qed.



Section Catalogue.

Variable ephem_degrees : string -> Q.
Variable ephem_now : Q.

(** X10.  The [deep_patch] catalogue holds twelve slots: on an instance
    built with more than twelve CESes, [run] raises. *)
Theorem run_beyond_catalogue (nces : nat) (start_date telescope_longitude
    telescope_latitude : string) (telescope_elevation : Q)
    (name_strategy : string) (sampling_freq sky_speed : Q)
    (ut1utc_fn language : string) (self : ScanningStrategy) :
  init ephem_degrees ephem_now nces start_date telescope_longitude
    telescope_latitude telescope_elevation name_strategy sampling_freq
    sky_speed ut1utc_fn language = Ok self ->
  (12 < nces)%nat ->
  exists e, run_all self = Raise e.
Proof.
  intros Hi Hn. unfold init in Hi.
  destruct (name_strategy =? "deep_patch")%string; [| discriminate Hi].
  injection Hi as <-.
  match goal with |- exists e, ?r = _ => destruct r as [[s attrs] |] eqn:H end;
    [| eexists; reflexivity].
  exfalso. unfold run in H. apply run_loop_inv in H.
  destruct H as (_ & _ & Hle & _).
  cbn [set_location deep_patch elevation Scan.nces List.length] in Hle. lia.
Qed.

End Catalogue.

End Record.

End ScanRecordSpec.

(* ================================================================== *)
(** ** The record of one CES on the sample strategy *)

Module ScanRecordCases.

Import Scan ScanSpec ScanRecordSpec.

Definition run_all (self : ScanningStrategy)
  : result (ScanningStrategy * list (string * ScanFile)) :=
  run Sample.pi Sample.cos Sample.ephem_hours Sample.ephem_Date
    Sample.sidereal_time Sample.datetime_str Sample.radec_of self.

(** The sample strategy sampled every 100000 seconds: no sample falls in
    the first CES. *)
Definition sparse : ScanningStrategy :=
  deep_patch 1 "2013/1/1 00:00:00" "deep_patch" (1 # 100000) (1 # 1000)
    "python" "s4cmb/data/ut1utc.ephem"
    (define_telescope_location Sample.ephem_degrees Sample.ephem_now
       "-67:46.816" "-22:56.396" 5200).

Lemma sample_times_witness :
  exists self' f,
    Sample.scan "python" = Ok (self', f) /\
    exists begin_ end_ mjd0,
      lst_bounds Sample.pi Sample.ephem_hours (Sample.strategy "python") 0
      = Ok (begin_, end_) /\
      date_to_mjd Sample.datetime_str
        (reset_date Sample.pi Sample.sidereal_time (Sample.strategy "python")
           begin_) = Ok mjd0 /\
      (forall t, (t < nts f)%nat ->
         nth t (clock_utc f) 0
         == mjd0 + inject_Z (Z.of_nat t) * (ephem_second / (1 # 3000))) /\
      firstmjd f == mjd0 - 10 * ephem_second /\
      lastmjd f
      == mjd0 + inject_Z (Z.of_nat (nts f - 1)) * (ephem_second / (1 # 3000))
         + 10 * ephem_second.
Proof.
  destruct (Sample.scan "python") as [[self' f] |] eqn:Hr;
    [| vm_compute in Hr; discriminate Hr].
  exists self', f. split; [reflexivity |].
  apply (@sample_times Sample.pi Sample.cos Sample.ephem_hours
           Sample.sidereal_time Sample.datetime_str Sample.radec_of
           (Sample.strategy "python") self' 0 f);
    [now left | exact Hr].
Defined.

Lemma azimuth_constant_rate_witness :
  exists self' f,
    Sample.scan "C" = Ok (self', f) /\
    exists el azmin azmax,
      index (elevation (Sample.strategy "C")) 0 = Ok el /\
      index (az_min (Sample.strategy "C")) 0 = Ok azmin /\
      index (az_max (Sample.strategy "C")) 0 = Ok azmax /\
      nth 0 (azimuth f) 0 = (azmin + azmax) * (1 # 2) * Sample.pi / 180 /\
      forall j, (S j < nts f)%nat ->
        nth (S j) (azimuth f) 0 - nth j (azimuth f) 0
        == (1 # 1000) / Sample.cos (el / radToDeg Sample.pi) / (1 # 3000)
           * Sample.pi / 180 \/
        nth (S j) (azimuth f) 0 - nth j (azimuth f) 0
        == - ((1 # 1000) / Sample.cos (el / radToDeg Sample.pi) / (1 # 3000)
              * Sample.pi / 180).
Proof.
  destruct (Sample.scan "C") as [[self' f] |] eqn:Hr;
    [| vm_compute in Hr; discriminate Hr].
  exists self', f. split; [reflexivity |].
  apply (@azimuth_constant_rate Sample.pi Sample.cos Sample.ephem_hours
           Sample.sidereal_time Sample.datetime_str Sample.radec_of
           (Sample.strategy "C") self' 0 f);
    [right; now left | exact Hr].
Defined.

Lemma record_lengths_witness :
  exists self' f,
    Sample.scan "fortran" = Ok (self', f) /\
    exists el begin_ end_,
      index (elevation (Sample.strategy "fortran")) 0 = Ok el /\
      lst_bounds Sample.pi Sample.ephem_hours (Sample.strategy "fortran") 0
      = Ok (begin_, end_) /\
      Z.of_nat (nts f) = num_pts_of (Sample.strategy "fortran") begin_ end_ /\
      (1 <= nts f)%nat /\
      List.length (azimuth f) = nts f /\
      List.length (clock_utc f) = nts f /\
      List.length (RA f) = nts f /\
      List.length (Dec f) = nts f /\
      sf_elevation f = repeat (el * Sample.pi / 180) (nts f).
Proof.
  destruct (Sample.scan "fortran") as [[self' f] |] eqn:Hr;
    [| vm_compute in Hr; discriminate Hr].
  exists self', f. split; [reflexivity |].
  exact (@record_lengths Sample.pi Sample.cos Sample.ephem_hours
           Sample.sidereal_time Sample.datetime_str Sample.radec_of
           (Sample.strategy "fortran") self' 0 f Hr).
Defined.

Lemma backends_agree_witness :
  exists self' f self_c f_c,
    Sample.scan "python" = Ok (self', f) /\
    Sample.scan "C" = Ok (self_c, f_c) /\
    azimuth f_c = azimuth f /\
    clock_utc f_c = clock_utc f /\
    sf_elevation f_c = sf_elevation f /\
    firstmjd f_c = firstmjd f /\
    lastmjd f_c = lastmjd f /\
    nts f_c = nts f.
Proof.
  destruct (Sample.scan "python") as [[self' f] |] eqn:Hr;
    [| vm_compute in Hr; discriminate Hr].
  destruct (@backends_agree Sample.pi Sample.cos Sample.ephem_hours
              Sample.sidereal_time Sample.datetime_str Sample.radec_of
              (Sample.strategy "python") self' 0 f eq_refl Hr)
    as (self_c & f_c & Hc & H).
  exists self', f, self_c, f_c. split; [reflexivity |].
  split; [exact Hc | exact H].
Defined.

Lemma c_backend_radec_zero_witness :
  exists self' f,
    Sample.scan "C" = Ok (self', f) /\
    RA f = repeat 0 (nts f) /\ Dec f = repeat 0 (nts f).
Proof.
  destruct (Sample.scan "C") as [[self' f] |] eqn:Hr;
    [| vm_compute in Hr; discriminate Hr].
  exists self', f. split; [reflexivity |].
  exact (@c_backend_radec_zero Sample.pi Sample.cos Sample.ephem_hours
           Sample.sidereal_time Sample.datetime_str Sample.radec_of
           (Sample.strategy "C") self' 0 f eq_refl Hr).
Defined.

Lemma python_radec_samples_witness :
  exists self' f,
    Sample.scan "python" = Ok (self', f) /\
    exists begin_ end_,
      lst_bounds Sample.pi Sample.ephem_hours (Sample.strategy "python") 0
      = Ok (begin_, end_) /\
      forall t, (1 <= t < nts f)%nat ->
        exists o,
          long o = long (telescope_location (Sample.strategy "python")) /\
          lat o = lat (telescope_location (Sample.strategy "python")) /\
          obs_elevation o
          = obs_elevation (telescope_location (Sample.strategy "python")) /\
          date o
          == reset_date Sample.pi Sample.sidereal_time
               (Sample.strategy "python") begin_
             + inject_Z (Z.of_nat t) * (ephem_second / (1 # 3000)) /\
          (nth t (RA f) 0, nth t (Dec f) 0)
          = Sample.radec_of o (nth t (azimuth f) 0) (nth t (sf_elevation f) 0).
Proof.
  destruct (Sample.scan "python") as [[self' f] |] eqn:Hr;
    [| vm_compute in Hr; discriminate Hr].
  exists self', f. split; [reflexivity |].
  exact (@python_radec_samples Sample.pi Sample.cos Sample.ephem_hours
           Sample.sidereal_time Sample.datetime_str Sample.radec_of
           (Sample.strategy "python") self' 0 f eq_refl Hr).
Defined.

Lemma sample_hours_one_turn (s : string) :
  0 <= Sample.ephem_hours s /\ Sample.ephem_hours s < 2 * Sample.pi.
Proof.
  unfold Sample.ephem_hours.
  repeat match goal with
         | |- context [if ?b then _ else _] => destruct b
         end; split; vm_compute; congruence.
Qed.

Lemma ces_within_one_day_witness :
  exists begin_ end_,
    lst_bounds Sample.pi Sample.ephem_hours (Sample.strategy "python") 1
    = Ok (begin_, end_) /\
    0 <= end_ - begin_ /\ end_ - begin_ < 1 /\
    (0 <= sampling_freq (Sample.strategy "python") ->
     (0 <= num_pts_of (Sample.strategy "python") begin_ end_)%Z).
Proof.
  destruct (lst_bounds Sample.pi Sample.ephem_hours
              (Sample.strategy "python") 1) as [[begin_ end_] |] eqn:Hb;
    [| vm_compute in Hb; discriminate Hb].
  exists begin_, end_. split; [reflexivity |].
  apply (@ces_within_one_day Sample.pi Sample.ephem_hours
           (Sample.strategy "python") 1 begin_ end_);
    [reflexivity | exact sample_hours_one_turn | exact Hb].
Defined.

Lemma scan_without_samples_witness :
  run_one_scan Sample.pi Sample.cos Sample.ephem_hours Sample.sidereal_time
    Sample.datetime_str Sample.radec_of sparse 0 = Raise IndexError.
Proof.
  eapply (@scan_without_samples Sample.pi Sample.cos Sample.ephem_hours
            Sample.sidereal_time Sample.datetime_str Sample.radec_of
            sparse 0);
    [reflexivity | reflexivity | reflexivity | vm_compute; reflexivity
    | vm_compute; reflexivity].
Defined.


Lemma run_beyond_catalogue_witness :
  exists e,
    run_all
      (deep_patch 13 "2013/1/1 00:00:00" "deep_patch" 30 (4 # 10) "python"
         "s4cmb/data/ut1utc.ephem"
         (define_telescope_location Sample.ephem_degrees Sample.ephem_now
            "-67:46.816" "-22:56.396" 5200))
    = Raise e.
Proof.
  apply (@run_beyond_catalogue Sample.pi Sample.cos Sample.ephem_hours
           Sample.ephem_Date Sample.sidereal_time Sample.datetime_str
           Sample.radec_of Sample.ephem_degrees Sample.ephem_now
           13 "2013/1/1 00:00:00" "-67:46.816" "-22:56.396" 5200
           "deep_patch" 30 (4 # 10) "s4cmb/data/ut1utc.ephem" "python");
    [reflexivity | lia].
Defined.

End ScanRecordCases.

(* ================================================================== *)
(** ** The time conversions off the valid strings *)

Module TimeConvEdges.

Import Slalib TimeConv Scan QFacts PyFacts SlalibFacts TimeConvSpec.

(** [int()] on a string raises nothing but its [ValueError]. *)
Definition bad_literal : PyError :=
  ValueError "invalid literal for int() with base 10".

Lemma int_of_string_error (s : string) (e : PyError) :
  int_of_string s = Raise e -> e = bad_literal.
Proof.
  unfold int_of_string, bad_literal.
  destruct (rstrip (lstrip s)) as [| c t]; [congruence |].
  destruct c as [[] [] [] [] [] [] [] []]; cbv beta iota zeta; intros H;
    repeat match type of H with
           | context [match ?x with _ => _ end] => destruct x
           end; congruence.
Qed.

Lemma substring_short (n m : nat) (s : string) :
  (String.length s <= n)%nat -> substring n m s = EmptyString.
Proof.
  revert n. induction s as [| c s IH]; intros n H.
  - destruct n, m; reflexivity.
  - destruct n as [| n]; [cbn in H; lia |].
    cbn [substring]. apply IH. cbn in H. lia.
Qed.

(** X11.  A string too short to hold the seconds field makes [greg_to_mjd]
    raise the [ValueError] of [int()]: nothing checks the length before the
    fields are sliced. *)
Theorem greg_to_mjd_short_input (g : string) :
  (String.length g <= 13)%nat ->
  greg_to_mjd g = Raise (ValueError "invalid literal for int() with base 10").
Proof.
  intros H. unfold greg_to_mjd.
  assert (E : int_of_string (slice 13 15 g) = Raise bad_literal).
  { unfold slice. now rewrite substring_short. }
  rewrite E.
  repeat match goal with
         | |- bind (int_of_string ?s) _ = _ =>
             let e := fresh "e" in
             let He := fresh "He" in
             destruct (int_of_string s) as [? | e] eqn:He; cbn [bind];
             [| now rewrite (int_of_string_error _ He)]
         end.
  reflexivity.
Qed.

Lemma greg_to_mjd_short_input_witness :
  (String.length "20130101_1530" <= 13)%nat /\
  greg_to_mjd "20130101_1530"
  = Raise (ValueError "invalid literal for int() with base 10").
Proof.
  split; [vm_compute; lia | apply greg_to_mjd_short_input; vm_compute; lia].
Defined.

(** X12.  [greg_to_mjd] never reads the ninth character: any separator
    between the date and the time gives the same result. *)
Theorem greg_to_mjd_separator_unread (day time : string) (c c' : ascii) :
  String.length day = 8%nat ->
  greg_to_mjd (day ++ String c time) = greg_to_mjd (day ++ String c' time).
Proof.
  intros H.
  do 8 (destruct day as [| ? day]; [discriminate H |]).
  destruct day; [| discriminate H].
  reflexivity.
Qed.

Lemma greg_to_mjd_separator_unread_witness :
  String.length "19881103" = 8%nat /\
  greg_to_mjd "19881103T000000" = greg_to_mjd "19881103_000000".
Proof.
  split; [reflexivity |].
  apply (@greg_to_mjd_separator_unread "19881103" "000000" "T" "_").
  reflexivity.
Defined.

(** The fields of a valid string, its MJD, and its text again. *)
Lemma valid_greg_fields (g : string) :
  valid_greg g = true ->
  exists y m d h mi s : Z,
    ((0 <= y <= 9999) /\ (1 <= m <= 12) /\ (1 <= d <= mtab y m) /\
     (0 <= h <= 23) /\ (0 <= mi <= 59) /\ (0 <= s <= 59))%Z /\
    greg_to_mjd g
    = Ok (inject_Z (cldj_days y m d)
          + (60 * (60 * inject_Z h + inject_Z mi) + inject_Z s) / 86400) /\
    g = (four_digits y ++ two_digits m ++ two_digits d ++ "_"
         ++ two_digits h ++ two_digits mi ++ two_digits s)%string.
Proof.
  intros H. unfold valid_greg in H.
  apply andb_prop in H as [H Vs]. apply andb_prop in H as [H Vmi].
  apply andb_prop in H as [H Vh]. apply andb_prop in H as [H Vd2].
  apply andb_prop in H as [H Vd1]. apply andb_prop in H as [H Vm2].
  apply andb_prop in H as [H Vm1]. apply andb_prop in H as [H Vt].
  apply andb_prop in H as [H Vsep]. apply andb_prop in H as [H Vc].
  do 15 (destruct g as [| ?c g]; [discriminate H |]).
  destruct g; [clear H | discriminate H].
  unfold all_digits, field, slice in *.
  cbn [substring Nat.sub list_ascii_of_string forallb] in *.
  repeat (let K := fresh "D" in apply andb_prop in Vc as [K Vc]).
  repeat (let K := fresh "T" in apply andb_prop in Vt as [K Vt]).
  clear Vc Vt.
  apply String.eqb_eq in Vsep. injection Vsep as ->.
  rewrite field4 in * by assumption.
  rewrite !field2 in * by assumption.
  unfold greg_to_mjd, slice. cbn [substring Nat.sub].
  rewrite parse4 by assumption. rewrite !parse2 by assumption.
  cbn [bind].
  destruct (@four_digits_of _ _ _ _ D D0 D1 D2) as [By Fy].
  destruct (@two_digits_of _ _ D3 D4) as [Bm Fm].
  destruct (@two_digits_of _ _ D5 D6) as [Bd Fd].
  destruct (@two_digits_of _ _ T T0) as [Bh Fh].
  destruct (@two_digits_of _ _ T1 T2) as [Bi Fi].
  destruct (@two_digits_of _ _ T3 T4) as [Bs Fs].
  cbv zeta in *.
  set (y := (10 * (10 * (10 * digit_value c + digit_value c0) + digit_value c1)
             + digit_value c2)%Z) in *.
  set (m := (10 * digit_value c3 + digit_value c4)%Z) in *.
  set (d := (10 * digit_value c5 + digit_value c6)%Z) in *.
  set (h := (10 * digit_value c8 + digit_value c9)%Z) in *.
  set (mi := (10 * digit_value c10 + digit_value c11)%Z) in *.
  set (s := (10 * digit_value c12 + digit_value c13)%Z) in *.
  apply Z.leb_le in Vs, Vmi, Vh, Vd2, Vd1, Vm2, Vm1.
  exists y, m, d, h, mi, s. split; [lia |]. split.
  - unfold sla_dtf2d, sla_cldj.
    replace (y <? -4699)%Z with false by (symmetry; apply Z.ltb_ge; lia).
    replace ((1 <=? m)%Z && (m <=? 12)%Z) with true
      by (symmetry; apply andb_true_intro; split; apply Z.leb_le; lia).
    reflexivity.
  - rewrite Fy, Fm, Fd, Fh, Fi, Fs. reflexivity.
Qed.

(** sla_DJCL on a date [D] days and a fraction [t] of a day. *)
Lemma sla_djcl_frac (D : Z) (t x : Q) :
  (-2395520 < D < 999999999)%Z -> 0 <= t -> t < 1 ->
  x == inject_Z D + t ->
  exists f, sla_djcl x
            = (let '(y, m, d) := djcl_fields (D + 2400001) in (y, m, d, f, 0%Z))
            /\ f == t.
Proof.
  intros HD Ht0 Ht1 Hx.
  assert (HD1 : inject_Z (-2395519) <= inject_Z D) by (apply inject_Z_le; lia).
  assert (HD2 : inject_Z D <= inject_Z 999999998) by (apply inject_Z_le; lia).
  assert (Hfl : Qfloor x = D).
  { apply Qfloor_unique; rewrite ?inject_Z_succ; rewrite Hx; lra. }
  unfold sla_djcl.
  assert (G1 : Qle_bool x (-2395520) = false).
  { apply Qle_bool_false. rewrite Hx.
    change (inject_Z (-2395519)) with (-2395519 # 1) in HD1. lra. }
  assert (G2 : Qle_bool 1000000000 x = false).
  { apply Qle_bool_false. rewrite Hx.
    change (inject_Z 999999998) with (999999998 # 1) in HD2. lra. }
  rewrite G1, G2. cbn [orb].
  destruct (day_fraction_split x) as [Hf Hd].
  rewrite Hd, Hfl.
  eexists. split.
  - destruct (djcl_fields (D + 2400001)) as [[y m] d]. reflexivity.
  - rewrite Hf, Hfl, Hx. lra.
Qed.

(** sla_DD2TF with two decimals, on a time of day [e] past a whole second:
    below 0.995 s the excess stays in the fraction field. *)
Lemma sla_dd2tf_trunc (h mi s : Z) (f e : Q) :
  (0 <= h <= 23)%Z -> (0 <= mi <= 59)%Z -> (0 <= s <= 59)%Z ->
  0 <= e -> e < 199 # 17280000 ->
  f == inject_Z (60 * (60 * h + mi) + s) / 86400 + e ->
  let '(sign, (hh, mm, ss, _)) := sla_dd2tf 2 f in
  (sign, hh, mm, ss) = ("+"%char, h, mi, s).
Proof.
  intros Hh Hm Hs He0 He1 Hf.
  set (N := (60 * (60 * h + mi) + s)%Z) in *.
  assert (HN : (0 <= N < 86400)%Z) by (subst N; lia).
  destruct (frac_bounds HN) as [Ht0 Ht1].
  assert (Hpos : 0 <= f) by (rewrite Hf; lra).
  unfold sla_dd2tf.
  replace (Qle_bool 0 f) with true by (symmetry; now apply Qle_bool_iff).
  set (E := 8640000 * e + (1 # 2)).
  set (c := Qfloor E).
  assert (HE0 : 0 <= E) by (subst E; lra).
  assert (HE1 : E < 100) by (subst E; lra).
  pose proof (Qfloor_le E) as Hc0. pose proof (Qlt_floor E) as Hc1.
  fold c in Hc0, Hc1. rewrite inject_Z_succ in Hc1.
  assert (Bc : (0 <= c <= 99)%Z).
  { split.
    - change 0%Z with (Qfloor 0). now apply Qfloor_resp_le.
    - assert (c < 100)%Z; [| lia].
      apply inject_Z_lt. change (inject_Z 100) with 100. lra. }
  assert (Ha : anint (inject_Z (10 ^ Z.of_nat 2) * 86400 * Qabs f)
               = (100 * N + c)%Z).
  { change (inject_Z (10 ^ Z.of_nat 2)) with 100.
    rewrite (@anint_comp _ (100 * 86400 * f))
      by (now rewrite (Qabs_pos _ Hpos)).
    assert (EX : 100 * 86400 * f == inject_Z (100 * N) + 8640000 * e).
    { rewrite Hf, inject_Z_mult. change (inject_Z 100) with 100. field. }
    assert (X0 : 0 <= 100 * 86400 * f) by lra.
    unfold anint.
    replace (Qle_bool 0 (100 * 86400 * f)) with true
      by (symmetry; now apply Qle_bool_iff).
    apply Qfloor_unique.
    - rewrite inject_Z_plus, EX. subst E. lra.
    - rewrite inject_Z_succ, inject_Z_plus, EX. subst E. lra. }
  rewrite Ha. change (10 ^ Z.of_nat 2)%Z with 100%Z.
  clearbody c. clear -Hh Hm Hs Bc. subst N.
  repeat f_equal; zdiv.
Qed.

(** X13.  In exact arithmetic (floats read as exact rationals)
    [mjd_to_greg] truncates to the second: a date up to 0.99 s after the
    MJD of a valid string [g] is printed as [g].  (The time of day is
    rounded to the hundredth of a second before it is cut to the second, so
    the next second starts at 0.995 s; the bound stops 5 ms short of
    it.) *)
Theorem mjd_to_greg_truncates (g : string) (mjd e : Q) :
  valid_greg g = true ->
  greg_to_mjd g = Ok mjd ->
  0 <= e -> e <= 99 # 8640000 ->
  mjd_to_greg (mjd + e) = Ok g.
Proof.
  intros Hv Hg He0 He1'.
  assert (He1 : e < 199 # 17280000) by lra.
  destruct (@valid_greg_fields g Hv)
    as (y & m & d & h & mi & s & (By & Bm & Bd & Bh & Bi & Bs) & Eg & Et).
  rewrite Eg in Hg. injection Hg as <-.
  set (N := (60 * (60 * h + mi) + s)%Z).
  assert (HN : (0 <= N <= 86399)%Z) by (subst N; lia).
  assert (Hd31 : (mtab y m <= 31)%Z).
  { unfold mtab.
    repeat match goal with |- context [if ?b then _ else _] => destruct b end;
    destruct m as [| p | p]; try lia; repeat (destruct p as [p | p |]; try lia). }
  pose proof (@cldj_bounds y m d) as HB.
  assert (Hfrac : (60 * (60 * inject_Z h + inject_Z mi) + inject_Z s) / 86400
                  == inject_Z N / 86400).
  { subst N. repeat (rewrite inject_Z_plus || rewrite inject_Z_mult).
    reflexivity. }
  assert (HN1 : inject_Z N / 86400 <= 86399 # 86400).
  { assert (inject_Z N <= inject_Z 86399) by (apply inject_Z_le; lia).
    change (inject_Z 86399) with 86399 in *.
    unfold Qdiv. change (/ 86400) with (1 # 86400). lra. }
  assert (HN0 : 0 <= inject_Z N / 86400).
  { assert (inject_Z 0 <= inject_Z N) by (apply inject_Z_le; lia).
    change (inject_Z 0) with 0 in *.
    unfold Qdiv. change (/ 86400) with (1 # 86400). lra. }
  match goal with |- mjd_to_greg ?x = _ =>
    destruct (@sla_djcl_frac (cldj_days y m d) (inject_Z N / 86400 + e) x)
      as [f [Ef Hf]]
  end; [lia | lra | lra | rewrite Hfrac; ring |].
  unfold mjd_to_greg. rewrite Ef.
  rewrite calendar_roundtrip by lia.
  cbn [Z.eqb negb].
  pose proof (@sla_dd2tf_trunc h mi s f e Bh Bi Bs He0 He1 Hf) as Htf.
  destruct (sla_dd2tf 2 f) as [sign [[[hh mm] ss] fr]].
  injection Htf as _ -> -> ->.
  rewrite !replace_char_app.
  rewrite format4 by lia. rewrite !format2 by lia.
  rewrite Et at 1. reflexivity.
Qed.

Lemma mjd_to_greg_truncates_witness :
  valid_greg "20130101_153042" = true /\
  exists mjd,
    greg_to_mjd "20130101_153042" = Ok mjd /\
    mjd_to_greg (mjd + (1 # 100000)) = Ok "20130101_153042"%string.
Proof.
  split; [reflexivity |].
  destruct (greg_to_mjd "20130101_153042") as [mjd |] eqn:Hg;
    [| vm_compute in Hg; discriminate Hg].
  exists mjd. split; [reflexivity |].
  apply (@mjd_to_greg_truncates "20130101_153042" mjd (1 # 100000));
    [reflexivity | exact Hg | vm_compute; discriminate
    | vm_compute; discriminate].
Defined.

(** No decimal digit is one of the separators [date_to_greg] handles. *)
Lemma digit_not_separator (c : ascii) :
  is_digit c = true ->
  Ascii.eqb c "." = false /\ Ascii.eqb c "-" = false /\
  Ascii.eqb c ":" = false /\ Ascii.eqb c " " = false.
Proof.
  destruct c as [[] [] [] [] [] [] [] []]; intros H;
    try discriminate H; repeat split.
Qed.

Lemma append_empty (s : string) : (s ++ EmptyString)%string = s.
Proof. induction s as [| c s IH]; [reflexivity |]. cbn. now rewrite IH. Qed.

Lemma before_char_digits (s t : string) :
  digits_only s = true ->
  before_char "." (s ++ t) = (s ++ before_char "." t)%string.
Proof.
  unfold digits_only. induction s as [| c s IH]; [reflexivity |].
  cbn [list_ascii_of_string forallb]. intros H.
  apply andb_prop in H as [Hc Hs].
  cbn [String.append before_char].
  destruct (digit_not_separator _ Hc) as (-> & _). now rewrite IH.
Qed.

Lemma replace_char_digits (a : ascii) (b s : string) :
  In a ["-"; ":"; " "]%char -> digits_only s = true ->
  replace_char a b s = s.
Proof.
  unfold digits_only. intros Ha. induction s as [| c s IH]; [reflexivity |].
  cbn [list_ascii_of_string forallb]. intros H.
  apply andb_prop in H as [Hc Hs].
  cbn [replace_char]. rewrite (IH Hs).
  destruct (digit_not_separator _ Hc) as (_ & H1 & H2 & H3).
  cbn [In] in Ha. destruct Ha as [<- | [<- | [<- | []]]];
    [now rewrite H1 | now rewrite H2 | now rewrite H3].
Qed.

Section Dates.

Variable datetime_str : Q -> string.

(** X14.  On a date whose [datetime] text is
    [YYYY-MM-DD HH:MM:SS], with or without a fractional part,
    [date_to_greg] keeps the digits of the six fields, joins date and time
    with an underscore, and drops the fraction. *)
Theorem date_to_greg_format (date : Q) (y mo d h mi s tail : string) :
  datetime_str date
  = (y ++ "-" ++ mo ++ "-" ++ d ++ " " ++ h ++ ":" ++ mi ++ ":" ++ s
     ++ tail)%string ->
  forallb digits_only [y; mo; d; h; mi; s] = true ->
  (tail = EmptyString \/ exists frac, tail = String "." frac) ->
  date_to_greg datetime_str date
  = (y ++ mo ++ d ++ "_" ++ h ++ mi ++ s)%string.
Proof.
  intros Ht Hd Htail. cbn [forallb] in Hd.
  repeat (let K := fresh "D" in apply andb_prop in Hd as [K Hd]). clear Hd.
  unfold date_to_greg. rewrite Ht.
  assert (Eb : before_char "."
                 (y ++ "-" ++ mo ++ "-" ++ d ++ " " ++ h ++ ":" ++ mi ++ ":"
                  ++ s ++ tail)
               = (y ++ "-" ++ mo ++ "-" ++ d ++ " " ++ h ++ ":" ++ mi ++ ":"
                  ++ s)%string).
  { repeat (rewrite before_char_digits by assumption;
            cbn [String.append before_char Ascii.eqb Bool.eqb]).
    replace (before_char "." tail) with EmptyString;
      [now rewrite append_empty |].
    destruct Htail as [-> | [frac ->]]; reflexivity. }
  rewrite Eb.
  repeat (rewrite !replace_char_app;
          cbn [replace_char Ascii.eqb Bool.eqb String.append]).
  repeat match goal with
         | |- context [replace_char ?a ?b ?t] =>
             rewrite (@replace_char_digits a b t) by (cbn [In]; auto)
         end.
  reflexivity.
Qed.

End Dates.

Lemma date_to_greg_format_witness :
  date_to_greg Sample.datetime_str (82547 # 2) = "20130101_000000"%string.
Proof.
  apply (@date_to_greg_format Sample.datetime_str (82547 # 2)
           "2013" "01" "01" "00" "00" "00" EmptyString);
    [vm_compute; reflexivity | reflexivity | now left].
Defined.

End TimeConvEdges.

(* ================================================================== *)
(** ** The crosstalk routines off the main path *)

Module CrosstalkEdges.

Import Systematics CrosstalkSpec.

(** The body of the loop that files the bolometers under their SQUID. *)
Definition file_bolo (squid_ids : list string) (bolo_ids : list Z)
    (acc : result combs_t) (bolo : nat) : result combs_t :=
  combs <- acc ;;
  match nth_error squid_ids bolo, nth_error bolo_ids bolo with
  | Some sq, Some ch => Ok (combs_append sq (ch, bolo) combs)
  | _, _ => Raise IndexError
  end.

Lemma file_bolo_raise (squid_ids : list string) (bolo_ids : list Z)
    (l : list nat) (e : PyError) :
  fold_left (file_bolo squid_ids bolo_ids) l (Raise e) = Raise e.
Proof. induction l as [| b l IH]; [reflexivity | exact IH]. Qed.

Lemma file_bolo_ok (squid_ids : list string) (bolo_ids : list Z)
    (l : list nat) (acc : combs_t) :
  (forall b, In b l ->
     (b < List.length squid_ids)%nat /\ (b < List.length bolo_ids)%nat) ->
  exists combs,
    fold_left (file_bolo squid_ids bolo_ids) l (Ok acc) = Ok combs.
Proof.
  revert acc. induction l as [| b l IH]; intros acc H.
  - now exists acc.
  - destruct (H b (or_introl eq_refl)) as [Hs Hb].
    apply nth_error_Some in Hs, Hb.
    cbn [fold_left file_bolo bind].
    destruct (nth_error squid_ids b) as [sq |]; [| congruence].
    destruct (nth_error bolo_ids b) as [ch |]; [| congruence].
    apply IH. intros b' Hb'. apply H. now right.
Qed.

Lemma file_bolo_short (squid_ids : list string) (bolo_ids : list Z)
    (l : list nat) (acc : combs_t) (b : nat) :
  In b l ->
  (List.length squid_ids <= b)%nat \/ (List.length bolo_ids <= b)%nat ->
  fold_left (file_bolo squid_ids bolo_ids) l (Ok acc) = Raise IndexError.
Proof.
  revert acc. induction l as [| b' l IH]; intros acc Hin Hb; [contradiction |].
  cbn [fold_left file_bolo bind].
  destruct (nth_error squid_ids b') as [sq |] eqn:Es;
    [| destruct (nth_error bolo_ids b'); apply file_bolo_raise].
  destruct (nth_error bolo_ids b') as [ch |] eqn:Ec;
    [| apply file_bolo_raise].
  destruct Hin as [-> | Hin]; [| now apply IH].
  exfalso. destruct Hb as [Hb | Hb]; apply nth_error_None in Hb; congruence.
Qed.

Lemma build_combs_ok (n : nat) (squid_ids : list string) (bolo_ids : list Z) :
  (n <= List.length squid_ids)%nat -> (n <= List.length bolo_ids)%nat ->
  exists combs, build_combs n squid_ids bolo_ids = Ok combs.
Proof.
  intros Hs Hb. apply (file_bolo_ok squid_ids bolo_ids (seq 0 n) []).
  intros b Hin. apply in_seq in Hin. lia.
Qed.

Lemma build_combs_short (n : nat) (squid_ids : list string)
    (bolo_ids : list Z) :
  (List.length squid_ids < n)%nat \/ (List.length bolo_ids < n)%nat ->
  build_combs n squid_ids bolo_ids = Raise IndexError.
Proof.
  intros H.
  apply (@file_bolo_short squid_ids bolo_ids (seq 0 n) []
           (Nat.min (List.length squid_ids) (List.length bolo_ids))).
  - apply in_seq. lia.
  - lia.
Qed.

(** Bolometer [x] is filed under key [k]. *)
Definition filed (combs : combs_t) (k : string) (x : Z * nat) : Prop :=
  exists mem, In (k, mem) combs /\ In x mem.

Lemma filed_append (sq : string) (e : Z * nat) (combs : combs_t)
    (k : string) (x : Z * nat) :
  filed (combs_append sq e combs) k x <-> filed combs k x \/ (k = sq /\ x = e).
Proof.
  unfold filed. induction combs as [| [k0 l0] combs IH].
  - cbn [combs_append]. split.
    + intros (mem & [E | []] & Hx). injection E as <- <-.
      destruct Hx as [<- | []]. now right.
    + intros [(mem & [] & _) | [-> ->]].
      exists [e]. split; now left.
  - cbn [combs_append]. destruct (String.eqb_spec k0 sq) as [-> | Hne].
    + split.
      * intros (mem & [E | Hin] & Hx).
        -- injection E as <- <-. apply in_app_or in Hx as [Hx | [<- | []]].
           ++ left. exists l0. split; [now left | exact Hx].
           ++ now right.
        -- left. exists mem. split; [now right | exact Hx].
      * intros [(mem & [E | Hin] & Hx) | [-> ->]].
        -- injection E as <- <-. exists (l0 ++ [e]).
           split; [now left | apply in_or_app; now left].
        -- exists mem. split; [now right | exact Hx].
        -- exists (l0 ++ [e]).
           split; [now left | apply in_or_app; right; now left].
    + split.
      * intros (mem & [E | Hin] & Hx).
        -- left. exists mem. split; [now left | exact Hx].
        -- destruct (proj1 IH (ex_intro _ mem (conj Hin Hx)))
             as [(mem' & Hin' & Hx') | Hr].
           ++ left. exists mem'. split; [now right | exact Hx'].
           ++ now right.
      * intros [(mem & [E | Hin] & Hx) | Hr].
        -- exists mem. split; [now left | exact Hx].
        -- destruct (proj2 IH (or_introl (ex_intro _ mem (conj Hin Hx))))
             as (mem' & Hin' & Hx').
           exists mem'. split; [now right | exact Hx'].
        -- destruct (proj2 IH (or_intror Hr)) as (mem' & Hin' & Hx').
           exists mem'. split; [now right | exact Hx'].
Qed.

Lemma keys_append (sq : string) (e : Z * nat) (combs : combs_t) :
  map fst (combs_append sq e combs)
  = if existsb (String.eqb sq) (map fst combs) then map fst combs
    else map fst combs ++ [sq].
Proof.
  induction combs as [| [k0 l0] combs IH]; [reflexivity |].
  cbn [combs_append map fst existsb].
  rewrite (String.eqb_sym sq k0).
  destruct (String.eqb k0 sq); [reflexivity |].
  cbn [map fst orb]. rewrite IH.
  destruct (existsb (String.eqb sq) (map fst combs)); reflexivity.
Qed.

Lemma keys_append_NoDup (sq : string) (e : Z * nat) (combs : combs_t) :
  NoDup (map fst combs) -> NoDup (map fst (combs_append sq e combs)).
Proof.
  intros H. rewrite keys_append.
  destruct (existsb (String.eqb sq) (map fst combs)) eqn:E; [exact H |].
  apply NoDup_app; [exact H | repeat constructor; intros [] |].
  intros k Hk [<- | []].
  assert (existsb (String.eqb sq) (map fst combs) = true); [| congruence].
  apply existsb_exists. exists sq. split; [exact Hk | apply String.eqb_refl].
Qed.

Lemma nonempty_append (sq : string) (e : Z * nat) (combs : combs_t) :
  Forall (fun km => snd km <> []) combs ->
  Forall (fun km => snd km <> []) (combs_append sq e combs).
Proof.
  induction 1 as [| [k0 l0] combs Hx Hf IH].
  - cbn [combs_append]. repeat constructor. discriminate.
  - cbn [combs_append]. destruct (String.eqb k0 sq).
    + constructor; [| exact Hf]. cbn [snd]. now destruct l0.
    + constructor; [exact Hx | exact IH].
Qed.

(** What the filing loop has built after the bolometers below [t]. *)
Definition grouped (squid_ids : list string) (bolo_ids : list Z) (t : nat)
    (combs : combs_t) : Prop :=
  NoDup (map fst combs) /\
  Forall (fun km => snd km <> []) combs /\
  forall k c i,
    filed combs k (c, i) <->
    (i < t)%nat /\ nth_error squid_ids i = Some k
    /\ nth_error bolo_ids i = Some c.

Lemma build_combs_grouped (squid_ids : list string) (bolo_ids : list Z)
    (n : nat) (combs : combs_t) :
  build_combs n squid_ids bolo_ids = Ok combs ->
  grouped squid_ids bolo_ids n combs.
Proof.
  unfold build_combs. fold (file_bolo squid_ids bolo_ids).
  revert combs. induction n as [| n IH]; intros combs H.
  - cbn in H. injection H as <-. split; [constructor |].
    split; [constructor |].
    intros k c i. split.
    + intros (mem & [] & _).
    + intros [Hi _]. lia.
  - rewrite seq_S, fold_left_app in H. cbn [Nat.add fold_left] in H.
    destruct (fold_left (file_bolo squid_ids bolo_ids) (seq 0 n) (Ok []))
      as [combs0 |]; [| discriminate H].
    destruct (IH combs0 eq_refl) as (Hnd & Hne & Hf).
    cbn [file_bolo bind] in H.
    destruct (nth_error squid_ids n) as [sq |] eqn:Es; [| discriminate H].
    destruct (nth_error bolo_ids n) as [ch |] eqn:Ec; [| discriminate H].
    injection H as <-.
    split; [now apply keys_append_NoDup |].
    split; [now apply nonempty_append |].
    intros k c i. rewrite filed_append, Hf. split.
    + intros [(Hi & Hk & Hc) | [-> E]].
      * split; [lia | now split].
      * injection E as -> ->. split; [lia | now split].
    + intros (Hi & Hk & Hc).
      destruct (Nat.eq_dec i n) as [-> | Hne'].
      * right. split; congruence.
      * left. split; [lia | now split].
Qed.

Lemma fold_left_id {A B : Type} (f : A -> B -> A) (l : list B) (a : A) :
  (forall a b, In b l -> f a b = a) -> fold_left f l a = a.
Proof.
  revert a. induction l as [| b l IH]; intros a H; [reflexivity |].
  cbn [fold_left]. rewrite (H a b) by now left.
  apply IH. intros a' b' Hb'. apply H. now right.
Qed.

Lemma fold_left_inv {A B : Type} (P : A -> Prop) (f : A -> B -> A)
    (l : list B) (a : A) :
  (forall a b, In b l -> P a -> P (f a b)) -> P a -> P (fold_left f l a).
Proof.
  revert a. induction l as [| b l IH]; intros a H Ha; [exact Ha |].
  cbn [fold_left]. apply IH.
  - intros a' b' Hb'. apply H. now right.
  - apply H; [now left | exact Ha].
Qed.

(** [n] timestreams of [m] samples each. *)
Definition shaped (n m : nat) (ts : tod) : Prop :=
  List.length ts = n /\ Forall (fun r => List.length r = m) ts.

Lemma set_row_length (i : nat) (r : list Q) (ts : tod) :
  List.length (set_row i r ts) = List.length ts.
Proof.
  revert i. induction ts as [| x ts IH]; intros i; [reflexivity |].
  destruct i; cbn [set_row List.length]; [reflexivity | now rewrite IH].
Qed.

Lemma set_row_Forall (P : list Q -> Prop) (i : nat) (r : list Q) (ts : tod) :
  P r -> Forall P ts -> Forall P (set_row i r ts).
Proof.
  intros Hr. revert i. induction ts as [| x ts IH]; intros i H.
  - constructor.
  - inversion H as [| ? ? Hx Hts]; subst.
    destruct i; cbn [set_row]; constructor; auto.
Qed.

Lemma row_shaped (n m : nat) (ts : tod) (i : nat) :
  shaped n m ts -> (i < n)%nat -> List.length (row ts i) = m.
Proof.
  intros [Hn Hf] Hi. unfold row.
  rewrite Forall_forall in Hf. apply Hf. apply nth_In. lia.
Qed.

Lemma leak_shaped (n m : nat) (c : Q) (i i2 : nat) (ts : tod) :
  (i < n)%nat -> (i2 < n)%nat -> shaped n m ts -> shaped n m (leak c i i2 ts).
Proof.
  intros Hi Hi2 H. pose proof H as [Hn Hf]. unfold leak. split.
  - now rewrite set_row_length.
  - apply set_row_Forall; [| exact Hf].
    unfold axpy. rewrite length_map, length_combine.
    rewrite !(row_shaped H) by assumption. lia.
Qed.

(** The rows a step writes. *)
Definition target (s : step) : nat := let '(_, i, _) := s in i.

Lemma run_row_untouched (steps : list step) (ts : tod) (i : nat) :
  (forall s, In s steps -> target s <> i) ->
  row (run steps ts) i = row ts i.
Proof.
  unfold run. revert ts. induction steps as [| s steps IH]; intros ts H.
  - reflexivity.
  - cbn [fold_left]. rewrite IH by (intros; apply H; now right).
    destruct s as [[c t] t2]. cbn [run_step]. unfold leak.
    apply row_set_row_other. apply (H (c, t, t2)). now left.
Qed.

(** The members of the dictionary are rows of the data. *)
Lemma member_in_range (n : nat) (squid_ids : list string) (bolo_ids : list Z)
    (combs items : combs_t) (sq : string * members) (chi : Z * nat) :
  build_combs n squid_ids bolo_ids = Ok combs ->
  Permutation items combs ->
  In sq items -> In chi (snd sq) -> (snd chi < n)%nat.
Proof.
  intros H Hp Hsq Hchi.
  destruct sq as [k mem], chi as [c i]. cbn [snd] in *.
  destruct (build_combs_grouped _ _ _ H) as (_ & _ & Hf).
  apply (Hf k c i). exists mem. split; [| exact Hchi].
  eapply Permutation_in; [exact Hp | exact Hsq].
Qed.

Section Crosstalk.

Variable gauss : Z -> nat -> Q.
Variable dict_items : combs_t -> combs_t.
Variable kernel_f : tod -> list Z -> list nat -> Z -> list Q -> Z -> tod.

Local Abbreviation inside :=
  (inject_crosstalk_inside_SQUID gauss dict_items kernel_f).
Local Abbreviation between :=
  (inject_crosstalk_SQUID_to_SQUID gauss dict_items).

(** X15.  Both crosstalk routines index [squid_ids] and [bolo_ids] by the
    row number of [bolo_data]: when either list is shorter than the data,
    the call raises an [IndexError], whatever the other arguments. *)
Theorem crosstalk_short_ids (bolo_data : tod) (squid_ids : list string)
    (bolo_ids : list Z) (mu sigma attenuation : Q) (radius beta seed : Z)
    (new_array : option tod) (language : string) :
  (List.length squid_ids < List.length bolo_data)%nat
  \/ (List.length bolo_ids < List.length bolo_data)%nat ->
  inside bolo_data squid_ids bolo_ids mu sigma radius beta seed new_array
    language = Raise IndexError /\
  between bolo_data squid_ids bolo_ids mu sigma attenuation seed new_array
  = Raise IndexError.
Proof.
  intros H.
  unfold inject_crosstalk_inside_SQUID, inject_crosstalk_SQUID_to_SQUID.
  rewrite (build_combs_short _ _ H). split; reflexivity.
Qed.

(** X16.  The dictionary both routines build files every bolometer exactly
    where its ids say: the keys are distinct, no key is left without a
    bolometer, and [(c, i)] is filed under [k] exactly when [i] is a row of
    the data with SQUID id [k] and channel [c]; no row is filed twice. *)
Theorem combs_grouping (n : nat) (squid_ids : list string)
    (bolo_ids : list Z) (combs : combs_t) :
  build_combs n squid_ids bolo_ids = Ok combs ->
  NoDup (map fst combs) /\
  Forall (fun km => snd km <> []) combs /\
  NoDup (flat_map indices combs) /\
  forall k c i,
    (exists mem, In (k, mem) combs /\ In (c, i) mem) <->
    (i < n)%nat /\ nth_error squid_ids i = Some k
    /\ nth_error bolo_ids i = Some c.
Proof.
  intros H. destruct (build_combs_grouped _ _ _ H) as (Hnd & Hne & Hf).
  split; [exact Hnd |]. split; [exact Hne |].
  split; [exact (build_combs_NoDup _ _ _ H) | exact Hf].
Qed.

(** X17.  With a radius of zero or less no pair of channels is close
    enough to talk: the python loop of [inject_crosstalk_inside_SQUID]
    writes back the data it was given. *)
Theorem crosstalk_radius_zero (bolo_data : tod) (squid_ids : list string)
    (bolo_ids : list Z) (mu sigma : Q) (radius beta seed : Z)
    (new_array : option tod) :
  (List.length bolo_data <= List.length squid_ids)%nat ->
  (List.length bolo_data <= List.length bolo_ids)%nat ->
  (radius <= 0)%Z ->
  inside bolo_data squid_ids bolo_ids mu sigma radius beta seed new_array
    "python"
  = Ok (write_back bolo_data new_array bolo_data).
Proof.
  intros Hs Hb Hr. unfold inject_crosstalk_inside_SQUID.
  destruct (build_combs_ok _ _ Hs Hb) as [combs ->].
  cbn [bind String.eqb Ascii.eqb Bool.eqb]. do 2 f_equal.
  unfold inside_python. apply fold_left_id. intros ts sq _.
  unfold inside_squid. apply fold_left_id. intros ts1 [ch i] _.
  apply fold_left_id. intros ts2 [ch2 i2] _.
  cbn [inside_pair].
  destruct (Z.ltb_spec 0 (Z.abs (ch - ch2)));
    destruct (Z.leb_spec (Z.abs (ch - ch2)) radius);
    cbn [andb]; try reflexivity; lia.
Qed.

(** X18.  When all bolometers sit in one SQUID there is no second SQUID to
    leak from: [inject_crosstalk_SQUID_to_SQUID] writes back the data it
    was given. *)
Theorem single_squid_untouched (bolo_data : tod) (squid_ids : list string)
    (bolo_ids : list Z) (mu sigma attenuation : Q) (seed : Z)
    (new_array : option tod) (sq0 : string) :
  (forall c, Permutation (dict_items c) c) ->
  (forall i, (i < List.length bolo_data)%nat ->
     nth_error squid_ids i = Some sq0) ->
  (List.length bolo_data <= List.length bolo_ids)%nat ->
  between bolo_data squid_ids bolo_ids mu sigma attenuation seed new_array
  = Ok (write_back bolo_data new_array bolo_data).
Proof.
  intros Hp Hsq Hb. unfold inject_crosstalk_SQUID_to_SQUID.
  assert (Hs : (List.length bolo_data <= List.length squid_ids)%nat).
  { destruct (List.length bolo_data) as [| n] eqn:En; [lia |].
    assert (n < List.length squid_ids)%nat; [| lia].
    apply nth_error_Some. rewrite (Hsq n) by lia. discriminate. }
  destruct (build_combs_ok _ _ Hs Hb) as [combs Hc]. rewrite Hc.
  cbn [bind]. do 2 f_equal.
  assert (Hk : forall sq, In sq (dict_items combs) -> fst sq = sq0).
  { intros [k mem] Hin. cbn [fst].
    apply (Permutation_in _ (Hp combs)) in Hin.
    destruct (build_combs_grouped _ _ _ Hc) as (_ & Hne & Hf).
    rewrite Forall_forall in Hne. specialize (Hne _ Hin). cbn [snd] in Hne.
    destruct mem as [| [c i] mem]; [congruence |].
    destruct (proj1 (Hf k c i)) as (Hi & Hki & _).
    - exists ((c, i) :: mem). split; [exact Hin | now left].
    - rewrite (Hsq i Hi) in Hki. congruence. }
  unfold squid_to_squid_loops. apply fold_left_id. intros ts sq1 H1.
  apply fold_left_id. intros ts1 [ch i] _.
  unfold squid_to_squid_target. apply fold_left_id. intros ts2 sq2 H2.
  pose proof (Hk _ H1) as E1. pose proof (Hk _ H2) as E2.
  destruct sq1 as [k1 m1], sq2 as [k2 m2]. cbn [fst snd] in *. subst k1 k2.
  now rewrite String.eqb_refl.
Qed.

(** X19.  Both crosstalk routines keep the shape of the data: on [n]
    timestreams of [m] samples, with ids for every row, the python loops
    return normally and write [n] timestreams of [m] samples. *)
Theorem crosstalk_keeps_shape (bolo_data : tod) (squid_ids : list string)
    (bolo_ids : list Z) (mu sigma attenuation : Q) (radius beta seed : Z)
    (new_array : option tod) (m : nat) :
  (forall c, Permutation (dict_items c) c) ->
  (List.length bolo_data <= List.length squid_ids)%nat ->
  (List.length bolo_data <= List.length bolo_ids)%nat ->
  Forall (fun r => List.length r = m) bolo_data ->
  let r1 := inside bolo_data squid_ids bolo_ids mu sigma radius beta seed
              new_array "python" in
  let r2 := between bolo_data squid_ids bolo_ids mu sigma attenuation seed
              new_array in
  (is_ok r1 = true /\ List.length (written r1) = List.length bolo_data /\
   Forall (fun r => List.length r = m) (written r1)) /\
  (is_ok r2 = true /\ List.length (written r2) = List.length bolo_data /\
   Forall (fun r => List.length r = m) (written r2)).
Proof.
  intros Hp Hs Hb Hm r1 r2. subst r1 r2.
  unfold inject_crosstalk_inside_SQUID, inject_crosstalk_SQUID_to_SQUID.
  destruct (build_combs_ok _ _ Hs Hb) as [combs Hc]. rewrite Hc.
  cbn [bind String.eqb Ascii.eqb Bool.eqb is_ok].
  set (n := List.length bolo_data) in *.
  assert (H0 : shaped n m bolo_data) by (split; [reflexivity | exact Hm]).
  assert (Hr : forall sq chi, In sq (dict_items combs) -> In chi (snd sq) ->
                 (snd chi < n)%nat).
  { intros sq chi. exact (@member_in_range _ _ _ _ _ sq chi Hc (Hp combs)). }
  assert (W : forall ts, written (Ok (write_back bolo_data new_array ts)) = ts).
  { intros ts. destruct new_array; reflexivity. }
  rewrite !W. split.
  - assert (S1 : shaped n m
                   (inside_python radius beta
                      (normal gauss seed (mu / 100) (sigma / 100) n)
                      (dict_items combs) bolo_data)).
    { unfold inside_python. apply fold_left_inv; [| exact H0].
      intros ts sq Hsq Hts. unfold inside_squid.
      apply fold_left_inv; [| exact Hts].
      intros ts1 [ch i] Hchi Hts1. apply fold_left_inv; [| exact Hts1].
      intros ts2 [ch2 i2] Hchi2 Hts2. cbn [inside_pair].
      destruct ((0 <? Z.abs (ch - ch2))%Z && (Z.abs (ch - ch2) <=? radius)%Z);
        [| exact Hts2].
      apply leak_shaped; [exact (Hr _ _ Hsq Hchi) | exact (Hr _ _ Hsq Hchi2)
                         | exact Hts2]. }
    destruct S1 as [S1 S2]. repeat split; assumption.
  - assert (S1 : shaped n m
                   (squid_to_squid_loops attenuation
                      (normal gauss seed (mu / 100) (sigma / 100) n)
                      (dict_items combs) bolo_data)).
    { unfold squid_to_squid_loops. apply fold_left_inv; [| exact H0].
      intros ts sq1 Hsq1 Hts. apply fold_left_inv; [| exact Hts].
      intros ts1 [ch i] Hchi Hts1. unfold squid_to_squid_target.
      apply fold_left_inv; [| exact Hts1].
      intros ts2 sq2 Hsq2 Hts2.
      destruct (fst sq2 =? fst sq1)%string; [exact Hts2 |].
      apply fold_left_inv; [| exact Hts2].
      intros ts3 [ch2 i2] Hchi2 Hts3.
      apply leak_shaped; [exact (Hr _ _ Hsq1 Hchi) | exact (Hr _ _ Hsq2 Hchi2)
                         | exact Hts3]. }
    destruct S1 as [S1 S2]. repeat split; assumption.
Qed.

(** X20.  Crosstalk inside a SQUID is local: a bolometer with no channel of
    its own SQUID within [radius] of its channel (itself and same-channel
    entries apart) keeps its timestream. *)
Theorem isolated_bolometer_untouched (bolo_data : tod)
    (squid_ids : list string) (bolo_ids : list Z) (mu sigma : Q)
    (radius beta seed : Z) (new_array : option tod)
    (i : nat) (k : string) (c : Z) :
  (forall c, Permutation (dict_items c) c) ->
  (List.length bolo_data <= List.length squid_ids)%nat ->
  (List.length bolo_data <= List.length bolo_ids)%nat ->
  nth_error squid_ids i = Some k ->
  nth_error bolo_ids i = Some c ->
  (forall j c', (j < List.length bolo_data)%nat ->
     nth_error squid_ids j = Some k -> nth_error bolo_ids j = Some c' ->
     c' = c \/ (radius < Z.abs (c - c'))%Z) ->
  row (written (inside bolo_data squid_ids bolo_ids mu sigma radius beta seed
                  new_array "python")) i
  = row bolo_data i.
Proof.
  intros Hp Hs Hb Hk Hc Hfar. unfold inject_crosstalk_inside_SQUID.
  destruct (build_combs_ok _ _ Hs Hb) as [combs Hcombs]. rewrite Hcombs.
  cbn [bind String.eqb Ascii.eqb Bool.eqb].
  match goal with
  | |- row (written (Ok (write_back _ _ ?t))) _ = _ =>
      replace (written (Ok (write_back bolo_data new_array t)))
        with t by (destruct new_array; reflexivity)
  end.
  destruct (build_combs_grouped _ _ _ Hcombs) as (_ & _ & Hf).
  unfold inside_python.
  apply (fold_left_inv (fun ts => row ts i = row bolo_data i));
    [| reflexivity].
  intros ts sq Hsq Hts. rewrite inside_squid_run, run_row_untouched;
    [exact Hts |].
  intros s Hin Ht. unfold squid_steps in Hin.
  apply in_flat_map in Hin as [[ch i1] [Hchi Hin]].
  apply in_flat_map in Hin as [[ch2 i2] [Hchi2 Hin]].
  cbn [fst snd] in Hin.
  destruct (Z.ltb_spec 0 (Z.abs (ch - ch2))) as [H0 | H0];
    [| contradiction].
  destruct (Z.leb_spec (Z.abs (ch - ch2)) radius) as [H1 | H1];
    [| contradiction].
  destruct Hin as [<- | []]. cbn [target] in Ht. subst i1.
  destruct sq as [k' mem]. cbn [snd] in *.
  apply (Permutation_in _ (Hp combs)) in Hsq.
  destruct (proj1 (Hf k' ch i)) as (_ & Hk1 & Hc1);
    [exists mem; now split |].
  destruct (proj1 (Hf k' ch2 i2)) as (Hi2 & Hk2 & Hc2);
    [exists mem; now split |].
  assert (k' = k) by congruence. assert (ch = c) by congruence. subst k' ch.
  destruct (Hfar i2 ch2 Hi2 Hk2 Hc2) as [-> | Hgt]; lia.
Qed.

End Crosstalk.

End CrosstalkEdges.

(* ================================================================== *)
(** ** The crosstalk routines on small focal planes *)

Module CrosstalkEdgeCases.

Import Systematics CrosstalkSpec CrosstalkEdges.

(** Iteration in insertion order. *)
Definition insertion_order (c : combs_t) : combs_t := c.

Lemma insertion_order_perm (c : combs_t) : Permutation (insertion_order c) c.
Proof. apply Permutation_refl. Qed.

Lemma crosstalk_short_ids_witness :
  inject_crosstalk_inside_SQUID Sample.gauss insertion_order Sample.kernel_f
    [[4]; [8]; [2]] ["A"; "B"]%string [0; 0; 1]%Z (-3) 1 1 2 5438765 None
    "python" = Raise IndexError /\
  inject_crosstalk_SQUID_to_SQUID Sample.gauss insertion_order
    [[4]; [8]; [2]] ["A"; "B"]%string [0; 0; 1]%Z (-3) 1 100 5438765 None
  = Raise IndexError.
Proof.
  apply (@crosstalk_short_ids Sample.gauss insertion_order Sample.kernel_f
           [[4]; [8]; [2]] ["A"; "B"]%string [0; 0; 1]%Z (-3) 1 100 1 2
           5438765 None "python").
  left. cbn. lia.
Defined.

Lemma combs_grouping_witness :
  build_combs 4 ["A"; "B"; "A"; "B"]%string [0; 0; 1; 1]%Z
  = Ok [("A"%string, [(0%Z, 0%nat); (1%Z, 2%nat)]);
        ("B"%string, [(0%Z, 1%nat); (1%Z, 3%nat)])] /\
  NoDup (map fst [("A"%string, [(0%Z, 0%nat); (1%Z, 2%nat)]);
                  ("B"%string, [(0%Z, 1%nat); (1%Z, 3%nat)])]) /\
  NoDup (flat_map indices
           [("A"%string, [(0%Z, 0%nat); (1%Z, 2%nat)]);
            ("B"%string, [(0%Z, 1%nat); (1%Z, 3%nat)])]).
Proof.
  split; [reflexivity |].
  destruct (@combs_grouping 4 ["A"; "B"; "A"; "B"]%string [0; 0; 1; 1]%Z
              _ eq_refl) as (H1 & _ & H2 & _).
  split; [exact H1 | exact H2].
Defined.

Lemma crosstalk_radius_zero_witness :
  inject_crosstalk_inside_SQUID Sample.gauss insertion_order Sample.kernel_f
    [[4]; [8]; [2]; [6]] ["A"; "B"; "A"; "B"]%string [0; 0; 1; 1]%Z
    (-3) 1 0 2 5438765 None "python"
  = Ok ([[4]; [8]; [2]; [6]], None).
Proof.
  apply (@crosstalk_radius_zero Sample.gauss insertion_order Sample.kernel_f
           [[4]; [8]; [2]; [6]] ["A"; "B"; "A"; "B"]%string [0; 0; 1; 1]%Z
           (-3) 1 0 2 5438765 None); cbn; lia.
Defined.

Lemma single_squid_untouched_witness :
  inject_crosstalk_SQUID_to_SQUID Sample.gauss insertion_order
    [[4]; [8]; [2]] ["A"; "A"; "A"]%string [0; 1; 2]%Z (-3) 1 100 5438765
    None
  = Ok ([[4]; [8]; [2]], None).
Proof.
  apply (@single_squid_untouched Sample.gauss insertion_order
           [[4]; [8]; [2]] ["A"; "A"; "A"]%string [0; 1; 2]%Z (-3) 1 100
           5438765 None "A"%string insertion_order_perm).
  - intros [| [| [| i]]] Hi; try reflexivity. cbn in Hi. lia.
  - cbn. lia.
Defined.

Lemma crosstalk_keeps_shape_witness :
  List.length
    (written
       (inject_crosstalk_inside_SQUID Sample.gauss insertion_order
          Sample.kernel_f [[4; 1]; [8; 2]; [2; 3]; [6; 4]]
          ["A"; "B"; "A"; "B"]%string [0; 0; 1; 1]%Z (-3) 1 1 2 5438765 None
          "python")) = 4%nat /\
  Forall (fun r => List.length r = 2%nat)
    (written
       (inject_crosstalk_SQUID_to_SQUID Sample.gauss insertion_order
          [[4; 1]; [8; 2]; [2; 3]; [6; 4]]
          ["A"; "B"; "A"; "B"]%string [0; 0; 1; 1]%Z (-3) 1 100 5438765
          None)).
Proof.
  assert (Hm : Forall (fun r : list Q => List.length r = 2%nat)
                 [[4; 1]; [8; 2]; [2; 3]; [6; 4]])
    by (repeat constructor).
  destruct (@crosstalk_keeps_shape Sample.gauss insertion_order
              Sample.kernel_f [[4; 1]; [8; 2]; [2; 3]; [6; 4]]
              ["A"; "B"; "A"; "B"]%string [0; 0; 1; 1]%Z (-3) 1 100 1 2
              5438765 None 2 insertion_order_perm
              ltac:(cbn; lia) ltac:(cbn; lia) Hm)
    as ((_ & H1 & _) & (_ & _ & H2)).
  split; [exact H1 | exact H2].
Defined.

Lemma isolated_bolometer_untouched_witness :
  row
    (written
       (inject_crosstalk_inside_SQUID Sample.gauss insertion_order
          Sample.kernel_f [[4]; [8]; [2]; [6]]
          ["A"; "A"; "A"; "B"]%string [0; 1; 5; 1]%Z (-3) 1 1 2 5438765 None
          "python")) 2
  = [2].
Proof.
  apply (@isolated_bolometer_untouched Sample.gauss insertion_order
           Sample.kernel_f [[4]; [8]; [2]; [6]]
           ["A"; "A"; "A"; "B"]%string [0; 1; 5; 1]%Z (-3) 1 1 2 5438765 None
           2 "A"%string 5%Z insertion_order_perm);
    [cbn; lia | cbn; lia | reflexivity | reflexivity |].
  intros [| [| [| [| j]]]] c' Hj Hs Hc; cbn in Hj, Hs, Hc;
    try discriminate Hs; try lia;
    injection Hc as <-; first [now left | right; cbn; lia].
Defined.

End CrosstalkEdgeCases.

(* ================================================================== *)
(** ** Size of the differential pointing; pointing parameters *)

Module BeamOffsetsEdges.

Import Systematics BeamOffsetsSpec.

Section Offsets.

Variable gauss : Z -> nat -> Q.
Variable random_sample : Z -> nat -> nat -> Q.
Variable pi : Q.
Variable cos sin : Q -> Q.

Local Abbreviation modify :=
  (modify_beam_offsets gauss random_sample pi cos sin).

(** The [k]-th magnitude and direction drawn for [npair] pairs. *)
Definition rho_of (mu sigma : Q) (seed : Z) (npair k : nat) : Q :=
  nth k (normal gauss seed (mu * arcsecond2rad pi) (sigma * arcsecond2rad pi)
           npair) 0.

Definition theta_of (seed : Z) (npair k : nat) : Q :=
  nth k (map (fun u => u * deg2rad pi)
           (uniform random_sample seed npair 0 360 npair)) 0.

Lemma nth_draw (seed : Z) (mu sigma : Q) (p k : nat) (trig : Q -> Q) :
  (k < p)%nat ->
  nth k
    (map (fun rt => fst rt / 2 * trig (snd rt))
       (combine
          (normal gauss seed (mu * arcsecond2rad pi)
             (sigma * arcsecond2rad pi) p)
          (map (fun u => u * deg2rad pi)
             (uniform random_sample seed p 0 360 p)))) 0
  = rho_of mu sigma seed p k / 2 * trig (theta_of seed p k).
Proof.
  intros Hk. unfold rho_of, theta_of.
  set (rho := normal _ _ _ _ _). set (theta := map _ (uniform _ _ _ _ _ _)).
  assert (Lr : List.length rho = p)
    by (subst rho; unfold normal; now rewrite length_map, length_seq).
  assert (Lt : List.length theta = p)
    by (subst theta; unfold uniform; now rewrite !length_map, length_seq).
  rewrite (nth_indep _ 0 ((fun rt => fst rt / 2 * trig (snd rt)) (0, 0)))
    by (rewrite length_map, length_combine; lia).
  rewrite (map_nth (fun rt => fst rt / 2 * trig (snd rt))).
  rewrite combine_nth by lia. reflexivity.
Qed.

(** X21.  With exact trigonometry ([cos^2 + sin^2 = 1]) the two bolometers
    of pair [k] are moved apart by exactly the magnitude [rho] drawn for the
    pair: the change of their separation vector has length [rho]. *)
Theorem differential_pointing_magnitude (xpos ypos : list Q) (mu sigma : Q)
    (seed : Z) :
  List.length xpos = List.length ypos ->
  Nat.even (List.length xpos) = true ->
  (forall t, cos t * cos t + sin t * sin t == 1) ->
  let o := modify xpos ypos mu sigma seed in
  forall k, (k < List.length xpos / 2)%nat ->
    let rho := rho_of mu sigma seed (List.length xpos / 2) k in
    let dx := (nth (2 * k) (first_buffer o) 0
               - nth (2 * k + 1) (first_buffer o) 0)
              - (nth (2 * k) xpos 0 - nth (2 * k + 1) xpos 0) in
    let dy := (nth (2 * k) (second_buffer o) 0
               - nth (2 * k + 1) (second_buffer o) 0)
              - (nth (2 * k) ypos 0 - nth (2 * k + 1) ypos 0) in
    dx * dx + dy * dy == rho * rho.
Proof.
  intros Hlen Hev Htrig.
  apply Nat.even_spec in Hev as [p Hp].
  unfold modify_beam_offsets.
  rewrite <- Hlen, Nat.eqb_refl. cbn [negb].
  rewrite Hp, half_double.
  set (rt := combine _ _).
  set (rhox := map (fun rt => fst rt / 2 * cos (snd rt)) rt).
  set (rhoy := map (fun rt => fst rt / 2 * sin (snd rt)) rt).
  assert (Lx : List.length rhox = p) by apply draws_length.
  assert (Ly : List.length rhoy = p) by apply draws_length.
  destruct (slice_len_even p) as [S0 S1].
  rewrite (@iadd_stride2_exact 0 xpos rhox) by (rewrite Hp, Lx, S0; reflexivity).
  rewrite (@iadd_stride2_exact 1 (add_even xpos rhox) (map Qopp rhox))
    by (rewrite length_map, add_even_length, Hp, Lx, S1; reflexivity).
  rewrite (@iadd_stride2_exact 0 ypos rhoy)
    by (rewrite <- Hlen, Hp, Ly, S0; reflexivity).
  rewrite (@iadd_stride2_exact 1 (add_even ypos rhoy) (map Qopp rhoy))
    by (rewrite length_map, add_even_length, <- Hlen, Hp, Ly, S1; reflexivity).
  cbn [first_buffer second_buffer]. intros k Hk.
  rewrite !add_odd_nth_even.
  rewrite !add_odd_nth_odd by (rewrite ?length_map, ?add_even_length; lia).
  rewrite !add_even_nth_odd.
  rewrite !add_even_nth_even by lia.
  rewrite !nth_map_opp.
  subst rhox rhoy rt. rewrite !nth_draw by exact Hk.
  cbv zeta.
  set (r := rho_of mu sigma seed p k). set (t := theta_of seed p k).
  specialize (Htrig t).
  set (c := cos t) in *. set (s := sin t) in *.
  set (x0 := nth (2 * k) xpos 0). set (x1 := nth (2 * k + 1) xpos 0).
  set (y0 := nth (2 * k) ypos 0). set (y1 := nth (2 * k + 1) ypos 0).
  transitivity (r * r * (c * c + s * s)); [field | rewrite Htrig; ring].
Qed.

(** X22.  [modify_pointing_parameters] adds the errors entry by entry and
    stops at the end of the shorter list. *)
Theorem pointing_parameters_zip (values errors : list Q) :
  List.length (modify_pointing_parameters values errors)
  = Nat.min (List.length values) (List.length errors) /\
  forall k,
    (k < Nat.min (List.length values) (List.length errors))%nat ->
    nth k (modify_pointing_parameters values errors) 0
    = nth k values 0 + nth k errors 0.
Proof.
  unfold modify_pointing_parameters. split.
  - now rewrite length_map, length_combine.
  - revert errors. induction values as [| v values IH];
      intros [| e errors] k Hk; cbn [List.length Nat.min] in Hk; try lia.
    destruct k as [| k]; [reflexivity |].
    cbn [combine map nth]. apply IH. cbn [Nat.min] in Hk. lia.
Qed.

End Offsets.

(** Exact stand-ins for the trigonometry: the angle of the 3-4-5
    triangle. *)
Definition cos345 (x : Q) : Q := 3 # 5.
Definition sin345 (x : Q) : Q := 4 # 5.

Lemma differential_pointing_magnitude_witness :
  Nat.even (List.length [1; 1; -1; -1]) = true /\
  (forall t, cos345 t * cos345 t + sin345 t * sin345 t == 1) /\
  forall k, (k < 2)%nat ->
    let o := modify_beam_offsets Sample.gauss Sample.random_sample Sample.pi
               cos345 sin345 [1; 1; -1; -1] [1; -1; -1; 1] 600 300 5847 in
    let rho := rho_of Sample.gauss Sample.pi 600 300 5847 2 k in
    let dx := (nth (2 * k) (first_buffer o) 0
               - nth (2 * k + 1) (first_buffer o) 0)
              - (nth (2 * k) [1; 1; -1; -1] 0
                 - nth (2 * k + 1) [1; 1; -1; -1] 0) in
    let dy := (nth (2 * k) (second_buffer o) 0
               - nth (2 * k + 1) (second_buffer o) 0)
              - (nth (2 * k) [1; -1; -1; 1] 0
                 - nth (2 * k + 1) [1; -1; -1; 1] 0) in
    dx * dx + dy * dy == rho * rho.
Proof.
  split; [reflexivity |]. split; [intros t; reflexivity |].
  apply (@differential_pointing_magnitude Sample.gauss Sample.random_sample
           Sample.pi cos345 sin345 [1; 1; -1; -1] [1; -1; -1; 1] 600 300 5847);
    [reflexivity | reflexivity | intros t; reflexivity].
Defined.

End BeamOffsetsEdges.

(* ================================================================== *)
(** ** The focal-plane convolution off the main path *)

Module FocalPlaneEdges.

Import FocalPlane FocalPlaneSpec.

Lemma axis_In (r x : Z) :
  In x (map (fun k => (Z.of_nat k - r)%Z) (seq 0 (Z.to_nat (r * 2 + 1))))
  <-> (- r <= x <= r)%Z.
Proof.
  rewrite in_map_iff. split.
  - intros (k & <- & Hk). apply in_seq in Hk. lia.
  - intros H. exists (Z.to_nat (x + r)). split; [lia |].
    apply in_seq. lia.
Qed.

(** X23.  The focal-plane model is the open disc of radius
    [fp_rad_bins]: an offset belongs to it exactly when
    [x^2 + y^2 < fp_rad_bins^2]. *)
Theorem footprint_disc (fp_rad_bins x y : Z) :
  (0 <= fp_rad_bins)%Z ->
  In (x, y) (footprint fp_rad_bins)
  <-> (x * x + y * y < fp_rad_bins * fp_rad_bins)%Z.
Proof.
  intros Hr. unfold footprint. rewrite filter_In, in_prod_iff, !axis_In.
  cbn [fst snd]. rewrite Z.ltb_lt. split; [tauto |].
  intros H. split; [nia | exact H].
Qed.

Lemma footprint_disc_witness :
  (0 <= 2)%Z /\
  (In (1, -1)%Z (footprint 2) <-> (1 * 1 + -1 * -1 < 2 * 2)%Z).
Proof.
  split; [lia | apply footprint_disc; lia].
Defined.

Lemma footprint_empty_iff (r : Z) :
  (0 <= r)%Z -> (List.length (footprint r) = 0%nat <-> r = 0%Z).
Proof.
  intros Hr. split.
  - intros H. destruct (Z.eq_dec r 0) as [E | E]; [exact E |].
    assert (Hin : In (0, 0)%Z (footprint r)) by (apply footprint_disc; nia).
    destruct (footprint r); [contradiction | discriminate H].
  - intros ->. reflexivity.
Qed.

Lemma nth_add_at_other (pix p : nat) (v : Q) (a : list Q) :
  pix <> p -> nth p (add_at pix v a) 0 = nth p a 0.
Proof.
  revert pix p. induction a as [| x a IH]; intros pix p H; [reflexivity |].
  destruct pix, p; cbn [add_at nth]; try reflexivity; try congruence.
  apply IH. congruence.
Qed.

Section Convolution.

Variable pi : Q.
Variable sin : Q -> Q.
Variable npix2nside : nat -> result nat.
Variable nside2resol_arcmin : nat -> Q.
Variable pix2ang : nat -> nat -> Q * Q.
Variable ang2pix : nat -> Q -> Q -> nat.
Variable convolve_focalplane_f :
  list Q -> list Q -> list nat -> Q -> Q -> nat -> list Q.

Local Abbreviation convolve :=
  (convolve_focalplane pi sin npix2nside nside2resol_arcmin pix2ang ang2pix
     convolve_focalplane_f).

(** X24.  On a map of a valid size, [convolve_focalplane] divides by zero
    exactly when the focal plane is less than one bin in radius
    ([int(fp_radius_amin * 2 / resol_amin) = 0]): the model is then
    empty. *)
Theorem empty_model_divides_by_zero (bore_nhits : list Q) (nbolos : Z)
    (fp_radius_amin boost : Q) (language : string) (nside : nat) :
  npix2nside (List.length bore_nhits) = Ok nside ->
  (convolve bore_nhits nbolos fp_radius_amin boost language
   = Raise ZeroDivisionError
   <-> int_of_float (fp_radius_amin * 2 / nside2resol_arcmin nside) = 0%Z).
Proof.
  intros Hns. unfold convolve_focalplane.
  rewrite repeat_length, Hns. cbn [bind].
  set (r := int_of_float (fp_radius_amin * 2 / nside2resol_arcmin nside)).
  destruct (Z.ltb_spec r 0) as [Hneg | Hpos].
  - split; [discriminate | lia].
  - destruct (Nat.eqb_spec (List.length (footprint r)) 0) as [E | E].
    + split; [intros _; now apply footprint_empty_iff | reflexivity].
    + destruct (offsets pi fp_radius_amin r) as [dRA dDec].
      split; [discriminate |].
      intros Hr. exfalso. apply E. now apply footprint_empty_iff.
Qed.

(** X25.  Under the python and C settings the output map has the size of
    the input map. *)
Theorem convolve_keeps_size (bore_nhits out : list Q) (nbolos : Z)
    (fp_radius_amin boost : Q) (language : string) :
  In language ["python"; "C"]%string ->
  convolve bore_nhits nbolos fp_radius_amin boost language = Ok out ->
  List.length out = List.length bore_nhits.
Proof.
  intros Hlang H. unfold convolve_focalplane in H.
  destruct (npix2nside (List.length (repeat 0 (List.length bore_nhits))))
    as [nside |]; cbn [bind] in H; [| discriminate H].
  destruct (_ <? 0)%Z; [discriminate H |].
  destruct (_ =? 0)%nat; [discriminate H |].
  destruct (offsets pi fp_radius_amin _) as [dRA dDec].
  assert (Hl : ((language =? "python") || (language =? "C"))%string = true).
  { cbn [In] in Hlang. destruct Hlang as [<- | [<- | []]]; reflexivity. }
  rewrite Hl in H. injection H as <-.
  apply (CrosstalkEdges.fold_left_inv
           (fun acc => List.length acc = List.length bore_nhits));
    [| apply repeat_length].
  intros acc n _ Hacc. unfold accumulate.
  apply (CrosstalkEdges.fold_left_inv
           (fun acc => List.length acc = List.length bore_nhits));
    [| exact Hacc].
  intros acc' pix _ Hacc'. now rewrite add_at_length.
Qed.

(** X26.  A boresight map without hits gives a focal-plane map without
    hits, whatever the backend: no pixel is visited. *)
Theorem convolve_no_hits (bore_nhits out : list Q) (nbolos : Z)
    (fp_radius_amin boost : Q) (language : string) :
  Forall (fun h => h == 0) bore_nhits ->
  convolve bore_nhits nbolos fp_radius_amin boost language = Ok out ->
  out = repeat 0 (List.length bore_nhits).
Proof.
  intros Hz H. unfold convolve_focalplane in H.
  destruct (npix2nside (List.length (repeat 0 (List.length bore_nhits))))
    as [nside |]; cbn [bind] in H; [| discriminate H].
  destruct (_ <? 0)%Z; [discriminate H |].
  destruct (_ =? 0)%nat; [discriminate H |].
  destruct (offsets pi fp_radius_amin _) as [dRA dDec].
  assert (E : filter (fun n => negb (Qeq_bool (nth n bore_nhits 0) 0))
                (seq 0 (List.length bore_nhits)) = []).
  { assert (G : forall l, filter
                  (fun n => negb (Qeq_bool (nth n bore_nhits 0) 0)) l = []).
    { induction l as [| n l IH]; [reflexivity |].
      cbn [filter].
      assert (Hn : nth n bore_nhits 0 == 0).
      { destruct (Nat.lt_ge_cases n (List.length bore_nhits)) as [Hlt | Hge].
        - rewrite Forall_forall in Hz. apply Hz. now apply nth_In.
        - rewrite nth_overflow by exact Hge. reflexivity. }
      apply Qeq_bool_iff in Hn. rewrite Hn. exact IH. }
    apply G. }
  rewrite E in H. cbn [fold_left] in H. now injection H as <-.
Qed.

(** X27.  Under the python and C settings hits land on candidate pixels
    only: an output pixel that is no candidate of any hit pixel stays at
    zero. *)
Theorem hits_land_on_candidates (bore_nhits out : list Q) (nbolos : Z)
    (fp_radius_amin boost : Q) (language : string) (nside : nat) (p : nat) :
  In language ["python"; "C"]%string ->
  npix2nside (List.length bore_nhits) = Ok nside ->
  convolve bore_nhits nbolos fp_radius_amin boost language = Ok out ->
  (forall n, (n < List.length bore_nhits)%nat ->
     ~ nth n bore_nhits 0 == 0 ->
     let fp_rad_bins :=
       int_of_float (fp_radius_amin * 2 / nside2resol_arcmin nside) in
     let '(dRA, dDec) := offsets pi fp_radius_amin fp_rad_bins in
     ~ In p (candidate_pixels sin pix2ang ang2pix nside dRA dDec n)) ->
  nth p out 0 = 0.
Proof.
  intros Hlang Hns H Hp. unfold convolve_focalplane in H.
  rewrite repeat_length, Hns in H. cbn [bind] in H.
  set (r := int_of_float (fp_radius_amin * 2 / nside2resol_arcmin nside)) in *.
  destruct (r <? 0)%Z; [discriminate H |].
  destruct (_ =? 0)%nat; [discriminate H |].
  cbv zeta in Hp.
  destruct (offsets pi fp_radius_amin r) as [dRA dDec].
  assert (Hl : ((language =? "python") || (language =? "C"))%string = true).
  { cbn [In] in Hlang. destruct Hlang as [<- | [<- | []]]; reflexivity. }
  rewrite Hl in H. injection H as <-.
  apply (CrosstalkEdges.fold_left_inv (fun acc => nth p acc 0 = 0)).
  - intros acc n Hn Hacc. apply filter_In in Hn as [Hn Hnz].
    apply in_seq in Hn.
    assert (Hne : ~ nth n bore_nhits 0 == 0).
    { intros E. apply Qeq_bool_iff in E. rewrite E in Hnz. discriminate. }
    specialize (Hp n ltac:(lia) Hne).
    unfold accumulate.
    apply (CrosstalkEdges.fold_left_inv (fun acc => nth p acc 0 = 0));
      [| exact Hacc].
    intros acc' pix Hpix Hacc'.
    rewrite nth_add_at_other; [exact Hacc' |].
    intros ->. exact (Hp Hpix).
  - destruct (Nat.lt_ge_cases p (List.length bore_nhits)).
    + now rewrite nth_repeat_lt.
    + apply nth_overflow. now rewrite repeat_length.
Qed.

End Convolution.

End FocalPlaneEdges.

(* ================================================================== *)
(** ** The focal-plane convolution on a 12-pixel sky *)

Module FocalPlaneEdgeCases.

Import FocalPlane FocalPlaneSpec FocalPlaneEdges.

Definition convolve_sample :=
  convolve_focalplane Healpix1.pi Healpix1.sin Sample.npix2nside
    Healpix1.nside2resol_arcmin Healpix1.pix2ang Healpix1.ang2pix
    Sample.convolve_f.

(** One hit in pixel 5. *)
Definition single_hit : list Q := [0; 0; 0; 0; 0; 1; 0; 0; 0; 0; 0; 0].

Lemma empty_model_divides_by_zero_witness :
  Sample.npix2nside (List.length single_hit) = Ok 1%nat /\
  convolve_sample single_hit 10 1000 1 "C" = Raise ZeroDivisionError.
Proof.
  split; [reflexivity |].
  apply (proj2 (@empty_model_divides_by_zero Healpix1.pi Healpix1.sin
                  Sample.npix2nside Healpix1.nside2resol_arcmin Healpix1.pix2ang
                  Healpix1.ang2pix Sample.convolve_f single_hit 10 1000 1 "C"
                  1%nat eq_refl)).
  reflexivity.
Defined.

Lemma convolve_keeps_size_witness :
  exists out,
    convolve_sample single_hit 10 3500 1 "python" = Ok out /\
    List.length out = 12%nat.
Proof.
  destruct (convolve_sample single_hit 10 3500 1 "python") as [out |] eqn:Hc;
    [| vm_compute in Hc; discriminate Hc].
  exists out. split; [reflexivity |].
  apply (@convolve_keeps_size Healpix1.pi Healpix1.sin Sample.npix2nside
           Healpix1.nside2resol_arcmin Healpix1.pix2ang Healpix1.ang2pix
           Sample.convolve_f single_hit out 10 3500 1 "python");
    [now left | exact Hc].
Defined.

Lemma convolve_no_hits_witness :
  exists out,
    convolve_sample (repeat 0 12) 10 3500 1 "fortran" = Ok out /\
    out = repeat 0 12.
Proof.
  destruct (convolve_sample (repeat 0 12) 10 3500 1 "fortran") as [out |] eqn:Hc;
    [| vm_compute in Hc; discriminate Hc].
  exists out. split; [reflexivity |].
  apply (@convolve_no_hits Healpix1.pi Healpix1.sin Sample.npix2nside
           Healpix1.nside2resol_arcmin Healpix1.pix2ang Healpix1.ang2pix
           Sample.convolve_f (repeat 0 12) out 10 3500 1 "fortran");
    [| exact Hc].
  repeat constructor.
Defined.

Lemma hits_land_on_candidates_witness :
  exists out,
    convolve_sample single_hit 10 3500 1 "C" = Ok out /\ nth 0 out 0 = 0.
Proof.
  destruct (convolve_sample single_hit 10 3500 1 "C") as [out |] eqn:Hc;
    [| vm_compute in Hc; discriminate Hc].
  exists out. split; [reflexivity |].
  apply (@hits_land_on_candidates Healpix1.pi Healpix1.sin Sample.npix2nside
           Healpix1.nside2resol_arcmin Healpix1.pix2ang Healpix1.ang2pix
           Sample.convolve_f single_hit out 10 3500 1 "C" 1%nat 0%nat);
    [right; now left | reflexivity | exact Hc |].
  intros n Hn Hne.
  do 12 (destruct n as [| n];
         [first [exfalso; apply Hne; reflexivity
                | vm_compute; intros H;
                  repeat (destruct H as [H | H]; [discriminate H |]);
                  exact H] |]).
  cbn in Hn. lia.
Defined.

End FocalPlaneEdgeCases.
